(** * The manga catalogue scraper ([manga_scraper3.py]), embedded in Rocq

    The development follows the Python module top to bottom:
    - Python values and dictionaries as they occur in item records;
    - the string helpers the module relies on ([str.strip],
      [str.startswith], [in], the rating regular expression, [float]);
    - the BeautifulSoup interface as a type class, with a small DOM
      instance used to run the extractors on concrete pages;
    - a state-and-exception monad threading the observable events
      (prints, fetches, sleeps, file writes) through the [async] functions;
    - the functions [extract_manga_list], [extract_manga_details],
      [filter_navigation_links], [save_to_json] and [main];
    - [combine_json_files] of [combine_to_json.py];
    - the properties of the specification, one theorem per claim, and
      further properties of the same functions. *)

From Stdlib Require Import Ascii String QArith Qcanon Lqa.
From stdpp Require Import ssreflect base decidable option list strings countable gmap pretty.

Set Warnings "-rewrite-rw".

Local Open Scope string_scope.
Local Open Scope list_scope.

(** ** Python values *)

Module Py.

(** A [float], as far as the module can make one: a finite double, given
    by the rational it denotes, or [inf]. *)
Inductive pyfloat : Type :=
  | Finite (q : Qc)
  | Inf.

#[global] Instance pyfloat_eq_dec : EqDecision pyfloat.
Proof. solve_decision. Defined.

(** The values stored in item records: [None], [str], [float] and the
    lists of stripped texts ([author], [genres]). *)
Inductive pyval : Type :=
  | PNone
  | PStr (s : string)
  | PFloat (x : pyfloat)
  | PList (l : list string).

#[global] Instance pyval_eq_dec : EqDecision pyval.
Proof. solve_decision. Defined.

Definition pyval_code (v : pyval) : unit + string + (Qc + unit) + list string :=
  match v with
  | PNone => inl (inl (inl tt))
  | PStr s => inl (inl (inr s))
  | PFloat (Finite q) => inl (inr (inl q))
  | PFloat Inf => inl (inr (inr tt))
  | PList l => inr l
  end.

Definition pyval_decode (c : unit + string + (Qc + unit) + list string) : pyval :=
  match c with
  | inl (inl (inl _)) => PNone
  | inl (inl (inr s)) => PStr s
  | inl (inr (inl q)) => PFloat (Finite q)
  | inl (inr (inr _)) => PFloat Inf
  | inr l => PList l
  end.

#[global] Instance pyval_countable : Countable pyval.
Proof. apply (inj_countable' pyval_code pyval_decode). by intros [| |[]|]. Defined.

(** Python exceptions, as far as the module can meet them.  [LibError]
    stands for whatever a collaborator (crawler, parser, file system, JSON
    encoder) raises; all of them are subclasses of [Exception]. *)
Inductive exn : Type :=
  | KeyError (key : string)
  | TypeError (msg : string)
  | ValueError (msg : string)
  | LibError (msg : string).

#[global] Instance exn_eq_dec : EqDecision exn.
Proof. solve_decision. Defined.

(** A computation that returns or raises. *)
Definition res (A : Type) : Type := exn + A.

(** [bool(v)] *)
Definition truthy (v : pyval) : bool :=
  match v with
  | PNone => false
  | PStr s => negb (String.eqb s "")
  | PFloat (Finite q) => negb (bool_decide (q = Q2Qc 0))
  | PFloat Inf => true
  | PList l => negb (bool_decide (l = []))
  end.

(** [hash(v)] succeeds on everything but lists. *)
Definition hashable (v : pyval) : bool :=
  match v with
  | PList _ => false
  | _ => true
  end.

End Py.
Export Py.

(** A record is a Python [dict] with string keys. *)
Abbreviation dict := (gmap string pyval).

(** ** Deduplication ([main], "Remove duplicates based on URL") *)

(** The loop
<<
    unique_urls = set(); unique_manga_list = []
    for manga in manga_list:
        if manga["url"] not in unique_urls:
            unique_urls.add(manga["url"])
            unique_manga_list.append(manga)
>>
    [manga["url"]] raises [KeyError] on a missing key and the set operations
    raise [TypeError] on an unhashable value. *)
Fixpoint dedupe_loop (manga_list : list dict) (unique_urls : gset pyval)
    (unique_manga_list : list dict) : res (list dict) :=
  match manga_list with
  | [] => inr unique_manga_list
  | manga :: rest =>
      match manga !! "url" with
      | None => inl (KeyError "url")
      | Some u =>
          if hashable u then
            if decide (u ∈ unique_urls)
            then dedupe_loop rest unique_urls unique_manga_list
            else dedupe_loop rest ({[u]} ∪ unique_urls) (unique_manga_list ++ [manga])
          else inl (TypeError "unhashable type: 'list'")
      end
  end.

Definition dedupe (manga_list : list dict) : res (list dict) :=
  dedupe_loop manga_list ∅ [].

(** The identity key of a record. *)
Definition url_of (r : dict) : option pyval := r !! "url".

(** An item record carries a hashable ["url"]. *)
Definition keyed (r : dict) : Prop :=
  ∃ u, r !! "url" = Some u ∧ hashable u = true.

(** The records the loop appends, as a function of the set of URLs seen. *)
Fixpoint keep_unseen (seen : gset pyval) (l : list dict) : list dict :=
  match l with
  | [] => []
  | m :: rest =>
      match m !! "url" with
      | None => []
      | Some u =>
          if decide (u ∈ seen) then keep_unseen seen rest
          else m :: keep_unseen ({[u]} ∪ seen) rest
      end
  end.


(** ** String helpers

    A [string] is read as a sequence of code points below 256, which is
    where Python's [str.isspace] and the regular expression class [\d] are
    modelled. *)

Module Str.

(** [c.isspace()] for a code point below 256. *)
Definition is_space (c : ascii) : bool :=
  let n := nat_of_ascii c in
  (((9 <=? n) && (n <=? 13)) || ((28 <=? n) && (n <=? 32))
   || (n =? 133) || (n =? 160))%nat.

(** [\d] for a code point below 256: the ten ASCII digits. *)
Definition is_digit (c : ascii) : bool :=
  let n := nat_of_ascii c in ((48 <=? n) && (n <=? 57))%nat.

Fixpoint lstrip (s : string) : string :=
  match s with
  | String c s' => if is_space c then lstrip s' else s
  | EmptyString => EmptyString
  end.

Fixpoint rstrip (s : string) : string :=
  match s with
  | String c s' =>
      match rstrip s' with
      | EmptyString => if is_space c then EmptyString else String c EmptyString
      | r => String c r
      end
  | EmptyString => EmptyString
  end.

(** [s.strip()] *)
Definition strip (s : string) : string := rstrip (lstrip s).

(** [s.startswith(p)] *)
Definition startswith (p s : string) : bool := String.prefix p s.

(** [needle in hay] on strings. *)
Fixpoint contains (needle hay : string) : bool :=
  match hay with
  | EmptyString => String.prefix needle EmptyString
  | String _ hay' => String.prefix needle hay || contains needle hay'
  end.

(** The longest prefix of digits, and what follows it. *)
Fixpoint span_digits (s : string) : string * string :=
  match s with
  | String c s' =>
      if is_digit c
      then let '(d, r) := span_digits s' in (String c d, r)
      else (EmptyString, s)
  | EmptyString => (EmptyString, EmptyString)
  end.

(** What [\d+\.?\d*] matches at the start of [s], given that [s] starts with
    a digit: every quantifier is greedy and none has to give anything back,
    since what follows each of them also matches the empty string. *)
Definition match_number_here (s : string) : string :=
  let '(d1, r1) := span_digits s in
  match r1 with
  | String "."%char r2 => let '(d2, _) := span_digits r2 in d1 +:+ "." +:+ d2
  | _ => d1
  end.

(** [re.search] with the rating pattern: [group(1)] of the leftmost match,
    or [None]. *)
Fixpoint re_search_number (s : string) : option string :=
  match s with
  | String c s' =>
      if is_digit c then Some (match_number_here s) else re_search_number s'
  | EmptyString => None
  end.

(** The natural number written by a string of digits. *)
Fixpoint digits_value (acc : N) (s : string) : N :=
  match s with
  | String c s' => digits_value (10 * acc + (N_of_ascii c - 48)) s'
  | EmptyString => acc
  end.

Fixpoint pow10 (n : nat) : positive :=
  match n with
  | O => 1%positive
  | S n' => (10 * pow10 n')%positive
  end.

(** [n / (d * 2^x)] as a fraction of integers. *)
Definition scale2 (n d x : Z) : Z * Z :=
  if (0 <=? x)%Z then (n, d * 2 ^ x)%Z else (n * 2 ^ (- x), d)%Z.

(** The double nearest to [n / d], ties to even.  A finite double
    denotes [m * 2^x] with [m < 2^53] and [-1074 <= x <= 971]; with
    [2^e <= n / d < 2^(e+1)] the unit in the last place is [2^x] for
    [x = max (e - 52) (-1074)], and [m] is [n / (d * 2^x)] rounded to the
    nearest integer, to the even one on a tie.  What rounds to [2^1024] or
    more is [inf]. *)
Definition nearest_double (n : N) (d : positive) : pyfloat :=
  if (n =? 0)%N then Finite (Q2Qc 0)
  else
    let n := Z.of_N n in
    let d := Z.pos d in
    let e0 := (Z.log2 n - Z.log2 d)%Z in
    let '(a, b) := scale2 n d e0 in
    let e := if (b <=? a)%Z then e0 else (e0 - 1)%Z in
    let x := Z.max (e - 52) (-1074) in
    let '(num, den) := scale2 n d x in
    let q := (num / den)%Z in
    let r := (num mod den)%Z in
    let m := if ((den <? 2 * r) || ((2 * r =? den) && Z.odd q))%Z
             then (q + 1)%Z else q in
    if ((971 <? x) || ((x =? 971) && (2 ^ 53 <=? m)))%Z then Inf
    else if (0 <=? x)%Z then Finite (Q2Qc (m * 2 ^ x # 1))
         else Finite (Q2Qc (m # Z.to_pos (2 ^ (- x)))).

(** [float(s)] on the decimal literals [digits] and [digits.digits*],
    which is all the regular expression can hand to it: the double
    nearest to the number the literal denotes.  Any other string is
    rejected with [ValueError] here. *)
Definition py_float (s : string) : res pyfloat :=
  let '(ip, r) := span_digits s in
  if String.eqb ip "" then inl (ValueError "could not convert string to float")
  else match r with
       | EmptyString => inr (nearest_double (digits_value 0 ip) 1)
       | String "."%char r2 =>
           let '(fp, r3) := span_digits r2 in
           if String.eqb r3 "" then
             inr (nearest_double (digits_value 0 (ip +:+ fp))
                                 (pow10 (String.length fp)))
           else inl (ValueError "could not convert string to float")
       | _ => inl (ValueError "could not convert string to float")
       end.

End Str.
Export Str.

(** ** BeautifulSoup

    The parser library is a collaborator: the module only uses the four
    [Tag] operations below, so they form the interface.  [select] returns
    the matches in document order, [find] the first descendant with a tag
    name, [get] an attribute or [None]. *)

Module bs4.

Class Soup (node : Type) : Type := {
  select : string → node → list node;
  find : string → node → option node;
  text : node → string;
  get : string → node → option string;
}.

Section tag.
Context {node : Type} `{Soup node}.

(** [tag.select_one(sel)]: the first match of [select], or [None]. *)
Definition select_one (sel : string) (n : node) : option node :=
  head (select sel n).

(** [tag.has_attr(a)] *)
Definition has_attr (a : string) (n : node) : bool :=
  match get a n with Some _ => true | None => false end.

(** [a or b] on optional tags: a [Tag] is always truthy. *)
Definition or_tag (a b : option node) : option node :=
  match a with Some _ => a | None => b end.

(** [a or b] on result lists: an empty list is falsy. *)
Definition or_list (a b : list node) : list node :=
  match a with [] => b | _ :: _ => a end.

(** [[e.text.strip() for e in elements]] *)
Definition stripped_texts (elements : list node) : list string :=
  (λ e, strip (text e)) <$> elements.
End tag.

End bs4.

(** ** Effects *)

(** The pieces of an f-string, kept apart so that no number or float has to
    be formatted. *)
Inductive frag : Type :=
  | FS (s : string)
  | FV (v : pyval)
  | FN (n : nat)
  | FQ (q : Qc)
  | FE (e : exn).

(** What a run does to the outside world, in order. *)
Inductive event : Type :=
  | Printed (msg : list frag)
  | NewCrawler (user_agent : string)
  | Arun (url : pyval)
  | Sleep (delay : Qc)
  | Makedirs (path : string)
  | OpenW (path : string)
  | FileWrite (path content : string)
  | CloseCrawler.

#[global] Instance frag_eq_dec : EqDecision frag.
Proof. solve_decision. Defined.
#[global] Instance event_eq_dec : EqDecision event.
Proof. solve_decision. Defined.

(** The collaborators.  Each answer may depend on everything that happened
    before ([list event]), so that a page may load once and fail later. *)
Record Env (node : Type) : Type := {
  (** [AsyncWebCrawler(...)] *)
  new_crawler : list event → string → res unit;
  (** [(await crawler.arun(url)).html] *)
  arun_html : list event → pyval → res string;
  (** [BeautifulSoup(html, "html.parser")] *)
  BeautifulSoup : string → res node;
  (** [random.random()], a number in [0, 1) *)
  random_random : list event → Qc;
  (** the index [random.choice] draws below a bound *)
  random_below : list event → nat → nat;
  (** [os.path.abspath], [os.path.dirname] *)
  abspath : string → string;
  dirname : string → string;
  (** [os.makedirs(path, exist_ok=True)] *)
  makedirs : list event → string → res unit;
  (** [open(filename, "w", encoding="utf-8")] *)
  open_w : list event → string → res unit;
  (** [json.dumps(data, indent=.., ensure_ascii=..)] *)
  json_dumps : option nat → bool → list dict → res string;
  (** [f.write(content)] *)
  file_write : list event → string → string → res unit;
}.
Arguments new_crawler {node}.
Arguments arun_html {node}.
Arguments BeautifulSoup {node}.
Arguments random_random {node}.
Arguments random_below {node}.
Arguments abspath {node}.
Arguments dirname {node}.
Arguments makedirs {node}.
Arguments open_w {node}.
Arguments json_dumps {node}.
Arguments file_write {node}.

(** A computation reads the history, extends it, and returns or raises. *)
Definition M (A : Type) : Type := list event → res A * list event.

#[global] Instance M_ret : MRet M := λ A (a : A) h, (inr a, h).
#[global] Instance M_bind : MBind M := λ A B (f : A → M B) (c : M A) h,
  match c h with
  | (inr a, h') => f a h'
  | (inl e, h') => (inl e, h')
  end.

(** [raise e] *)
Definition throw {A : Type} (e : exn) : M A := λ h, (inl e, h).

(** A pure step that may raise. *)
Definition lift {A : Type} (r : res A) : M A := λ h, (r, h).

(** An effect: the event is recorded, the collaborator answers from the
    history before it. *)
Definition call {A : Type} (ev : event) (answer : list event → res A) : M A :=
  λ h, (answer h, h ++ [ev]).

(** [print(f"...")] *)
Definition print (msg : list frag) : M unit := call (Printed msg) (λ _, inr tt).

(** [try: c  except Exception as e: handler(e)] *)
Definition try_except {A : Type} (c : M A) (handler : exn → M A) : M A := λ h,
  match c h with
  | (inr a, h') => (inr a, h')
  | (inl e, h') => handler e h'
  end.

(** [try: c  finally: f] *)
Definition try_finally {A : Type} (c : M A) (f : M unit) : M A := λ h,
  match c h with
  | (r, h') =>
      match f h' with
      | (inr _, h'') => (r, h'')
      | (inl e, h'') => (inl e, h'')
      end
  end.

(** [d[k]] *)
Definition getitem (d : dict) (k : string) : res pyval :=
  match d !! k with
  | Some v => inr v
  | None => inl (KeyError k)
  end.

(** [a or b] on values. *)
Definition py_or (a b : pyval) : pyval := if truthy a then a else b.

(** An attribute as a Python value. *)
Definition attr (a : option string) : pyval :=
  match a with Some s => PStr s | None => PNone end.

(** [needle in v]: substring for [str], membership for a list, [TypeError]
    for anything that is not a container. *)
Definition py_in (needle : string) (v : pyval) : res bool :=
  match v with
  | PStr s => inr (contains needle s)
  | PList l => inr (bool_decide (needle ∈ l))
  | PNone => inl (TypeError "argument of type 'NoneType' is not iterable")
  | PFloat _ => inl (TypeError "argument of type 'float' is not iterable")
  end.

(** ** Module constants *)

Definition BASE_URL : string := "https://mangareader.to".
Definition AZ_LIST_URL : string := "https://mangareader.to/az-list".
Definition OUTPUT_FILE : string := "manga_data.json".
Definition MAX_PAGES : nat := 710.
(** [range(595, MAX_PAGES + 1)] starts here. *)
Definition FIRST_PAGE : nat := 595.

Definition USER_AGENTS : list string := [
  "Mozilla/5.0 (Windows NT 10.0; Win64; x64) AppleWebKit/537.36 (KHTML, like Gecko) Chrome/121.0.0.0 Safari/537.36";
  "Mozilla/5.0 (Macintosh; Intel Mac OS X 10_15_7) AppleWebKit/605.1.15 (KHTML, like Gecko) Version/16.4 Safari/605.1.15";
  "Mozilla/5.0 (Windows NT 10.0; Win64; x64; rv:109.0) Gecko/20100101 Firefox/117.0";
  "Mozilla/5.0 (X11; Linux x86_64) AppleWebKit/537.36 (KHTML, like Gecko) Chrome/119.0.0.0 Safari/537.36"
].

(** ** [filter_navigation_links] *)

(** An element of the argument: a [dict], or anything else. *)
Inductive item : Type :=
  | IDict (d : dict)
  | IOther (v : pyval).

(** The argument: a [list], or anything else. *)
Inductive pydata : Type :=
  | DList (l : list item)
  | DOther (v : pyval).

(** The condition of the comprehension,
    [isinstance(item, dict) and "url" in item and "az-list" in item["url"]]. *)
Definition is_navigation (it : item) : res bool :=
  match it with
  | IDict d =>
      match d !! "url" with
      | Some u => py_in "az-list" u
      | None => inr false
      end
  | IOther _ => inr false
  end.

(** [[item for item in extracted_data if not (...)]] *)
Fixpoint filter_items (extracted_data : list item) : res (list item) :=
  match extracted_data with
  | [] => inr []
  | it :: rest =>
      match is_navigation it with
      | inl e => inl e
      | inr nav =>
          match filter_items rest with
          | inl e => inl e
          | inr kept => inr (if nav then kept else it :: kept)
          end
      end
  end.

Definition filter_navigation_links (extracted_data : pydata) : res pydata :=
  match extracted_data with
  | DList l =>
      match filter_items l with
      | inl e => inl e
      | inr kept => inr (DList kept)
      end
  | DOther v => inr (DOther v)
  end.

(** The list of dicts [main] goes on with. *)
Definition dicts_of (x : pydata) : list dict :=
  match x with
  | DList l => omap (λ it, match it with IDict d => Some d | IOther _ => None end) l
  | DOther _ => []
  end.

(** ** The scraper *)

Section scraper.
Context {node : Type} `{bs4.Soup node} (env : Env node).

(** [await crawler.arun(...)], then [.html] *)
Definition arun (url : pyval) : M string :=
  call (Arun url) (λ h, arun_html env h url).

(** [random.uniform(a, b)], computed as [a + (b - a) * random()] *)
Definition uniform (a b : Qc) : M Qc :=
  λ h, (inr (a + (b - a) * random_random env h)%Qc, h).

(** [random.choice(seq)] *)
Definition random_choice (seq : list string) : M string :=
  λ h, (inr (default "" (seq !! random_below env h (length seq))), h).

(** [await asyncio.sleep(delay)] *)
Definition sleep (delay : Qc) : M unit := call (Sleep delay) (λ _, inr tt).

(** *** [extract_manga_list] *)

(** The body of the [try] inside the loop over [manga_elements]: the
    stub appended for one node, or [None] when the node has no link. *)
Definition link_of (manga : node) : option node :=
  bs4.or_tag (bs4.select_one "a.manga-poster" manga)
    (bs4.or_tag (bs4.select_one "a.poster" manga) (bs4.find "a" manga)).

Definition title_element_of (manga : node) : option node :=
  bs4.or_tag (bs4.select_one ".manga-detail h3.manga-name a" manga)
    (bs4.or_tag (bs4.select_one ".detail h3 a" manga) (link_of manga)).

Definition item_stub (manga : node) : option dict :=
  let link_element := link_of manga in
  let title_element := title_element_of manga in
  match link_element with
  | Some link =>
      let manga_url := attr (bs4.get "href" link) in
      let manga_url :=
        match manga_url with
        | PStr href =>
            if truthy manga_url && negb (startswith "http" href)
            then PStr (BASE_URL +:+ href) else manga_url
        | _ => manga_url
        end in
      let cover_img := bs4.select_one "img" link in
      let cover_url :=
        match cover_img with
        | Some img => py_or (attr (bs4.get "src" img)) (attr (bs4.get "data-src" img))
        | None => PNone
        end in
      let title :=
        match title_element with
        | Some t => strip (bs4.text t)
        | None => "Unknown Title"
        end in
      Some (<["title" := PStr title]> (<["url" := manga_url]>
             (<["cover_url" := cover_url]> ∅)))
  | None => None
  end.

(** The loop [for manga in manga_elements], with its [try]/[except] that
    logs and goes on to the next node. *)
Fixpoint items_loop (manga_elements : list node) (manga_items : list dict)
    : M (list dict) :=
  match manga_elements with
  | [] => mret manga_items
  | manga :: rest =>
      manga_items' ← try_except
        (mret (match item_stub manga with
               | Some stub => manga_items ++ [stub]
               | None => manga_items
               end))
        (λ e, print [FS "Error parsing a manga item: "; FE e];;
              mret manga_items);
      items_loop rest manga_items'
  end.

(** The nodes the page yields: the primary selector, else the first of
    three alternatives that matches. *)
Definition primary_elements (soup : node) : list node :=
  bs4.select ".item-list .item" soup.

Definition alternative_elements (soup : node) : list node :=
  bs4.or_list (bs4.select ".book-item" soup)
    (bs4.or_list (bs4.select ".manga-item" soup) (bs4.select ".item" soup)).

Definition manga_elements_of (soup : node) : list node :=
  match primary_elements soup with
  | [] => alternative_elements soup
  | _ :: _ => primary_elements soup
  end.

Definition extract_manga_list (url : string) : M (list dict) :=
  try_except
    (print [FS "Fetching manga list from: "; FS url];;
     html ← arun (PStr url);
     soup ← lift (BeautifulSoup env html);
     let manga_elements := manga_elements_of soup in
     match primary_elements soup with
     | [] => print [FS "Found "; FN (length manga_elements);
                    FS " manga items using alternative selector"]
     | _ :: _ => print [FS "Found "; FN (length manga_elements);
                        FS " manga items using primary selector"]
     end;;
     manga_items ← items_loop manga_elements [];
     print [FS "Successfully extracted "; FN (length manga_items);
            FS " manga items"];;
     mret manga_items)
    (λ e, print [FS "Error in extract_manga_list: "; FE e];;
          mret []).

(** *** [extract_manga_details] *)

Definition SYNOPSIS_SELECTOR : string :=
  "div.container div.detail-content div.story p.description".
Definition AUTHOR_SELECTOR : string :=
  "div.container div.detail-info div.author".
Definition GENRE_SELECTOR : string :=
  "div.container div.detail-info div.genres a".
Definition COVER_SELECTOR : string := "div.container div.thumb img".
Definition RATING_SELECTOR : string :=
  "div.container div.detail-info div.detail-info-right span.vote-avg strong".
Definition STATUS_SELECTOR : string :=
  "div.container div.detail-info .status span.value".

(** [if not manga_data["genres"]] *)
Definition no_genres (manga_data : dict) : res bool :=
  match getitem manga_data "genres" with
  | inr g => inr (negb (truthy g))
  | inl e => inl e
  end.

(** The loop over the broader selectors, leaving at the first match. *)
Fixpoint broader_genres (selectors : list string) (soup : node)
    (manga_data : dict) : dict :=
  match selectors with
  | [] => manga_data
  | selector :: rest =>
      match bs4.select selector soup with
      | [] => broader_genres rest soup manga_data
      | alt_genre_elements =>
          <["genres" := PList (bs4.stripped_texts alt_genre_elements)]> manga_data
      end
  end.

(** The [try] block after the document is parsed, one definition per
    commented block of the source. *)

(** "Extract synopsis if available" *)
Definition with_synopsis (soup : node) (manga_data : dict) : dict :=
  let synopsis_element := bs4.select_one SYNOPSIS_SELECTOR soup in
  <["synopsis" := PStr match synopsis_element with
                       | Some e => strip (bs4.text e)
                       | None => "Not available"
                       end]> manga_data.

(** "Extract author information" *)
Definition with_author (soup : node) (manga_data : dict) : dict :=
  let author_element := bs4.select_one AUTHOR_SELECTOR soup in
  match author_element with
  | Some ae =>
      let authors := bs4.select "a" ae in
      <["author" := PList match authors with
                          | [] => ["Unknown"]
                          | _ :: _ => bs4.stripped_texts authors
                          end]> manga_data
  | None => <["author" := PList ["Unknown"]]> manga_data
  end.

(** "Extract genre information - try multiple selectors", down to "Set
    empty array if no genres found" *)
Definition with_genres (soup : node) (manga_data : dict) : M dict :=
  let genre_elements := bs4.select GENRE_SELECTOR soup in
  let manga_data :=
    <["genres" := PList match genre_elements with
                        | [] => []
                        | _ :: _ => bs4.stripped_texts genre_elements
                        end]> manga_data in
  (* alternative selectors *)
  empty1 ← lift (no_genres manga_data);
  let manga_data :=
    if (empty1 : bool) then
      let alt_genre_elements :=
        bs4.or_list (bs4.select ".genres-content .genres-button" soup)
                    (bs4.select ".genres a" soup) in
      <["genres" := PList match alt_genre_elements with
                          | [] => []
                          | _ :: _ => bs4.stripped_texts alt_genre_elements
                          end]> manga_data
    else manga_data in
  (* broader selectors *)
  empty2 ← lift (no_genres manga_data);
  let manga_data :=
    if (empty2 : bool) then
      broader_genres [".info .genres a"; ".manga-info .genres a"; "[class*='genre']"]
        soup manga_data
    else manga_data in
  (* nothing found *)
  empty3 ← lift (no_genres manga_data);
  if (empty3 : bool) then
    let manga_data := <["genres" := PList []]> manga_data in
    title ← lift (getitem manga_data "title");
    print [FS "No genres found for "; FV title];;
    mret manga_data
  else mret manga_data.

(** "Extract cover image if available" *)
Definition with_cover_image (soup : node) (manga_data : dict) : dict :=
  let cover_element := bs4.select_one COVER_SELECTOR soup in
  match cover_element with
  | Some ce =>
      if bs4.has_attr "src" ce
      then <["cover_image" := attr (bs4.get "src" ce)]> manga_data
      else manga_data
  | None => manga_data
  end.

(** "Extract rating if available" *)
Definition with_rating (soup : node) (manga_data : dict) : M dict :=
  let rating_element := bs4.select_one RATING_SELECTOR soup in
  match rating_element with
  | Some re =>
      let rating_text := strip (bs4.text re) in
      match re_search_number rating_text with
      | Some group1 =>
          rating ← lift (py_float group1);
          mret (<["rating" := PFloat rating]> manga_data)
      | None => mret (<["rating" := PNone]> manga_data)
      end
  | None => mret (<["rating" := PNone]> manga_data)
  end.

(** "Try to extract status information" *)
Definition with_status (soup : node) (manga_data : dict) : dict :=
  let status_element :=
    bs4.or_tag (bs4.select_one STATUS_SELECTOR soup)
               (bs4.select_one ".manga-status" soup) in
  <["status" := PStr match status_element with
                     | Some e => strip (bs4.text e)
                     | None => "Unknown"
                     end]> manga_data.

Definition detail_fields (soup : node) (basic_info : dict) : M dict :=
  (* Use basic info as starting point *)
  let manga_data := basic_info in
  let manga_data := with_synopsis soup manga_data in
  let manga_data := with_author soup manga_data in
  manga_data ← with_genres soup manga_data;
  let manga_data := with_cover_image soup manga_data in
  manga_data ← with_rating soup manga_data;
  let manga_data := with_status soup manga_data in
  mret manga_data.

Definition extract_manga_details (url : pyval) (basic_info : dict) : M dict :=
  print [FS "Extracting details for: ";
         FV (default (PStr "Unknown") (basic_info !! "title"))];;
  try_except
    (html ← arun url;
     soup ← lift (BeautifulSoup env html);
     detail_fields soup basic_info)
    (λ e, print [FS "Error extracting details from "; FV url; FS ": "; FE e];;
          (* Return basic info with empty genres if detailed extraction fails *)
          let basic_info := <["genres" := PList []]> basic_info in
          mret basic_info).

(** *** [save_to_json] *)

Definition save_to_json (data : list dict) (filename : string) : M unit :=
  try_except
    (let dir := dirname env (abspath env filename) in
     call (Makedirs dir) (λ h, makedirs env h dir);;
     call (OpenW filename) (λ h, open_w env h filename);;
     content ← lift (json_dumps env (Some 2) false data);
     call (FileWrite filename content) (λ h, file_write env h filename content);;
     print [FS "Successfully saved "; FN (length data); FS " manga items to ";
            FS filename])
    (λ e, print [FS "Error saving data to "; FS filename; FS ": "; FE e]).

(** *** [main] *)

(** The loop [for i, manga in enumerate(tqdm(page_manga_list))]; [n] is
    [len(page_manga_list)].  The progress bar only wraps the iteration.
    Inside the [try] nothing raises once the record is appended, so the
    handler always appends to the list as it was before the iteration. *)
Fixpoint details_loop (n i : nat) (mangas : list dict)
    (page_manga_data : list dict) : M (list dict) :=
  match mangas with
  | [] => mret page_manga_data
  | manga :: rest =>
      page_manga_data' ← try_except
        (url ← lift (getitem manga "url");
         manga_data ← extract_manga_details url manga;
         let page_manga_data := page_manga_data ++ [manga_data] in
         (if (i <? n - 1)%nat then
            delay ← uniform (Q2Qc 2) (Q2Qc 4);
            sleep delay
          else mret tt);;
         mret page_manga_data)
        (λ e, print [FS "Error processing manga ";
                     FV (default (PStr "Unknown") (manga !! "title"));
                     FS ": "; FE e];;
              let manga := <["genres" := PList []]> manga in
              mret (page_manga_data ++ [manga]));
      details_loop n (S i) rest page_manga_data'
  end.

(** One iteration of [for page in range(595, MAX_PAGES + 1)]. *)
Definition process_page (page : nat) (manga_list : list dict) : M (list dict) :=
  let page_url := BASE_URL +:+ "/az-list?page=" +:+ pretty page in
  print [FS "
--- Processing page "; FN page; FS " ---"];;
  page_manga_list ← extract_manga_list page_url;
  filtered ← lift (filter_navigation_links (DList (IDict <$> page_manga_list)));
  let page_manga_list := dicts_of filtered in
  print [FS "Processing genres and details for page "; FN page; FS " (";
         FN (length page_manga_list); FS " mangas)..."];;
  page_manga_data ← details_loop (length page_manga_list) 0 page_manga_list [];
  let page_output_file := "manga_data_page" +:+ pretty page +:+ ".json" in
  save_to_json page_manga_data page_output_file;;
  let manga_list := manga_list ++ page_manga_data in
  (if (page <? MAX_PAGES)%nat then
     delay ← uniform (Q2Qc 3) (Q2Qc 6);
     print [FS "Waiting "; FQ delay; FS " seconds before next page..."];;
     sleep delay
   else mret tt);;
  mret manga_list.

Fixpoint pages_loop (pages : list nat) (manga_list : list dict) : M (list dict) :=
  match pages with
  | [] => mret manga_list
  | page :: rest =>
      manga_list' ← process_page page manga_list;
      pages_loop rest manga_list'
  end.

Definition main : M unit :=
  print [FS "Starting crawler with random user agent..."];;
  user_agent ← random_choice USER_AGENTS;
  call (NewCrawler user_agent) (λ h, new_crawler env h user_agent);;
  try_finally
    (manga_list ← pages_loop (seq FIRST_PAGE (MAX_PAGES + 1 - FIRST_PAGE)) [];
     manga_list ← lift (dedupe manga_list);
     print [FS "Found "; FN (length manga_list); FS " unique manga titles across ";
            FN MAX_PAGES; FS " pages"];;
     match manga_list with
     | _ :: _ =>
         save_to_json manga_list OUTPUT_FILE;;
         print [FS "Scraping completed!"]
     | [] =>
         print [FS "No manga data collected. Please check the site structure and try again."]
     end)
    (call CloseCrawler (λ _, inr tt)).

End scraper.

(** ** A small DOM

    A tree instance of the interface, for running the extractors on
    concrete pages.  It covers the selectors the module uses: compound
    selectors made of a tag name, classes and [[class*='..']], joined by
    the descendant combinator. *)

Module Dom.

#[local] Set Warnings "-register-all".
Inductive dom : Type :=
  | Elem (tag : string) (attrs : list (string * string)) (children : list dom)
  | Text (s : string).

(** What a selector looks at in an element. *)
Definition label : Type := string * list (string * string).

(** A tag of the tree with its ancestors, nearest first. *)
Record tag : Type := Tag { ancestors : list label; self : dom }.

Record compound : Type := Compound {
  c_tag : option string;
  c_classes : list string;
  c_class_sub : option string;
}.

Fixpoint split_on (sep : ascii) (s : string) : list string :=
  match s with
  | EmptyString => [EmptyString]
  | String c s' =>
      let r := split_on sep s' in
      if Ascii.eqb c sep then EmptyString :: r
      else match r with
           | w :: ws => String c w :: ws
           | [] => [String c EmptyString]
           end
  end.

Definition words (s : string) : list string :=
  filter (λ w, w ≠ EmptyString) (split_on " "%char s).

Fixpoint assoc (k : string) (l : list (string * string)) : option string :=
  match l with
  | [] => None
  | (k', v) :: l' => if String.eqb k k' then Some v else assoc k l'
  end.

(** [tag.cls1.cls2] or [[class*='sub']]. *)
Definition parse_compound (tok : string) : compound :=
  if String.prefix "[class*='" tok then
    Compound None []
      (Some (String.substring 9 (String.length tok - 11) tok))
  else
    match split_on "."%char tok with
    | t :: cls => Compound (if String.eqb t "" then None else Some t) cls None
    | [] => Compound None [] None
    end.

Definition parse_selector (sel : string) : list compound :=
  parse_compound <$> words sel.

Definition matches (c : compound) (e : label) : bool :=
  let class_attr := default "" (assoc "class" e.2) in
  match c_tag c with Some t => String.eqb t e.1 | None => true end
  && forallb (λ cl, bool_decide (cl ∈ words class_attr)) (c_classes c)
  && match c_class_sub c with Some sub => contains sub class_attr | None => true end.

(** The remaining compounds, innermost first, against the ancestors. *)
Fixpoint matches_up (anc : list label) (cs : list compound) : bool :=
  match cs with
  | [] => true
  | c :: cs' =>
      match anc with
      | [] => false
      | a :: anc' =>
          if matches c a then matches_up anc' cs' else matches_up anc' cs
      end
  end.

Definition matches_selector (sel : list compound) (t : tag) : bool :=
  match self t, rev sel with
  | Elem tg at_ _, c :: cs => matches c (tg, at_) && matches_up (ancestors t) cs
  | _, _ => false
  end.

(** The element descendants, in document order. *)
Fixpoint descendants (anc : list label) (d : dom) : list tag :=
  match d with
  | Text _ => []
  | Elem tg at_ children =>
      flat_map (λ c, match c with
                     | Elem _ _ _ => [Tag ((tg, at_) :: anc) c]
                     | Text _ => []
                     end ++ descendants ((tg, at_) :: anc) c) children
  end.

Fixpoint text_of (d : dom) : string :=
  match d with
  | Text s => s
  | Elem _ _ children => fold_right (λ c acc, text_of c +:+ acc) "" children
  end.

Definition is_named (name : string) (t : tag) : bool :=
  match self t with
  | Elem tg _ _ => String.eqb tg name
  | Text _ => false
  end.

#[global] Instance dom_soup : bs4.Soup tag := {|
  bs4.select sel t :=
    filter (λ d, matches_selector (parse_selector sel) d = true)
           (descendants (ancestors t) (self t));
  bs4.find name t :=
    head (filter (λ d, is_named name d = true)
                 (descendants (ancestors t) (self t)));
  bs4.text t := text_of (self t);
  bs4.get a t := match self t with
                 | Elem _ at_ _ => assoc a at_
                 | Text _ => None
                 end;
|}.

(** The [BeautifulSoup] object around the top-level nodes. *)
Definition document (children : list dom) : tag :=
  Tag [] (Elem "[document]" [] children).

(** A test environment: the web is a table from URL to document, the files
    can be written unless [disk_full], [random()] is constant. *)
Definition table_env (web : list (string * list dom)) (disk_full : bool)
    (rnd : Qc) : Env tag := {|
  new_crawler _ _ := inr tt;
  arun_html _ url :=
    match url with
    | PStr u =>
        match list_find (λ kv, String.prefix kv.1 u = true) web with
        | Some (_, (k, _)) => inr k
        | None => inl (LibError "net::ERR_CONNECTION_REFUSED")
        end
    | _ => inl (TypeError "url must be a string")
    end;
  BeautifulSoup html :=
    match list_find (λ kv, kv.1 = html) web with
    | Some (_, (_, d)) => inr (document d)
    | None => inl (TypeError "object of type 'NoneType' has no len()")
    end;
  random_random _ := rnd;
  random_below _ _ := 0;
  abspath f := "/data/" +:+ f;
  dirname _ := "/data";
  makedirs _ _ := inr tt;
  open_w _ _ :=
    if disk_full then inl (LibError "[Errno 28] No space left on device")
    else inr tt;
  json_dumps _ _ data := inr ("<" +:+ pretty (length data) +:+ " records>");
  file_write _ _ _ := inr tt;
|}.

End Dom.

(** * Combining JSON files ([combine_to_json.py]) *)

Module Combine.

#[local] Set Warnings "-register-all".
(** A JSON document as [json.load] returns it: an object is a [dict], an
    array a [list]. *)
Inductive json : Type :=
  | JNull
  | JBool (b : bool)
  | JNumber (literal : string)
  | JString (s : string)
  | JArray (items : list json)
  | JObject (members : gmap string json).

(** [combined_data]: [{}] or [[]] at the start, a [dict] or a [list]
    ever after. *)
Inductive combined : Type :=
  | CDict (members : gmap string json)
  | CList (items : list json).

(** [combined_data] as a JSON value, for [json.dump]. *)
Definition to_json (combined_data : combined) : json :=
  match combined_data with
  | CDict members => JObject members
  | CList items => JArray items
  end.

(** What [open(file_path, 'r')] and [json.load(f)] make of a file: the
    document, a [JSONDecodeError], or any other exception with its text. *)
Inductive read_result : Type :=
  | Parsed (data : json)
  | NotJson
  | Failed (msg : string).

(** The file system: [Path.is_dir], [Path.glob('*.json')] as the names of
    the files of the directory in the order [glob] yields them, reading and
    parsing one of them, and [open(output_file, 'w')] with [json.dump],
    which returns the text of the exception if one is raised. *)
Record Files : Type := {
  is_dir : string → bool;
  glob_json : string → list string;
  read_json : string → string → read_result;
  write_json : string → json → option string;
}.

(** What a call leaves behind: the value returned, the lines printed, and
    the value handed to [json.dump], if the call got that far. *)
Record outcome : Type := Outcome {
  returned : bool;
  lines : list (list frag);
  dumped : option json;
}.

(** [str(e)] for the [AttributeError] of [list.update]. *)
Definition NO_UPDATE : string := "'list' object has no attribute 'update'".

(** The body of the loop for one file: the [try] block and its two
    handlers. *)
Definition process (merge_dicts : bool) (combined_data : combined)
    (name : string) (r : read_result) : combined * list (list frag) :=
  match r with
  | Parsed data =>
      match merge_dicts, data with
      | true, JObject members =>
          (* combined_data.update(data) *)
          match combined_data with
          | CDict old => (CDict (members ∪ old), [[FS "Processed: "; FS name]])
          | CList _ =>
              (combined_data,
               [[FS "Error processing "; FS name; FS ": "; FS NO_UPDATE]])
          end
      | true, _ =>
          let items :=
            match combined_data with
            | CDict _ => [to_json combined_data]
            | CList items => items
            end in
          (CList (items ++ [data]),
           [[FS "Warning: "; FS name;
             FS " is not a dictionary, appending to list instead"];
            [FS "Processed: "; FS name]])
      | false, _ =>
          match combined_data with
          | CList items =>
              (CList (items ++ [data]), [[FS "Processed: "; FS name]])
          | CDict _ =>
              (combined_data,
               [[FS "Error processing "; FS name; FS ": ";
                 FS "'dict' object has no attribute 'append'"]])
          end
      end
  | NotJson =>
      (combined_data,
       [[FS "Error: Could not parse "; FS name; FS " as JSON. Skipping."]])
  | Failed msg =>
      (combined_data, [[FS "Error processing "; FS name; FS ": "; FS msg]])
  end.

(** [for file_path in json_files] *)
Fixpoint process_files (fs : Files) (input_dir : string) (merge_dicts : bool)
    (json_files : list string) (combined_data : combined)
    : combined * list (list frag) :=
  match json_files with
  | [] => (combined_data, [])
  | name :: rest =>
      let '(combined_data, printed1) :=
        process merge_dicts combined_data name (read_json fs input_dir name) in
      let '(combined_data, printed2) :=
        process_files fs input_dir merge_dicts rest combined_data in
      (combined_data, printed1 ++ printed2)
  end.

Definition combine_json_files (fs : Files) (input_dir output_file : string)
    (merge_dicts : bool) : outcome :=
  let combined_data := if negb merge_dicts then CList [] else CDict ∅ in
  if negb (is_dir fs input_dir) then
    Outcome false
      [[FS "Error: Input directory '"; FS input_dir; FS "' does not exist."]]
      None
  else
    let json_files := glob_json fs input_dir in
    match json_files with
    | [] => Outcome false [[FS "No JSON files found in '"; FS input_dir; FS "'"]] None
    | _ :: _ =>
        let found := [FS "Found "; FN (length json_files);
                      FS " JSON files to combine"] in
        let '(combined_data, printed) :=
          process_files fs input_dir merge_dicts json_files combined_data in
        match write_json fs output_file (to_json combined_data) with
        | None =>
            Outcome true
              (found :: printed ++
               [[FS "Successfully combined "; FN (length json_files);
                 FS " JSON files into "; FS output_file]])
              (Some (to_json combined_data))
        | Some msg =>
            Outcome false
              (found :: printed ++ [[FS "Error writing output file: "; FS msg]])
              (Some (to_json combined_data))
        end
    end.

End Combine.

(** ** Notions used in the statements *)

(** The genre selectors in the order [extract_manga_details] tries them. *)
Definition genre_chain : list string := [
  "div.container div.detail-info div.genres a";
  ".genres-content .genres-button"; ".genres a";
  ".info .genres a"; ".manga-info .genres a"; "[class*='genre']"
].

(** *** First-seen order *)

(** Position [i] of [records] holds the first record with its URL. *)
Definition first_of_url (records : list dict) (i : nat) : Prop :=
  ∃ r, records !! i = Some r
       ∧ ∀ j r', j < i → records !! j = Some r' → url_of r' ≠ url_of r.

(** Positions listed from left to right. *)
Definition increasing (idx : list nat) : Prop :=
  ∀ a b i j, idx !! a = Some i → idx !! b = Some j → a < b → i < j.

(** [out] is [records] cut down to the first record of every URL, in the
    order of the input: the records at the positions [first_of_url], taken
    from left to right. *)
Definition first_seen_order (records out : list dict) : Prop :=
  ∃ idx, increasing idx
         ∧ (∀ i, i ∈ idx ↔ first_of_url records i)
         ∧ Forall2 (λ i r, records !! i = Some r) idx out.

Section views.
Context {node : Type} `{bs4.Soup node} (env : Env node).

(** The document a fetch at history [h] leads to: the crawler's answer,
    parsed. *)
Definition fetched (h : list event) (url : pyval) : res node :=
  match arun_html env h url with
  | inr html => BeautifulSoup env html
  | inl e => inl e
  end.

(** The matches of the first selector of a chain that has any. *)
Fixpoint first_match (selectors : list string) (soup : node) : list node :=
  match selectors with
  | [] => []
  | sel :: rest =>
      match bs4.select sel soup with
      | [] => first_match rest soup
      | found => found
      end
  end.

End views.

(** The fetches and sleeps of a history, in order. *)
Definition is_pace (ev : event) : bool :=
  match ev with Arun _ | Sleep _ => true | _ => false end.

Definition pace (h : list event) : list event :=
  filter (λ ev, is_pace ev = true) h.

(** The lines printed in a history. *)
Definition printed (h : list event) : list (list frag) :=
  omap (λ ev, match ev with Printed msg => Some msg | _ => None end) h.

(** An entry the comprehension can test without raising: not a [dict], a
    [dict] without ["url"], or one whose ["url"] is a string. *)
Definition testable (it : item) : Prop :=
  match it with
  | IDict d => match d !! "url" with
               | Some (PStr _) | None => True
               | Some _ => False
               end
  | IOther _ => True
  end.

(** Whether an entry is a [dict] whose ["url"] is a string containing the
    listing segment. *)
Definition is_listing (it : item) : bool :=
  match it with
  | IDict d => match d !! "url" with
               | Some (PStr s) => contains "az-list" s
               | _ => false
               end
  | IOther _ => false
  end.


(** The list a computation returned, empty if it raised. *)
Definition returned {A : Type} (r : res (list A) * list event) : list A :=
  match r.1 with
  | inr l => l
  | inl _ => []
  end.

(** *** Decimal numbers in a text *)

Fixpoint all_digits (s : string) : bool :=
  match s with
  | String c s' => is_digit c && all_digits s'
  | EmptyString => true
  end.

Fixpoint has_digit (s : string) : bool :=
  match s with
  | String c s' => is_digit c || has_digit s'
  | EmptyString => false
  end.

Definition starts_with_digit (s : string) : bool :=
  match s with
  | String c _ => is_digit c
  | EmptyString => false
  end.

(** [digits] or [digits.digits*], with at least one digit in front. *)
Definition is_decimal (m : string) : Prop :=
  ∃ d1, all_digits d1 = true ∧ d1 ≠ "" ∧
        (m = d1 ∨ ∃ d2, all_digits d2 = true ∧ m = d1 +:+ "." +:+ d2).

Definition starts_with_dot (s : string) : bool :=
  match s with
  | String c _ => Ascii.eqb c "."
  | EmptyString => false
  end.

(** What the pattern [\d+\.?\d*] matches in front of [post]: all the digits
    there are, then the dot if one follows, then all the digits after it.
    Without a dot, [post] starts with neither a digit nor a dot; with one,
    [post] does not start with a digit. *)
Definition number_match (m post : string) : Prop :=
  ∃ d1, all_digits d1 = true ∧ d1 ≠ "" ∧
        ((m = d1 ∧ starts_with_digit post = false ∧ starts_with_dot post = false)
         ∨ ∃ d2, all_digits d2 = true ∧ m = d1 +:+ "." +:+ d2
                 ∧ starts_with_digit post = false).

(** [0 <= x] on floats. *)
Definition float_nonneg (x : pyfloat) : Prop :=
  match x with
  | Finite q => (Q2Qc 0 <= q)%Qc
  | Inf => True
  end.

(** The value stored under ["rating"] for a rating text: the first decimal
    number of the stripped text, or [None]. *)
Definition parse_rating (txt : string) : pyval :=
  match re_search_number (strip txt) with
  | Some group1 =>
      match py_float group1 with
      | inr q => PFloat q
      | inl _ => PNone
      end
  | None => PNone
  end.

Section record.
Context {node : Type} `{bs4.Soup node}.

(** The record [extract_manga_details] makes of a parsed document. *)
Definition record_of (soup : node) (basic_info : dict) : dict :=
  with_status soup
    (<["rating" := match bs4.select_one RATING_SELECTOR soup with
                   | Some e => parse_rating (bs4.text e)
                   | None => PNone
                   end]>
       (with_cover_image soup
          (<["genres" := PList (bs4.stripped_texts (first_match genre_chain soup))]>
             (with_author soup (with_synopsis soup basic_info))))).

End record.

(** The files written in a history. *)
Definition written (h : list event) : list (string * string) :=
  omap (λ ev, match ev with
              | FileWrite path content => Some (path, content)
              | _ => None
              end) h.

(** *** Pacing *)

(** [lo <= d <= hi] *)
Definition in_range (lo hi d : Qc) : Prop := (lo <= d)%Qc ∧ (d <= hi)%Qc.

(** The URL of a catalogue page, as [main] builds it. *)
Definition page_url (page : nat) : string :=
  BASE_URL +:+ "/az-list?page=" +:+ pretty page.

(** The detail fetches of one page with a delay between consecutive ones:
    none before the first fetch, none after the last. *)
Fixpoint item_pace (urls : list pyval) (delays : list Qc) : list event :=
  match urls with
  | [] => []
  | [u] => [Arun u]
  | u :: us =>
      match delays with
      | d :: ds => Arun u :: Sleep d :: item_pace us ds
      | [] => Arun u :: item_pace us []
      end
  end.

(** The fetches and sleeps of one page: the catalogue page, its items,
    and a last delay unless the page is [MAX_PAGES]. *)
Definition page_pace (page : nat) (urls : list pyval) (delays : list Qc)
    (page_delay : Qc) : list event :=
  Arun (PStr (page_url page)) :: item_pace urls delays
  ++ (if (page <? MAX_PAGES)%nat then [Sleep page_delay] else []).

(** A page paced as the code does it: a delay from [2, 4] between two
    consecutive detail fetches and a delay from [3, 6] after the page. *)
Definition paced_page (page : nat) (tr : list event) : Prop :=
  ∃ urls delays page_delay,
    tr = page_pace page urls delays page_delay
    ∧ length delays = length urls - 1
    ∧ Forall (in_range (Q2Qc 2) (Q2Qc 4)) delays
    ∧ in_range (Q2Qc 3) (Q2Qc 6) page_delay.

(** The URLs of a list of stubs. *)
Definition urls_of (mangas : list dict) : list pyval :=
  omap (λ m : dict, m !! "url") mangas.

(** A fetch or a sleep, with the delay as a plain fraction. *)
Definition pace_view (ev : event) : option (pyval + Q) :=
  match ev with
  | Arun u => Some (inl u)
  | Sleep d => Some (inr (this d))
  | _ => None
  end.

(** The URLs fetched and the delays slept in a history. *)
Definition fetches_of (h : list event) : list pyval :=
  omap (λ ev, match ev with Arun u => Some u | _ => None end) h.

Definition delays_of (h : list event) : list Q :=
  omap (λ ev, match ev with Sleep d => Some (this d) | _ => None end) h.

(** *** Shape of stubs and records *)

(** No whitespace at the start of a string. *)
Definition no_leading_space (s : string) : Prop :=
  match s with
  | String c _ => is_space c = false
  | EmptyString => True
  end.

(** A URL as [extract_manga_list] leaves it: [None] (no [href]), the empty
    string, or a string that starts with ["http"]. *)
Definition absolute_or_missing (v : pyval) : Prop :=
  match v with
  | PNone => True
  | PStr s => s = "" ∨ startswith "http" s = true
  | _ => False
  end.

(** The keys [extract_manga_details] writes. *)
Definition detail_keys : list string :=
  ["synopsis"; "author"; "genres"; "cover_image"; "rating"; "status"].

(** The selectors [extract_manga_details] queries on the document. *)
Definition detail_selectors : list string :=
  [SYNOPSIS_SELECTOR; AUTHOR_SELECTOR; COVER_SELECTOR; RATING_SELECTOR;
   STATUS_SELECTOR; ".manga-status"] ++ genre_chain.

(** A string [str.strip] leaves as it is. *)
Definition stripped (s : string) : Prop := strip s = s.

(** The line [extract_manga_details] prints when it gives up. *)
Definition details_error (url : pyval) (e : exn) : event :=
  Printed [FS "Error extracting details from "; FV url; FS ": "; FE e].

(** *** Records and events of a page *)

(** A record made from a stub: the fields other than the detail fields are
    those of the stub, and ["genres"] is a list. *)
Definition from_stub (stub d : dict) : Prop :=
  (∀ k, k ∉ detail_keys → d !! k = stub !! k)
  ∧ ∃ l, d !! "genres" = Some (PList l).

(** The line the loop of [main] prints when an iteration raises. *)
Definition is_processing_error (ev : event) : bool :=
  match ev with
  | Printed (FS s :: _) => String.eqb s "Error processing manga "
  | _ => false
  end.

(** The events of the crawler's life cycle. *)
Definition is_crawler_event (ev : event) : bool :=
  match ev with
  | NewCrawler _ | CloseCrawler => true
  | _ => false
  end.

(** Opening or writing the combined file [OUTPUT_FILE]. *)
Definition is_final_write (ev : event) : bool :=
  match ev with
  | OpenW path | FileWrite path _ => String.eqb path OUTPUT_FILE
  | _ => false
  end.

(** What a page is expected to do: anything but report a failed iteration,
    make a crawler or close it, or touch the combined file. *)
Definition page_event (ev : event) : Prop :=
  is_processing_error ev = false ∧ is_crawler_event ev = false
  ∧ is_final_write ev = false.

(** The file a page is saved to, as [main] names it. *)
Definition page_output_file (page : nat) : string :=
  "manga_data_page" +:+ pretty page +:+ ".json".

(** A record whose URL is a string outside the catalogue listing. *)
Definition item_url (m : dict) : Prop :=
  ∃ s, m !! "url" = Some (PStr s) ∧ contains "az-list" s = false.

(** The only error a page can raise: the membership test of the filter on
    a URL that is [None]. *)
Definition NONE_URL_ERROR : exn :=
  TypeError "argument of type 'NoneType' is not iterable".

(** A detail URL the run may fetch: a string outside the listing. *)
Definition detail_url (u : pyval) : Prop :=
  ∃ s, u = PStr s ∧ contains "az-list" s = false.



(** *** Combined documents *)

(** The documents among the results of reading a list of files. *)
Definition parsed_docs (rs : list Combine.read_result) : list Combine.json :=
  omap (λ r, match r with Combine.Parsed d => Some d | _ => None end) rs.

Definition is_object (d : Combine.json) : bool :=
  match d with Combine.JObject _ => true | _ => false end.

(** The objects among a list of documents. *)
Definition objects_of (docs : list Combine.json) : list (gmap string Combine.json) :=
  omap (λ d, match d with Combine.JObject m => Some m | _ => None end) docs.

(** Key [k] in the last of the objects that has it. *)
Fixpoint last_member (k : string) (objects : list (gmap string Combine.json))
    : option Combine.json :=
  match objects with
  | [] => None
  | m :: rest =>
      match last_member k rest with
      | Some v => Some v
      | None => m !! k
      end
  end.

(** The documents read from the files of a directory, in the order of
    [glob]. *)
Definition docs_in (fs : Combine.Files) (input_dir : string)
    (names : list string) : list Combine.json :=
  parsed_docs (Combine.read_json fs input_dir <$> names).

(** ** Sample data *)

(** Three records, the third repeating the URL of the first. *)
Definition sample_records : list dict := [
  <["title" := PStr "One Piece"]> (<["url" := PStr "https://mangareader.to/one-piece-3"]> ∅);
  <["title" := PStr "Naruto"]> (<["url" := PStr "https://mangareader.to/naruto-5"]> ∅);
  <["title" := PStr "One Piece (again)"]> (<["url" := PStr "https://mangareader.to/one-piece-3"]> ∅)
].

(** The same with the first record once more at the end, field by field
    the same. *)
Definition repeated_records : list dict := sample_records ++ take 1 sample_records.

Section samples.
Import Dom.

(** A catalogue page with three item nodes; the second has no anchor. *)
Definition three_items_page : list dom := [
  Elem "div" [("class", "item-list")] [
    Elem "div" [("class", "item")] [
      Elem "a" [("class", "manga-poster"); ("href", "/one-piece-3")]
        [Elem "img" [("src", "one-piece.jpg")] []];
      Elem "div" [("class", "manga-detail")] [
        Elem "h3" [("class", "manga-name")]
          [Elem "a" [("href", "/one-piece-3")] [Text " One Piece "]]]];
    Elem "div" [("class", "item")] [Elem "span" [] [Text "advertisement"]];
    Elem "div" [("class", "item")] [
      Elem "a" [("href", "https://mangareader.to/naruto-5")]
        [Text "Naruto"; Elem "img" [("data-src", "naruto.jpg")] []]]]
].

(** A catalogue page whose only item has an anchor without [href]. *)
Definition no_href_page : list dom := [
  Elem "div" [("class", "item")] [Elem "a" [("name", "top")] [Text "Back to top"]]
].

(** A page without item nodes. *)
Definition empty_page : list dom := [Elem "p" [] [Text "Nothing here"]].

Definition LIST_URL : string := "https://mangareader.to/az-list?page=595".

Definition three_items_env : Env tag :=
  table_env [("https://mangareader.to/az-list", three_items_page)] false (Q2Qc (1 # 2)).

Definition no_href_env : Env tag :=
  table_env [("https://mangareader.to/az-list", no_href_page)] false (Q2Qc (1 # 2)).

Definition empty_env : Env tag :=
  table_env [("https://mangareader.to/az-list", empty_page)] false (Q2Qc (1 # 2)).

(** The stub [extract_manga_list] makes of the anchor without [href]. *)
Definition no_href_stub : dict :=
  <["title" := PStr "Back to top"]> (<["url" := PNone]> (<["cover_url" := PNone]> ∅)).

(** The first stub of the three-item page. *)
Definition one_piece_stub : dict :=
  <["title" := PStr "One Piece"]>
    (<["url" := PStr "https://mangareader.to/one-piece-3"]>
       (<["cover_url" := PStr "one-piece.jpg"]> ∅)).

(** A detail page with the primary genre links and the given rating text,
    if any. *)
Definition rated_page (rating : option string) : list dom := [
  Elem "div" [("class", "container")] [
    Elem "div" [("class", "detail-info")] [
      Elem "div" [("class", "genres")] [
        Elem "a" [] [Text " Action "]; Elem "a" [] [Text "Adventure"]];
      Elem "div" [("class", "detail-info-right")]
        match rating with
        | Some txt =>
            [Elem "span" [("class", "vote-avg")] [Elem "strong" [] [Text txt]]]
        | None => []
        end]]
].

(** A detail page without synopsis, genres are found by the third selector
    of the chain only. *)
Definition fallback_page : list dom := [
  Elem "div" [("class", "container")] [
    Elem "ul" [("class", "genres")] [
      Elem "li" [] [Elem "a" [] [Text "Drama"]];
      Elem "li" [] [Elem "a" [] [Text " Slice of Life"]]];
    Elem "div" [("class", "detail-info")] [
      Elem "div" [("class", "detail-info-right")] [
        Elem "span" [("class", "vote-avg")]
          [Elem "strong" [] [Text "Rating: 7.2"]]]]]
].

(** A detail page with nothing the selectors look for. *)
Definition bare_page : list dom := [
  Elem "div" [("class", "container")] [Elem "h1" [] [Text "One Piece"]]
].

(** The web of the examples: the catalogue page and a few detail pages;
    every other URL fails to load. *)
Definition sample_env : Env tag :=
  table_env [
    ("https://mangareader.to/az-list", three_items_page);
    ("https://mangareader.to/one-piece-3", rated_page (Some "8.5/10"));
    ("https://mangareader.to/naruto-5", fallback_page);
    ("https://mangareader.to/nine", rated_page (Some "9"));
    ("https://mangareader.to/unrated", rated_page (Some "n/a"));
    ("https://mangareader.to/norating", rated_page None);
    ("https://mangareader.to/bare", bare_page)
  ] false (Q2Qc (1 # 2)).

(** A stub whose detail page does not load. *)
Definition GONE_URL : string := "https://mangareader.to/gone".
Definition gone_stub : dict :=
  <["title" := PStr "Gone"]> (<["url" := PStr GONE_URL]> (<["cover_url" := PNone]> ∅)).

(** The record the specification promises for it. *)
Definition gone_with_defaults : dict :=
  <["synopsis" := PStr "Not available"]> (<["author" := PList ["Unknown"]]>
    (<["genres" := PList []]> (<["rating" := PNone]>
      (<["status" := PStr "Unknown"]> gone_stub)))).

(** The same web with a full disk. *)
Definition full_disk_env : Env tag :=
  table_env [("https://mangareader.to/az-list", three_items_page)] true (Q2Qc (1 # 2)).

(** A catalogue with a single item on every page. *)
Definition one_item_page : list dom := [
  Elem "div" [("class", "item")] [Elem "a" [("href", "/solo-1")] [Text "Solo"]]
].

Definition one_item_env : Env tag :=
  table_env [
    ("https://mangareader.to/az-list", one_item_page);
    ("https://mangareader.to/solo-1", rated_page (Some "9"))
  ] false (Q2Qc (1 # 2)).

(** The sample catalogue with page 596 replaced by the page whose only
    item has an anchor without [href]. *)
Definition abort_env : Env tag :=
  table_env [
    ("https://mangareader.to/az-list?page=596", no_href_page);
    ("https://mangareader.to/az-list", three_items_page);
    ("https://mangareader.to/one-piece-3", rated_page (Some "8.5/10"));
    ("https://mangareader.to/naruto-5", fallback_page)
  ] false (Q2Qc (1 # 2)).

End samples.

(** A stub without a title, as a caller other than [main] may pass it. *)
Definition untitled_stub : dict :=
  <["url" := PStr "https://mangareader.to/bare"]> ∅.

(** Entries of three kinds: a link to the listing, an item stub, and
    something that is not a [dict]. *)
Definition mixed_entries : list item := [
  IDict (<["title" := PStr "Next"]>
           (<["url" := PStr "https://mangareader.to/az-list?page=2"]> ∅));
  IDict (<["title" := PStr "One Piece"]>
           (<["url" := PStr "https://mangareader.to/one-piece-3"]> ∅));
  IOther PNone
].

(** A directory of page files: two objects that share a key, a file that
    is not JSON, an array, and one more object. *)
Definition sample_files : Combine.Files := {|
  Combine.is_dir d := String.eqb d "pages";
  Combine.glob_json d :=
    if String.eqb d "pages"
    then ["a.json"; "bad.json"; "b.json"; "list.json"; "c.json"] else [];
  Combine.read_json d name :=
    if String.eqb name "a.json" then
      Combine.Parsed (Combine.JObject
        (<["x" := Combine.JNumber "1"]> (<["y" := Combine.JNumber "1"]> ∅)))
    else if String.eqb name "b.json" then
      Combine.Parsed (Combine.JObject (<["y" := Combine.JNumber "2"]> ∅))
    else if String.eqb name "c.json" then
      Combine.Parsed (Combine.JObject (<["z" := Combine.JNumber "3"]> ∅))
    else if String.eqb name "list.json" then
      Combine.Parsed (Combine.JArray [Combine.JString "One Piece"])
    else Combine.NotJson;
  Combine.write_json _ _ := None;
|}.

(** The same directory without the array and the object after it. *)
Definition object_files : Combine.Files := {|
  Combine.is_dir := Combine.is_dir sample_files;
  Combine.glob_json d := take 3 (Combine.glob_json sample_files d);
  Combine.read_json := Combine.read_json sample_files;
  Combine.write_json := Combine.write_json sample_files;
|}.

(** * Properties *)

(** ** String helpers on examples *)

Example strip_ex : strip "  8.5/10 
" = "8.5/10".
Proof. reflexivity. Qed.
Example search_ex1 : re_search_number "Rating: 7.2" = Some "7.2".
Proof. reflexivity. Qed.
Example search_ex2 : re_search_number "v1.2.3" = Some "1.2".
Proof. reflexivity. Qed.
Example search_ex3 : re_search_number "-3. stars" = Some "3.".
Proof. reflexivity. Qed.
Example search_ex4 : re_search_number "n/a" = None.
Proof. reflexivity. Qed.
Example float_ex1 : py_float "8.5" = inr (Finite (Q2Qc (17 # 2))).
Proof. vm_compute. do 2 f_equal; by apply Qc_is_canon. Qed.
Example contains_ex : contains "az-list" "https://mangareader.to/az-list?page=2" = true.
Proof. reflexivity. Qed.

(** ** Deduplication *)

Section dedupe_facts.
Implicit Types (l acc : list dict) (seen : gset pyval) (r : dict).

Lemma dedupe_loop_keep l : ∀ seen acc,
  Forall keyed l →
  dedupe_loop l seen acc = inr (acc ++ keep_unseen seen l).
Proof.
  induction l as [|m l IH]; intros seen acc Hk; simpl.
  - by rewrite app_nil_r.
  - apply Forall_cons in Hk as [(u & Hu & Hh) Hk].
    rewrite Hu Hh. case_decide; [by apply IH|].
    rewrite IH //. by rewrite -assoc.
Qed.

Lemma keep_unseen_sublist l : ∀ seen, keep_unseen seen l `sublist_of` l.
Proof.
  induction l as [|m l IH]; intros seen; simpl; [done|].
  destruct (m !! "url") as [u|]; [|apply sublist_nil_l].
  case_decide; [by apply sublist_cons|by apply sublist_skip].
Qed.

Lemma keep_unseen_fresh l : ∀ seen r u,
  r ∈ keep_unseen seen l → r !! "url" = Some u → u ∉ seen.
Proof.
  induction l as [|m l IH]; intros seen r u; simpl; [by intros ?%elem_of_nil|].
  destruct (m !! "url") as [v|] eqn:Hv; [|by intros ?%elem_of_nil].
  case_decide as Hin; [by apply IH|].
  intros [->|Hr]%elem_of_cons Hu.
  - by simplify_eq.
  - specialize (IH _ _ _ Hr Hu). set_solver.
Qed.

Lemma keep_unseen_keyed l seen : Forall keyed l → Forall keyed (keep_unseen seen l).
Proof.
  rewrite !Forall_forall. intros Hk r Hr. apply Hk.
  eapply elem_of_sublist; [done|apply keep_unseen_sublist].
Qed.

Lemma keep_unseen_NoDup l : ∀ seen,
  Forall keyed l → NoDup (url_of <$> keep_unseen seen l).
Proof.
  induction l as [|m l IH]; intros seen Hk; simpl; [constructor|].
  apply Forall_cons in Hk as [(u & Hu & _) Hk]. rewrite Hu.
  case_decide; [by apply IH|].
  rewrite fmap_cons. constructor; [|by apply IH].
  intros (r & Hr & Hin)%list_elem_of_fmap.
  unfold url_of in Hr. rewrite Hu in Hr.
  eapply keep_unseen_fresh in Hin; [|done]. set_solver.
Qed.

Lemma keep_unseen_covers l : ∀ seen r u,
  Forall keyed l → r ∈ l → r !! "url" = Some u → u ∉ seen →
  ∃ r', r' ∈ keep_unseen seen l ∧ r' !! "url" = Some u.
Proof.
  induction l as [|m l IH]; intros seen r u Hk Hr Hu Hn; [by apply elem_of_nil in Hr|].
  apply Forall_cons in Hk as [(v & Hv & _) Hk]. simpl. rewrite Hv.
  destruct (decide (v = u)) as [->|Hne].
  - rewrite decide_False //. exists m. split; [left|done].
  - apply elem_of_cons in Hr as [->|Hr]; [congruence|].
    case_decide.
    + by eapply IH.
    + destruct (IH ({[v]} ∪ seen) r u Hk Hr Hu) as (r' & Hr' & Hu').
      { apply not_elem_of_union. split; [|done].
        intros ?%elem_of_singleton. congruence. }
      exists r'. split; [by right|done].
Qed.

Lemma keep_unseen_first l : ∀ seen r',
  Forall keyed l → r' ∈ keep_unseen seen l →
  ∃ i, l !! i = Some r' ∧
       ∀ j r, j < i → l !! j = Some r → url_of r ≠ url_of r'.
Proof.
  induction l as [|m l IH]; intros seen r' Hk Hin; [by apply elem_of_nil in Hin|].
  apply Forall_cons in Hk as [(v & Hv & _) Hk]. simpl in Hin. rewrite Hv in Hin.
  case_decide as Hseen.
  - pose proof (λ u, keep_unseen_fresh _ _ _ u Hin) as Hfresh.
    destruct (IH _ _ Hk Hin) as (i & Hi & Hfirst).
    exists (S i). split; [done|]. intros [|j] r Hj Hr.
    + simpl in Hr. simplify_eq. unfold url_of. rewrite Hv. intros Heq.
      by apply (Hfresh v).
    + apply (Hfirst j); [lia|done].
  - apply elem_of_cons in Hin as [->|Hin].
    + exists 0. split; [done|]. intros j r Hj. lia.
    + pose proof (λ u, keep_unseen_fresh _ _ _ u Hin) as Hfresh.
      destruct (IH _ _ Hk Hin) as (i & Hi & Hfirst).
      exists (S i). split; [done|]. intros [|j] r Hj Hr.
      * simpl in Hr. simplify_eq. unfold url_of. rewrite Hv. intros Heq.
        apply (Hfresh v); [done|set_solver].
      * apply (Hfirst j); [lia|done].
Qed.

Lemma keep_unseen_fixed l : ∀ seen,
  Forall keyed l → NoDup (url_of <$> l) →
  (∀ r u, r ∈ l → r !! "url" = Some u → u ∉ seen) →
  keep_unseen seen l = l.
Proof.
  induction l as [|m l IH]; intros seen Hk Hnd Hfresh; [done|].
  apply Forall_cons in Hk as [(v & Hv & _) Hk].
  rewrite fmap_cons in Hnd. apply NoDup_cons in Hnd as [Hm Hnd].
  simpl. rewrite Hv. rewrite decide_False; [|apply (Hfresh m); [left|done]].
  f_equal. apply IH; [done..|]. intros r u Hr Hu.
  apply not_elem_of_union. split; [|apply (Hfresh r); [by right|done]].
  intros ->%elem_of_singleton. apply Hm, list_elem_of_fmap.
  exists r. split; [|done]. unfold url_of. congruence.
Qed.

Lemma increasing_nil : increasing [].
Proof. by intros a b i j ?. Qed.

Lemma increasing_shift (idx : list nat) : increasing idx → increasing (S <$> idx).
Proof.
  intros Hinc a b i j Ha Hb Hab.
  rewrite list_lookup_fmap in Ha. rewrite list_lookup_fmap in Hb.
  destruct (idx !! a) as [i'|] eqn:Hi; [|done].
  destruct (idx !! b) as [j'|] eqn:Hj; [|done].
  simpl in *. injection Ha as <-. injection Hb as <-.
  pose proof (Hinc a b i' j' Hi Hj Hab). lia.
Qed.

Lemma increasing_cons_0 (idx : list nat) :
  increasing idx → increasing (0 :: (S <$> idx)).
Proof.
  intros Hinc [|a] [|b] i j Ha Hb Hab; simpl in *; [lia| |lia|].
  - injection Ha as <-. rewrite list_lookup_fmap in Hb.
    destruct (idx !! b); [|done]. injection Hb as <-. lia.
  - eapply (increasing_shift idx Hinc a b); [done..|lia].
Qed.

Lemma increasing_tail (i : nat) (idx : list nat) :
  increasing (i :: idx) → increasing idx ∧ ∀ j, j ∈ idx → i < j.
Proof.
  intros Hinc. split.
  - intros a b x y Ha Hb Hab. apply (Hinc (S a) (S b)); [done..|lia].
  - intros j [b Hb]%list_elem_of_lookup. apply (Hinc 0 (S b)); [done..|lia].
Qed.

(** Two lists of positions taken from left to right that hold the same
    positions are the same list. *)
Lemma increasing_ext (idx1 : list nat) : ∀ idx2,
  increasing idx1 → increasing idx2 → (∀ i, i ∈ idx1 ↔ i ∈ idx2) → idx1 = idx2.
Proof.
  induction idx1 as [|a idx1 IH]; intros [|b idx2] H1 H2 Heq; [done| | |].
  - assert (b ∈ @nil nat) as Hb%elem_of_nil by (apply Heq; by left). done.
  - assert (a ∈ @nil nat) as Ha%elem_of_nil by (apply Heq; by left). done.
  - apply increasing_tail in H1 as [H1 Ha]. apply increasing_tail in H2 as [H2 Hb].
    assert (a = b) as ->.
    { assert (a ∈ b :: idx2) as [->|Ha2]%elem_of_cons by (apply Heq; by left);
        [done|].
      assert (b ∈ a :: idx1) as [->|Hb1]%elem_of_cons by (apply Heq; by left);
        [done|].
      apply Ha in Hb1. apply Hb in Ha2. lia. }
    f_equal. apply IH; [done..|]. intros i. split; intros Hi.
    + assert (i ∈ b :: idx2) as [->|?]%elem_of_cons by (apply Heq; by right);
        [|done].
      apply Ha in Hi. lia.
    + assert (i ∈ b :: idx1) as [->|?]%elem_of_cons by (apply Heq; by right);
        [|done].
      apply Hb in Hi. lia.
Qed.

(** The positions of the records the loop keeps: those of the records whose
    URL is neither in the set nor carried by an earlier record. *)
Lemma keep_unseen_positions l : ∀ seen,
  Forall keyed l →
  ∃ idx, increasing idx
    ∧ (∀ i, i ∈ idx ↔
            (∃ r u, l !! i = Some r ∧ r !! "url" = Some u ∧ (u ∉ seen)
                    ∧ (∀ j r', j < i → l !! j = Some r' → url_of r' ≠ Some u)))
    ∧ Forall2 (λ i r, l !! i = Some r) idx (keep_unseen seen l).
Proof.
  induction l as [|m l IH]; intros seen Hk.
  { exists []. split_and!; [apply increasing_nil| |constructor].
    intros i. split; [by intros ?%elem_of_nil|]. by intros (r & u & ? & _). }
  apply Forall_cons in Hk as [(u & Hu & Hh) Hk]. simpl. rewrite Hu.
  case_decide as Hseen.
  - destruct (IH seen Hk) as (idx & Hinc & Hiff & Hall).
    exists (S <$> idx). split_and!.
    + by apply increasing_shift.
    + intros i. rewrite list_elem_of_fmap. split.
      * intros (i' & -> & (r & u' & Hr & Hu' & Hfresh & Hfirst)%Hiff).
        exists r, u'. split_and!; [done..|].
        intros [|j] r' Hj Hr'; simpl in Hr'.
        -- injection Hr' as <-. unfold url_of. rewrite Hu. congruence.
        -- apply (Hfirst j); [lia|done].
      * intros (r & u' & Hr & Hu' & Hfresh & Hfirst).
        destruct i as [|i']; simpl in Hr; [congruence|].
        exists i'. split; [done|]. apply Hiff. exists r, u'.
        split_and!; [done..|]. intros j r' Hj Hr'.
        apply (Hfirst (S j)); [lia|done].
    + by apply Forall2_fmap_l.
  - destruct (IH ({[u]} ∪ seen) Hk) as (idx & Hinc & Hiff & Hall).
    exists (0 :: (S <$> idx)). split_and!.
    + by apply increasing_cons_0.
    + intros i. rewrite elem_of_cons list_elem_of_fmap. split.
      * intros [->|(i' & -> & (r & u' & Hr & Hu' & Hfresh & Hfirst)%Hiff)].
        { exists m, u. split_and!; [done..|]. intros j r' Hj. lia. }
        apply not_elem_of_union in Hfresh as [Hne%not_elem_of_singleton Hfresh].
        exists r, u'. split_and!; [done..|].
        intros [|j] r' Hj Hr'; simpl in Hr'.
        -- injection Hr' as <-. unfold url_of. rewrite Hu. congruence.
        -- apply (Hfirst j); [lia|done].
      * intros (r & u' & Hr & Hu' & Hfresh & Hfirst).
        destruct i as [|i']; [by left|]. right. simpl in Hr.
        exists i'. split; [done|]. apply Hiff. exists r, u'.
        split_and!; [done..| |].
        -- apply not_elem_of_union. split; [|done].
           apply not_elem_of_singleton. intros ->.
           apply (Hfirst 0 m); [lia|done|done].
        -- intros j r' Hj Hr'. apply (Hfirst (S j)); [lia|done].
    + constructor; [done|]. by apply Forall2_fmap_l.
Qed.

(** On item records the loop returns its input in first-seen order. *)
Lemma keep_unseen_first_seen l :
  Forall keyed l → first_seen_order l (keep_unseen ∅ l).
Proof.
  intros Hk. destruct (keep_unseen_positions l ∅ Hk) as (idx & Hinc & Hiff & Hall).
  exists idx. split_and!; [done| |done].
  intros i. rewrite Hiff. split.
  - intros (r & u & Hr & Hu & _ & Hfirst). exists r. split; [done|].
    unfold url_of at 2. by rewrite Hu.
  - intros (r & Hr & Hfirst).
    assert (r ∈ l) as Hin by (by eapply list_elem_of_lookup_2).
    pose proof (proj1 (Forall_forall _ _) Hk r Hin) as (u & Hu & _).
    exists r, u. split_and!; [done..|apply not_elem_of_empty|].
    unfold url_of at 2 in Hfirst. by rewrite Hu in Hfirst.
Qed.

(** First-seen order leaves no choice. *)
Lemma first_seen_order_unique l (out1 out2 : list dict) :
  first_seen_order l out1 → first_seen_order l out2 → out1 = out2.
Proof.
  intros (idx1 & Hinc1 & Hiff1 & Hall1) (idx2 & Hinc2 & Hiff2 & Hall2).
  assert (idx1 = idx2) as ->.
  { apply increasing_ext; [done..|]. intros i. by rewrite Hiff1 Hiff2. }
  clear Hinc1 Hinc2 Hiff1 Hiff2. revert out2 Hall2.
  induction Hall1 as [|i r idx out1 Hr _ IH]; intros out2 Hall2.
  - by apply Forall2_nil_inv_l in Hall2.
  - apply Forall2_cons_inv_l in Hall2 as (r' & out2' & Hr' & Hall2 & ->).
    f_equal; [congruence|by apply IH].
Qed.
End dedupe_facts.

(** On records that carry a hashable URL the loop returns, and what it
    returns is [keep_unseen]. *)
Lemma dedupe_keep (records : list dict) :
  Forall keyed records → dedupe records = inr (keep_unseen ∅ records).
Proof. intros Hk. unfold dedupe. by rewrite dedupe_loop_keep. Qed.

(** C1.  For every list of item records, the deduplication step returns a
    list in which no two records have the same URL, which is a subsequence
    of the input, and which holds, for every URL of the input, the first
    record carrying it, in first-seen order: the output is the input cut
    down to the positions that hold the first record of a URL, taken from
    left to right, and no other list is. *)
Theorem dedupe_unique_first_seen (records : list dict) :
  Forall keyed records →
  ∃ out, dedupe records = inr out
    ∧ NoDup (url_of <$> out)
    ∧ out `sublist_of` records
    ∧ (∀ r, r ∈ records → ∃ r', r' ∈ out ∧ url_of r' = url_of r)
    ∧ (∀ r', r' ∈ out →
         ∃ i, records !! i = Some r' ∧
              ∀ j r, j < i → records !! j = Some r → url_of r ≠ url_of r')
    ∧ first_seen_order records out
    ∧ (∀ out', first_seen_order records out' → out' = out).
Proof.
  intros Hk. exists (keep_unseen ∅ records).
  split; [by apply dedupe_keep|].
  split; [by apply keep_unseen_NoDup|].
  split; [apply keep_unseen_sublist|].
  split; [|split; [intros r'; by apply keep_unseen_first|]].
  - intros r Hr.
    pose proof (proj1 (Forall_forall _ _) Hk r Hr) as (u & Hu & _).
    destruct (keep_unseen_covers records ∅ r u Hk Hr Hu) as (r' & Hr' & Hu').
    { apply not_elem_of_empty. }
    exists r'. split; [done|]. unfold url_of. congruence.
  - split; [by apply keep_unseen_first_seen|].
    intros out' Hout'. eapply first_seen_order_unique; [done|].
    by apply keep_unseen_first_seen.
Qed.

Lemma sample_records_keyed : Forall keyed sample_records.
Proof. repeat constructor; eexists; (split; [reflexivity|reflexivity]). Defined.

Lemma repeated_records_keyed : Forall keyed repeated_records.
Proof. repeat constructor; eexists; (split; [reflexivity|reflexivity]). Defined.

(** On the sample with the first record repeated field by field, the only
    list in first-seen order is the first two records: the reversed list
    is not. *)
Lemma dedupe_unique_first_seen_witness :
  ∃ out, dedupe repeated_records = inr out
    ∧ NoDup (url_of <$> out)
    ∧ out `sublist_of` repeated_records
    ∧ (∀ r, r ∈ repeated_records → ∃ r', r' ∈ out ∧ url_of r' = url_of r)
    ∧ (∀ r', r' ∈ out →
         ∃ i, repeated_records !! i = Some r' ∧
              ∀ j r, j < i → repeated_records !! j = Some r → url_of r ≠ url_of r')
    ∧ first_seen_order repeated_records out
    ∧ (∀ out', first_seen_order repeated_records out' → out' = out).
Proof. apply (dedupe_unique_first_seen repeated_records), repeated_records_keyed. Defined.

Example dedupe_repeated : dedupe repeated_records = inr (take 2 sample_records).
Proof. vm_compute. reflexivity. Qed.

(** The reversed list passes for a subsequence, since the last record
    equals the first, but it is not in first-seen order. *)
Example reversed_not_first_seen :
  reverse (take 2 sample_records) `sublist_of` repeated_records
  ∧ ¬ first_seen_order repeated_records (reverse (take 2 sample_records)).
Proof.
  split.
  - vm_compute. apply sublist_cons, sublist_skip, sublist_cons.
    apply sublist_skip, sublist_nil.
  - intros Hrev.
    assert (reverse (take 2 sample_records) = take 2 sample_records) as Heq.
    { eapply first_seen_order_unique; [exact Hrev|].
      assert (take 2 sample_records = keep_unseen ∅ repeated_records) as ->
        by (vm_compute; reflexivity).
      apply keep_unseen_first_seen, repeated_records_keyed. }
    apply (f_equal (λ l, l !! 0 ≫= (.!! "title"))) in Heq.
    vm_compute in Heq. discriminate.
Qed.

Example dedupe_sample : dedupe sample_records = inr (take 2 sample_records).
Proof. vm_compute. reflexivity. Qed.

(** The loop only returns when every record carries a hashable URL. *)
Lemma dedupe_loop_returns (l : list dict) : ∀ seen acc out,
  dedupe_loop l seen acc = inr out → Forall keyed l.
Proof.
  induction l as [|m l IH]; intros seen acc out; simpl; [by constructor|].
  destruct (m !! "url") as [u|] eqn:Hu; [|done].
  destruct (hashable u) eqn:Hh; [|done].
  intros Hrun. constructor; [by exists u|].
  destruct (decide (u ∈ seen)); by eapply IH.
Qed.

(** C6.  Deduplication is idempotent: whenever the loop returns a list, it
    returns that list unchanged when run on it again; and it does return on
    every list of item records. *)
Theorem dedupe_idempotent (xs : list dict) :
  (Forall keyed xs → ∃ ys, dedupe xs = inr ys)
  ∧ (∀ ys, dedupe xs = inr ys → dedupe ys = inr ys).
Proof.
  split; [intros Hk; eexists; by apply dedupe_keep|].
  intros ys Hrun.
  assert (Forall keyed xs) as Hk by (by eapply dedupe_loop_returns).
  rewrite dedupe_keep // in Hrun. injection Hrun as <-.
  rewrite dedupe_keep; last by apply keep_unseen_keyed.
  f_equal. apply keep_unseen_fixed.
  - by apply keep_unseen_keyed.
  - by apply keep_unseen_NoDup.
  - intros r u _ _. apply not_elem_of_empty.
Qed.

Lemma dedupe_idempotent_witness :
  dedupe sample_records = inr (take 2 sample_records)
  ∧ dedupe (take 2 sample_records) = inr (take 2 sample_records).
Proof.
  assert (dedupe sample_records = inr (take 2 sample_records)) as Hrun
    by (vm_compute; reflexivity).
  split; [exact Hrun|].
  exact (proj2 (dedupe_idempotent sample_records) _ Hrun).
Defined.

(** ** The monad *)

Ltac munfold :=
  unfold mbind, M_bind, mret, M_ret, try_except, try_finally, lift, print,
    call, throw, arun, sleep, uniform, random_choice.

(** ** [filter_navigation_links] *)

(** On entries whose URL, if any, is a string, the function removes the
    entries with the listing segment and keeps the others in order. *)
Lemma filter_items_testable (l : list item) :
  Forall testable l →
  filter_items l = inr (filter (λ it, is_listing it = false) l).
Proof.
  induction 1 as [|it l Ht _ IH]; [done|].
  simpl. rewrite IH.
  destruct it as [d|v]; simpl in *; [|by rewrite filter_cons_True].
  destruct (d !! "url") as [[|s| |]|] eqn:Hu; try done; simpl.
  - destruct (contains "az-list" s) eqn:Hc.
    + by rewrite filter_cons_False /= ?Hu ?Hc.
    + by rewrite filter_cons_True /= ?Hu ?Hc.
  - by rewrite filter_cons_True /= ?Hu.
Qed.

Lemma filter_navigation_links_testable (l : list item) :
  Forall testable l →
  filter_navigation_links (DList l)
  = inr (DList (filter (λ it, is_listing it = false) l)).
Proof. intros Hl. simpl. by rewrite filter_items_testable. Qed.

(** Anything that is not a list is returned as it is. *)
Lemma filter_navigation_links_other (v : pyval) :
  filter_navigation_links (DOther v) = inr (DOther v).
Proof. reflexivity. Qed.

Example filter_sample :
  filter_navigation_links (DList [
    IDict (<["url" := PStr "https://mangareader.to/az-list?page=2"]> ∅);
    IDict (<["title" := PStr "no url"]> ∅);
    IOther (PStr "not a dict");
    IDict (<["url" := PStr "https://mangareader.to/naruto-5"]> ∅)])
  = inr (DList [
    IDict (<["title" := PStr "no url"]> ∅);
    IOther (PStr "not a dict");
    IDict (<["url" := PStr "https://mangareader.to/naruto-5"]> ∅)]).
Proof. vm_compute. reflexivity. Qed.

(** C5.  [filter_navigation_links] on a stub whose ["url"] is [None] -- the
    stub [extract_manga_list] emits for an anchor without [href] -- raises
    [TypeError] instead of passing the stub through; raised outside any
    [try] of [main], the error ends the run on its first page. *)
Theorem filter_navigation_links_none_url :
  (extract_manga_list no_href_env LIST_URL []).1 = inr [no_href_stub]
  ∧ filter_navigation_links (DList [IDict no_href_stub])
    = inl (TypeError "argument of type 'NoneType' is not iterable")
  ∧ (main no_href_env []).1
    = inl (TypeError "argument of type 'NoneType' is not iterable").
Proof. split; [|split]; vm_compute; reflexivity. Qed.

(** ** [extract_manga_list] *)

Section list_facts.
Context {node : Type} `{bs4.Soup node} (env : Env node).

Lemma items_loop_omap (elems : list node) : ∀ acc h,
  items_loop elems acc h = (inr (acc ++ omap item_stub elems), h).
Proof.
  induction elems as [|m elems IH]; intros acc h; simpl.
  - by rewrite app_nil_r.
  - munfold. simpl. rewrite IH. destruct (item_stub m); [|done].
    by rewrite -assoc.
Qed.

Lemma item_stub_link (m : node) : is_Some (item_stub m) ↔ is_Some (link_of m).
Proof.
  unfold item_stub. destruct (link_of m); split; intros [? ?]; by eauto.
Qed.

Lemma omap_item_stub_length (elems : list node) :
  length (omap item_stub elems)
  = length (filter (λ m, is_Some (link_of m)) elems).
Proof.
  induction elems as [|m elems IH]; [done|]. simpl.
  destruct (decide (is_Some (link_of m))) as [Hl|Hl].
  - rewrite filter_cons_True //. apply item_stub_link in Hl as [s ->].
    simpl. by rewrite IH.
  - rewrite filter_cons_False //.
    destruct (item_stub m) eqn:Hs; [|done].
    exfalso. apply Hl, item_stub_link. by eexists.
Qed.

(** What [extract_manga_list] returns and what it leaves in the history. *)
Lemma extract_manga_list_eq (url : string) (h : list event) :
  ∃ h', extract_manga_list env url h =
    (inr match fetched env (h ++ [Printed [FS "Fetching manga list from: "; FS url]])
                 (PStr url) with
         | inr soup => omap item_stub (manga_elements_of soup)
         | inl _ => []
         end, h').
Proof.
  unfold extract_manga_list, fetched. munfold. simpl.
  destruct (arun_html env _ _) as [e|html]; [by eexists|].
  destruct (BeautifulSoup env html) as [e|soup]; [by eexists|].
  destruct (primary_elements soup); rewrite items_loop_omap; by eexists.
Qed.

End list_facts.

Section list_claims.
Context {node : Type} `{bs4.Soup node} (env : Env node).

(** C7.  [extract_manga_list] never raises.  When the page cannot be
    fetched or parsed it returns the empty list; otherwise it returns one
    stub for each matched node that has a link element, in order, skipping
    the others: no matched node gives the empty list, and three matched
    nodes of which one lacks a link give two stubs. *)
Theorem extract_manga_list_never_fails (url : string) (h : list event) :
  ∃ stubs h',
    extract_manga_list env url h = (inr stubs, h')
    ∧ (∀ e, fetched env (h ++ [Printed [FS "Fetching manga list from: "; FS url]])
                    (PStr url) = inl e → stubs = [])
    ∧ (∀ soup, fetched env (h ++ [Printed [FS "Fetching manga list from: "; FS url]])
                       (PStr url) = inr soup →
         let elems := manga_elements_of soup in
         stubs = omap item_stub elems
         ∧ (elems = [] → stubs = [])
         ∧ length stubs = length (filter (λ m, is_Some (link_of m)) elems)
         ∧ (length elems = 3 →
            length (filter (λ m, ¬ is_Some (link_of m)) elems) = 1 →
            length stubs = 2)).
Proof.
  destruct (extract_manga_list_eq env url h) as [h' Heq].
  eexists _, h'. split; [exact Heq|]. split.
  - by intros e ->.
  - intros soup ->. cbv zeta.
    generalize (manga_elements_of soup) as elems. intros elems.
    split; [done|]. split; [by intros ->|].
    rewrite omap_item_stub_length. split; [done|].
    intros Hlen Hone.
    pose proof (Permutation_length
      (filter_app_complement (λ m, is_Some (link_of m)) elems)) as Hsum.
    rewrite length_app in Hsum. lia.
Qed.

(** C10.  A node with a link element has a title element, so the
    ["Unknown Title"] default is never taken for an emitted stub: the title
    of every stub is the stripped text of the element the fallback chain of
    its node ends on, which is one of the two title matches or the link
    element itself. *)
Theorem unknown_title_unreachable (url : string) (h h' : list event)
    (stubs : list dict) :
  extract_manga_list env url h = (inr stubs, h') →
  (∀ manga, is_Some (link_of manga) → is_Some (title_element_of manga))
  ∧ ∀ stub, stub ∈ stubs →
      ∃ soup manga link t,
        fetched env (h ++ [Printed [FS "Fetching manga list from: "; FS url]])
                (PStr url) = inr soup
        ∧ manga ∈ manga_elements_of soup
        ∧ link_of manga = Some link
        ∧ title_element_of manga = Some t
        ∧ Some t ∈ [bs4.select_one ".manga-detail h3.manga-name a" manga;
                    bs4.select_one ".detail h3 a" manga;
                    Some link]
        ∧ stub !! "title" = Some (PStr (strip (bs4.text t))).
Proof.
  intros Hrun. split.
  { intros manga [l Hl]. unfold title_element_of. rewrite Hl.
    destruct (bs4.select_one _ manga); [by eexists|].
    destruct (bs4.select_one _ manga); by eexists. }
  destruct (extract_manga_list_eq env url h) as [h'' Heq].
  rewrite Heq in Hrun. injection Hrun as <- _.
  intros stub Hin.
  destruct (fetched env _ _) as [e|soup]; [by apply elem_of_nil in Hin|].
  apply list_elem_of_omap in Hin as (manga & Hm & Hstub).
  exists soup, manga. unfold item_stub in Hstub.
  destruct (link_of manga) as [link|] eqn:Hl; [|done].
  exists link. unfold title_element_of in *. rewrite Hl in Hstub |- *.
  destruct (bs4.select_one ".manga-detail h3.manga-name a" manga) as [t1|] eqn:H1.
  { exists t1. simpl in *. injection Hstub as <-.
    split_and!; [done..|left|by rewrite lookup_insert_eq]. }
  destruct (bs4.select_one ".detail h3 a" manga) as [t2|] eqn:H2.
  { exists t2. simpl in *. injection Hstub as <-.
    split_and!; [done..|right; left|by rewrite lookup_insert_eq]. }
  exists link. simpl in *. injection Hstub as <-.
  split_and!; [done..|right; right; left|by rewrite lookup_insert_eq].
Qed.

End list_claims.

(** The three-item page gives two stubs, the page without item nodes and
    the page that cannot be fetched give none. *)
Lemma extract_manga_list_never_fails_witness :
  (∃ stubs h',
     extract_manga_list three_items_env LIST_URL [] = (inr stubs, h')
     ∧ length (manga_elements_of (Dom.document three_items_page)) = 3
     ∧ length stubs = 2)
  ∧ (∃ h', extract_manga_list empty_env LIST_URL [] = (inr [], h')
           ∧ manga_elements_of (Dom.document empty_page) = [])
  ∧ (∃ h', extract_manga_list empty_env "https://example.org/" [] = (inr [], h')).
Proof.
  split; [|split].
  - destruct (extract_manga_list_never_fails three_items_env LIST_URL [])
      as (stubs & h' & Hrun & _ & Hok).
    exists stubs, h'. split; [exact Hrun|]. split; [vm_compute; reflexivity|].
    destruct (Hok (Dom.document three_items_page)) as (_ & _ & _ & Hthree).
    { vm_compute; reflexivity. }
    apply Hthree; vm_compute; reflexivity.
  - destruct (extract_manga_list_never_fails empty_env LIST_URL [])
      as (stubs & h' & Hrun & _ & Hok).
    destruct (Hok (Dom.document empty_page)) as (_ & Hnone & _).
    { vm_compute; reflexivity. }
    exists h'. rewrite <- Hnone; [|vm_compute; reflexivity].
    split; [exact Hrun|vm_compute; reflexivity].
  - destruct (extract_manga_list_never_fails empty_env "https://example.org/" [])
      as (stubs & h' & Hrun & Hfail & _).
    exists h'. rewrite <- (Hfail (LibError "net::ERR_CONNECTION_REFUSED")).
    + exact Hrun.
    + vm_compute; reflexivity.
Defined.

Example three_items_titles :
  (λ d : dict, d !! "title") <$> returned (extract_manga_list three_items_env LIST_URL [])
  = [Some (PStr "One Piece"); Some (PStr "Naruto")].
Proof. vm_compute. reflexivity. Qed.

Example three_items_urls :
  (λ d : dict, (d !! "url", d !! "cover_url"))
    <$> returned (extract_manga_list three_items_env LIST_URL [])
  = [(Some (PStr "https://mangareader.to/one-piece-3"), Some (PStr "one-piece.jpg"));
     (Some (PStr "https://mangareader.to/naruto-5"), Some (PStr "naruto.jpg"))].
Proof. vm_compute. reflexivity. Qed.

Lemma unknown_title_unreachable_witness :
  ∃ stubs h',
    extract_manga_list three_items_env LIST_URL [] = (inr stubs, h')
    ∧ ∀ stub, stub ∈ stubs →
        ∃ t, stub !! "title" = Some (PStr (strip (bs4.text t))).
Proof.
  destruct (extract_manga_list_eq three_items_env LIST_URL []) as [h' Hrun].
  eexists _, h'. split; [exact Hrun|]. intros stub Hin.
  set (stubs := match fetched _ _ _ with inr _ => _ | inl _ => _ end) in *.
  destruct (unknown_title_unreachable three_items_env LIST_URL [] h' stubs Hrun)
    as [_ Htitle].
  destruct (Htitle stub Hin) as (_ & _ & _ & t & _ & _ & _ & _ & _ & Ht).
  exists t. exact Ht.
Defined.

(** ** The rating pattern *)

Section number_facts.
Implicit Types (s d r m : string) (c : ascii).

Lemma append_cons c s r : String c s +:+ r = String c (s +:+ r).
Proof. reflexivity. Qed.

Lemma append_empty_l s : "" +:+ s = s.
Proof. reflexivity. Qed.

Lemma append_empty_r s : s +:+ "" = s.
Proof. induction s as [|c s IH]; [done|]. by rewrite append_cons IH. Qed.

Lemma append_assoc s d r : (s +:+ d) +:+ r = s +:+ (d +:+ r).
Proof. induction s as [|c s IH]; [done|]. by rewrite !append_cons IH. Qed.

Lemma space_not_digit c : is_space c = true → is_digit c = false.
Proof. by destruct c as [[] [] [] [] [] [] [] []]. Qed.

Lemma span_digits_spec s :
  s = (span_digits s).1 +:+ (span_digits s).2
  ∧ all_digits (span_digits s).1 = true
  ∧ starts_with_digit (span_digits s).2 = false.
Proof.
  induction s as [|c s IH]; [done|]. simpl.
  destruct (is_digit c) eqn:Hc; simpl; [|by rewrite Hc].
  destruct (span_digits s) as [d r]. simpl in *.
  destruct IH as (-> & Hd & Hr). by rewrite Hc Hd.
Qed.

Lemma span_digits_app d r :
  all_digits d = true → starts_with_digit r = false →
  span_digits (d +:+ r) = (d, r).
Proof.
  induction d as [|c d IH]; simpl; intros Hd Hr.
  - destruct r as [|c r]; [done|]. simpl in *. by rewrite Hr.
  - apply andb_true_iff in Hd as [-> Hd]. by rewrite IH.
Qed.

Lemma span_digits_all d : all_digits d = true → span_digits d = (d, "").
Proof.
  intros Hd. rewrite -{1}(append_empty_r d). by apply span_digits_app.
Qed.


Lemma number_match_decimal m post : number_match m post → is_decimal m.
Proof.
  intros (d1 & Hd1 & Hne & [(-> & _ & _)|(d2 & Hd2 & -> & _)]).
  - exists d1. split_and!; [done..|by left].
  - exists d1. split_and!; [done..|right; by exists d2].
Qed.

Lemma match_number_here_spec s :
  starts_with_digit s = true →
  ∃ post, s = match_number_here s +:+ post
          ∧ number_match (match_number_here s) post.
Proof.
  intros Hs. unfold match_number_here.
  destruct (span_digits_spec s) as (Heq & Hd1 & Hr1).
  destruct (span_digits s) as [d1 r1]. simpl in *.
  assert (d1 ≠ "") as Hne.
  { intros ->. rewrite append_empty_l in Heq. subst r1. congruence. }
  assert (∀ post, s = d1 +:+ post → starts_with_digit post = false →
    starts_with_dot post = false →
    ∃ post, s = d1 +:+ post ∧ number_match d1 post) as Hplain.
  { intros post ? ? ?. exists post. split; [done|].
    exists d1. split_and!; [done..|by left]. }
  destruct r1 as [|c r2]; [by eapply Hplain|].
  destruct (decide (c = "."%char)) as [->|Hc]; last first.
  { destruct c as [[] [] [] [] [] [] [] []]; try (by eapply Hplain); done. }
  destruct (span_digits_spec r2) as (Heq2 & Hd2 & Hr2).
  destruct (span_digits r2) as [d2 r3]. simpl in *.
  exists r3. split; [|exists d1; split_and!; [done..|right; by exists d2]].
  by rewrite Heq {1}Heq2 !append_assoc.
Qed.

Lemma re_search_number_spec s m :
  re_search_number s = Some m →
  ∃ pre post, s = pre +:+ m +:+ post
    ∧ has_digit pre = false
    ∧ number_match m post.
Proof.
  induction s as [|c s IH]; [done|]. simpl.
  destruct (is_digit c) eqn:Hc.
  - intros [= <-].
    destruct (match_number_here_spec (String c s)) as (post & Heq & Hm);
      [done|].
    exists "", post. by split_and!.
  - intros (pre & post & -> & Hpre & Hm)%IH.
    exists (String c pre), post. simpl. rewrite Hc. by split_and!.
Qed.

(** The pattern matches nothing else: a match is what [re.search]
    returns. *)
Lemma match_number_here_match m post :
  number_match m post → match_number_here (m +:+ post) = m.
Proof.
  intros (d1 & Hd1 & Hne & [(-> & Hdigit & Hdot)|(d2 & Hd2 & -> & Hdigit)]);
    unfold match_number_here.
  - rewrite span_digits_app //.
    destruct post as [|c post]; [done|].
    by destruct c as [[] [] [] [] [] [] [] []].
  - rewrite append_assoc span_digits_app //.
    rewrite !append_cons append_empty_l. lazy beta iota.
    by rewrite span_digits_app.
Qed.

Lemma re_search_number_match pre m post :
  has_digit pre = false → number_match m post →
  re_search_number (pre +:+ m +:+ post) = Some m.
Proof.
  intros Hpre Hm. induction pre as [|c pre IH].
  - rewrite append_empty_l.
    rewrite -{2}(match_number_here_match m post Hm).
    destruct Hm as (d1 & Hd1 & Hne & Hm).
    assert (∃ c r, m +:+ post = String c r ∧ is_digit c = true)
      as (c & r & -> & Hc).
    { destruct d1 as [|c d1]; [done|]. simpl in Hd1.
      apply andb_true_iff in Hd1 as [Hc _].
      destruct Hm as [(-> & _)|(d2 & _ & -> & _)]; by eexists c, _. }
    simpl. by rewrite Hc.
  - simpl in Hpre. apply orb_false_iff in Hpre as [Hc Hpre].
    rewrite append_cons. simpl. rewrite Hc. by apply IH.
Qed.

Lemma re_search_number_None s :
  re_search_number s = None ↔ has_digit s = false.
Proof.
  induction s as [|c s IH]; [done|]. simpl.
  destruct (is_digit c); [done|]. by rewrite IH.
Qed.

Lemma has_digit_lstrip s : has_digit (lstrip s) = has_digit s.
Proof.
  induction s as [|c s IH]; [done|]. simpl.
  destruct (is_space c) eqn:Hc; [|done].
  by rewrite (space_not_digit c Hc).
Qed.

Lemma has_digit_rstrip s : has_digit (rstrip s) = has_digit s.
Proof.
  induction s as [|c s IH]; [done|]. simpl.
  destruct (rstrip s) as [|c' r] eqn:Hr.
  - rewrite -IH. simpl. destruct (is_space c) eqn:Hc; simpl.
    + by rewrite (space_not_digit c Hc).
    + by rewrite orb_false_r.
  - simpl in *. by rewrite IH.
Qed.

Lemma has_digit_strip s : has_digit (strip s) = has_digit s.
Proof. unfold strip. by rewrite has_digit_rstrip has_digit_lstrip. Qed.

Lemma Q2Qc_nonneg (z : Z) (p : positive) :
  (0 <= z)%Z → (Q2Qc 0 <= Q2Qc (z # p))%Qc.
Proof.
  intros Hz. unfold Qcle. simpl. rewrite !Qred_correct. unfold Qle. simpl. lia.
Qed.

Lemma scale2_sign (n d x : Z) :
  (0 <= n)%Z → (0 < d)%Z → (0 <= (scale2 n d x).1)%Z ∧ (0 < (scale2 n d x).2)%Z.
Proof.
  intros Hn Hd. unfold scale2. destruct (0 <=? x)%Z eqn:Hx; simpl.
  - apply Z.leb_le in Hx. split; [done|].
    apply Z.mul_pos_pos; [done|]. by apply Z.pow_pos_nonneg.
  - apply Z.leb_gt in Hx. split; [|done].
    apply Z.mul_nonneg_nonneg; [done|]. apply Z.pow_nonneg. lia.
Qed.

Lemma double_value_nonneg (m x : Z) :
  (0 <= m)%Z →
  float_nonneg
    (if ((971 <? x) || ((x =? 971) && (2 ^ 53 <=? m)))%Z then Inf
     else if (0 <=? x)%Z then Finite (Q2Qc (m * 2 ^ x # 1))
          else Finite (Q2Qc (m # Z.to_pos (2 ^ (- x))))).
Proof.
  intros Hm. destruct (_ || _)%bool; [done|].
  destruct (0 <=? x)%Z eqn:Hx; simpl; apply Q2Qc_nonneg; [|done].
  apply Z.leb_le in Hx. apply Z.mul_nonneg_nonneg; [done|].
  by apply Z.pow_nonneg.
Qed.

(** A rounded non-negative fraction is not negative. *)
Lemma nearest_double_nonneg (n : N) (d : positive) :
  float_nonneg (nearest_double n d).
Proof.
  unfold nearest_double. destruct (n =? 0)%N; [by apply Q2Qc_nonneg|].
  destruct (scale2 (Z.of_N n) (Z.pos d) _) as [a b].
  set (x := Z.max _ _).
  pose proof (scale2_sign (Z.of_N n) (Z.pos d) x) as [Hnum Hden]; [lia..|].
  destruct (scale2 (Z.of_N n) (Z.pos d) x) as [num den]. simpl in Hnum, Hden.
  assert (0 <= num / den)%Z as Hq by (by apply Z.div_pos).
  apply double_value_nonneg. case_match; lia.
Qed.

Lemma py_float_decimal m :
  is_decimal m → ∃ x, py_float m = inr x ∧ float_nonneg x.
Proof.
  intros (d1 & Hd1 & Hne & [->|(d2 & Hd2 & ->)]); unfold py_float.
  - rewrite span_digits_all //.
    destruct d1; [done|]. simpl. eexists. split; [done|apply nearest_double_nonneg].
  - change (d1 +:+ "." +:+ d2) with (d1 +:+ String "."%char d2).
    rewrite span_digits_app //. destruct d1; [done|]. cbn -[span_digits].
    rewrite span_digits_all //. cbn -[nearest_double digits_value pow10].
    eexists. split; [done|apply nearest_double_nonneg].
Qed.

End number_facts.

(** ** [extract_manga_details] *)

Section detail_facts.
Context {node : Type} `{bs4.Soup node} (env : Env node).
Implicit Types (soup : node) (md basic_info : dict) (h : list event).

Lemma no_genres_insert md (l : list string) :
  no_genres (<["genres" := PList l]> md) = inr (bool_decide (l = [])).
Proof.
  unfold no_genres, getitem. rewrite lookup_insert_eq. simpl.
  by rewrite negb_involutive.
Qed.

Lemma stripped_texts_cons (e : node) (es : list node) :
  bool_decide (bs4.stripped_texts (e :: es) = []) = false.
Proof. done. Qed.

Ltac genres_step :=
  rewrite ?insert_insert_eq ?no_genres_insert ?stripped_texts_cons /=.

(** What the genre block does: the texts of the first selector of the chain
    that matches; when none does, the empty list and a line in the log,
    for which the record needs its title. *)
Lemma with_genres_eq soup md h :
  with_genres soup md h =
    match first_match genre_chain soup with
    | [] =>
        match md !! "title" with
        | Some title =>
            (inr (<["genres" := PList []]> md),
             h ++ [Printed [FS "No genres found for "; FV title]])
        | None => (inl (KeyError "title"), h)
        end
    | found => (inr (<["genres" := PList (bs4.stripped_texts found)]> md), h)
    end.
Proof.
  unfold with_genres, genre_chain, GENRE_SELECTOR. munfold. simpl.
  destruct (bs4.select "div.container div.detail-info div.genres a" soup)
    as [|g1 gs1]; genres_step; [|done].
  destruct (bs4.select ".genres-content .genres-button" soup) as [|g2 gs2];
    genres_step; [|done].
  destruct (bs4.select ".genres a" soup) as [|g3 gs3]; genres_step; [|done].
  destruct (bs4.select ".info .genres a" soup) as [|g4 gs4]; genres_step; [|done].
  destruct (bs4.select ".manga-info .genres a" soup) as [|g5 gs5];
    genres_step; [|done].
  destruct (bs4.select "[class*='genre']" soup) as [|g6 gs6]; genres_step; [|done].
  unfold getitem. rewrite lookup_insert_ne //.
  by destruct (md !! "title").
Qed.

Lemma first_match_none (chain : list string) soup :
  (∀ sel, sel ∈ chain → bs4.select sel soup = []) →
  first_match chain soup = [].
Proof.
  induction chain as [|sel chain IH]; intros Hall; [done|]. simpl.
  rewrite Hall; [|by left]. apply IH. intros s Hs. apply Hall. by right.
Qed.

Lemma first_match_first (chain before after : list string) (sel : string) soup :
  chain = before ++ sel :: after →
  (∀ s, s ∈ before → bs4.select s soup = []) →
  bs4.select sel soup ≠ [] →
  first_match chain soup = bs4.select sel soup.
Proof.
  intros -> Hbefore Hsel.
  induction before as [|s before IH]; simpl.
  - by destruct (bs4.select sel soup).
  - rewrite Hbefore; [|by left]. apply IH. intros s' Hs'. apply Hbefore. by right.
Qed.

(** The rating block never raises: [float] accepts whatever the pattern
    matched. *)
Lemma with_rating_eq soup md h :
  with_rating soup md h =
    (inr (<["rating" := match bs4.select_one RATING_SELECTOR soup with
                        | Some e => parse_rating (bs4.text e)
                        | None => PNone
                        end]> md), h).
Proof.
  unfold with_rating, parse_rating. munfold.
  destruct (bs4.select_one RATING_SELECTOR soup) as [e|]; [|done].
  destruct (re_search_number (strip (bs4.text e))) as [m|] eqn:Hm; [|done].
  apply re_search_number_spec in Hm as (pre & post & _ & _ & Hdec).
  apply number_match_decimal in Hdec.
  by destruct (py_float_decimal m Hdec) as (x & -> & _).
Qed.

Lemma with_author_title soup md : with_author soup md !! "title" = md !! "title".
Proof.
  unfold with_author. destruct (bs4.select_one _ _); by rewrite lookup_insert_ne.
Qed.

Lemma with_synopsis_title soup md : with_synopsis soup md !! "title" = md !! "title".
Proof. unfold with_synopsis. by rewrite lookup_insert_ne. Qed.

Lemma detail_fields_eq soup basic_info h (title : pyval) :
  basic_info !! "title" = Some title →
  detail_fields soup basic_info h =
    (inr (record_of soup basic_info),
     h ++ match first_match genre_chain soup with
          | [] => [Printed [FS "No genres found for "; FV title]]
          | _ :: _ => []
          end).
Proof.
  intros Ht. unfold detail_fields, record_of.
  unfold mbind at 1, M_bind. rewrite with_genres_eq.
  rewrite with_author_title with_synopsis_title Ht.
  destruct (first_match genre_chain soup) as [|g gs].
  - unfold mbind, M_bind. rewrite with_rating_eq. done.
  - unfold mbind, M_bind. rewrite with_rating_eq app_nil_r. done.
Qed.

Lemma record_of_genres soup basic_info :
  record_of soup basic_info !! "genres"
  = Some (PList (bs4.stripped_texts (first_match genre_chain soup))).
Proof.
  unfold record_of, with_status, with_cover_image.
  rewrite lookup_insert_ne // lookup_insert_ne //.
  destruct (bs4.select_one COVER_SELECTOR soup) as [ce|];
    [destruct (bs4.has_attr "src" ce)|].
  - by rewrite lookup_insert_ne // lookup_insert_eq.
  - by rewrite lookup_insert_eq.
  - by rewrite lookup_insert_eq.
Qed.

Lemma record_of_rating soup basic_info :
  record_of soup basic_info !! "rating"
  = Some match bs4.select_one RATING_SELECTOR soup with
         | Some e => parse_rating (bs4.text e)
         | None => PNone
         end.
Proof.
  unfold record_of, with_status.
  by rewrite lookup_insert_ne // lookup_insert_eq.
Qed.

(** The two ways out of [extract_manga_details]. *)
Lemma extract_manga_details_ok (url : pyval) basic_info h soup (title : pyval) :
  let h1 := h ++ [Printed [FS "Extracting details for: "; FV title]] in
  basic_info !! "title" = Some title →
  fetched env h1 url = inr soup →
  extract_manga_details env url basic_info h =
    (inr (record_of soup basic_info),
     h1 ++ [Arun url] ++
       match first_match genre_chain soup with
       | [] => [Printed [FS "No genres found for "; FV title]]
       | _ :: _ => []
       end).
Proof.
  intros h1 Ht Hf. unfold extract_manga_details, fetched in *. munfold.
  rewrite Ht. simpl. fold h1.
  destruct (arun_html env h1 url) as [e|html]; [done|].
  rewrite Hf. erewrite detail_fields_eq; [|done]. by rewrite -assoc.
Qed.

Lemma extract_manga_details_failed (url : pyval) basic_info h (e : exn) :
  let h1 := h ++ [Printed [FS "Extracting details for: ";
                         FV (default (PStr "Unknown") (basic_info !! "title"))]] in
  fetched env h1 url = inl e →
  extract_manga_details env url basic_info h =
    (inr (<["genres" := PList []]> basic_info),
     h1 ++ [Arun url;
            Printed [FS "Error extracting details from "; FV url; FS ": "; FE e]]).
Proof.
  intros h1 Hf. unfold extract_manga_details, fetched in *. munfold.
  simpl. fold h1.
  destruct (arun_html env h1 url) as [e'|html].
  - injection Hf as ->. by rewrite -assoc.
  - rewrite Hf. by rewrite -assoc.
Qed.

End detail_facts.

Section rating_facts.

Lemma parse_rating_no_digit (txt : string) :
  has_digit txt = false → parse_rating txt = PNone.
Proof.
  intros Hd. unfold parse_rating.
  rewrite (proj2 (re_search_number_None (strip txt))) //.
  by rewrite has_digit_strip.
Qed.

(** With a digit in the text the value is the float of the one substring
    the pattern matches first. *)
Lemma parse_rating_digit (txt : string) :
  has_digit txt = true →
  ∃ pre m post x,
    strip txt = pre +:+ m +:+ post
    ∧ has_digit pre = false
    ∧ number_match m post
    ∧ (∀ pre' m' post',
         strip txt = pre' +:+ m' +:+ post' → has_digit pre' = false →
         number_match m' post' → m' = m)
    ∧ py_float m = inr x
    ∧ parse_rating txt = PFloat x.
Proof.
  intros Hd. unfold parse_rating.
  destruct (re_search_number (strip txt)) as [m|] eqn:Hm.
  - destruct (re_search_number_spec _ _ Hm) as (pre & post & Heq & Hpre & Hdec).
    destruct (py_float_decimal m (number_match_decimal _ _ Hdec)) as (x & Hx & _).
    exists pre, m, post, x. rewrite Hx. split_and!; [done..| |done|done].
    intros pre' m' post' Heq' Hpre' Hdec'.
    pose proof (re_search_number_match pre' m' post' Hpre' Hdec') as Hm'.
    rewrite -Heq' Hm in Hm'. by injection Hm'.
  - apply re_search_number_None in Hm. rewrite has_digit_strip in Hm. congruence.
Qed.

Lemma parse_rating_nonneg (txt : string) (x : pyfloat) :
  parse_rating txt = PFloat x → float_nonneg x.
Proof.
  unfold parse_rating.
  destruct (re_search_number (strip txt)) as [m|] eqn:Hm; [|done].
  apply re_search_number_spec in Hm as (pre & post & _ & _ & Hdec).
  apply number_match_decimal in Hdec.
  destruct (py_float_decimal m Hdec) as (x' & -> & Hx'). by intros [= <-].
Qed.

Example parse_rating_8_5 : parse_rating "8.5/10" = PFloat (Finite (Q2Qc (17 # 2))).
Proof. vm_compute. do 2 f_equal; by apply Qc_is_canon. Qed.

Example parse_rating_9 : parse_rating "9" = PFloat (Finite (Q2Qc 9)).
Proof. vm_compute. do 2 f_equal; by apply Qc_is_canon. Qed.

(** The match goes on across the dot: the rating of ["8.55"] is not 8, and
    the value is the double nearest to 8.55. *)
Example parse_rating_8_55 :
  parse_rating "8.55" = PFloat (Finite (Q2Qc (2406611050876109 # 281474976710656))).
Proof. vm_compute. do 2 f_equal; by apply Qc_is_canon. Qed.

Example number_match_not_8 : ¬ number_match "8" ".55".
Proof.
  intros (d1 & Hd1 & Hne & [(_ & _ & Hdot)|(d2 & _ & Heq & _)]); [done|].
  destruct d1 as [|c [|c' d1]]; [done| |]; by injection Heq.
Qed.

(** 7.2 is not a double: the rating is the double nearest to it. *)
Example parse_rating_7_2 :
  parse_rating "Rating: 7.2"
  = PFloat (Finite (Q2Qc (8106479329266893 # 1125899906842624))).
Proof. vm_compute. do 2 f_equal; by apply Qc_is_canon. Qed.

(** A number beyond the doubles is [inf]. *)
Example parse_rating_inf :
  parse_rating ("1" +:+ string_of_list_ascii (replicate 400 "0"%char)) = PFloat Inf.
Proof. vm_compute. reflexivity. Qed.

End rating_facts.

Section detail_claims.
Context {node : Type} `{bs4.Soup node} (env : Env node).

(** C2 (amended).  When the fetch or the parse of the detail document
    raises, [extract_manga_details] does not propagate the error: it logs
    it and returns the stub with ["genres"] set to the empty list and no
    other detail field added; the loop of [main] appends that record and
    goes on with the next stub. *)
Theorem details_failure_returns_stub (url : pyval) (manga : dict)
    (h : list event) (e : exn) :
  fetched env (h ++ [Printed [FS "Extracting details for: ";
                            FV (default (PStr "Unknown") (manga !! "title"))]])
          url = inl e →
  ∃ h',
    extract_manga_details env url manga h
      = (inr (<["genres" := PList []]> manga), h')
    ∧ [FS "Error extracting details from "; FV url; FS ": "; FE e] ∈ printed h'
    ∧ (∀ k, k ≠ "genres" → (<["genres" := PList []]> manga) !! k = manga !! k)
    ∧ (manga !! "url" = Some url →
       ∀ n i rest page_manga_data, ∃ h'',
         details_loop env n i (manga :: rest) page_manga_data h
         = details_loop env n (S i) rest
             (page_manga_data ++ [<["genres" := PList []]> manga]) h'').
Proof.
  intros Hf. eexists. split; [by apply extract_manga_details_failed|].
  split.
  { unfold printed. rewrite omap_app. simpl.
    apply elem_of_app. right. by left. }
  split; [intros k Hk; by rewrite lookup_insert_ne|].
  intros Hu n i rest acc. simpl. munfold. unfold getitem. rewrite Hu.
  rewrite (extract_manga_details_failed env url manga h e) //.
  destruct (i <? n - 1)%nat; by eexists.
Qed.

(** C3.  The rating of the record made from a detail document: [None] when
    the rating selector does not match or the element's text has no digit;
    otherwise the float of the first decimal number in the text, which is
    never negative.  The number is the one substring the pattern matches
    first: the digits from the first digit of the text on, the dot if one
    follows them and the digits after it; no other part of the text
    qualifies.  ["8.5/10"] gives 8.5 and ["9"] gives 9.0. *)
Theorem rating_extracted (url : pyval) (basic_info : dict) (h : list event)
    (soup : node) (title : pyval) :
  basic_info !! "title" = Some title →
  fetched env (h ++ [Printed [FS "Extracting details for: "; FV title]]) url
    = inr soup →
  ∃ d h' v,
    extract_manga_details env url basic_info h = (inr d, h')
    ∧ d !! "rating" = Some v
    ∧ (bs4.select_one RATING_SELECTOR soup = None → v = PNone)
    ∧ (∀ e, bs4.select_one RATING_SELECTOR soup = Some e →
         (has_digit (bs4.text e) = false → v = PNone)
         ∧ (has_digit (bs4.text e) = true →
            ∃ pre m post x,
              strip (bs4.text e) = pre +:+ m +:+ post
              ∧ has_digit pre = false
              ∧ number_match m post
              ∧ (∀ pre' m' post',
                   strip (bs4.text e) = pre' +:+ m' +:+ post' →
                   has_digit pre' = false →
                   number_match m' post' → m' = m)
              ∧ py_float m = inr x
              ∧ v = PFloat x)
         ∧ (bs4.text e = "8.5/10" → v = PFloat (Finite (Q2Qc (17 # 2))))
         ∧ (bs4.text e = "9" → v = PFloat (Finite (Q2Qc 9))))
    ∧ (∀ x, v = PFloat x → float_nonneg x).
Proof.
  intros Ht Hf. eexists _, _, _.
  split; [by eapply extract_manga_details_ok|].
  split; [apply record_of_rating|].
  destruct (bs4.select_one RATING_SELECTOR soup) as [e|].
  - split; [done|]. split; [|apply parse_rating_nonneg].
    intros ? [= <-]. split; [apply parse_rating_no_digit|].
    split; [apply parse_rating_digit|].
    split; intros ->; [apply parse_rating_8_5|apply parse_rating_9].
  - split; [done|]. split; [done|]. done.
Qed.

(** C4.  The genres of the record made from a detail document: when no
    selector of the chain matches, the empty list -- a list, not [None] --
    and a line in the log; otherwise the stripped texts of the matches of
    the first selector of the chain that has any. *)
Theorem genres_fallback (url : pyval) (basic_info : dict) (h : list event)
    (soup : node) (title : pyval) :
  basic_info !! "title" = Some title →
  fetched env (h ++ [Printed [FS "Extracting details for: "; FV title]]) url
    = inr soup →
  ∃ d new,
    extract_manga_details env url basic_info h = (inr d, h ++ new)
    ∧ (∃ l, d !! "genres" = Some (PList l))
    ∧ ((∀ sel, sel ∈ genre_chain → bs4.select sel soup = []) →
       d !! "genres" = Some (PList [])
       ∧ [FS "No genres found for "; FV title] ∈ printed new)
    ∧ (∀ before sel after,
         genre_chain = before ++ sel :: after →
         (∀ s, s ∈ before → bs4.select s soup = []) →
         bs4.select sel soup ≠ [] →
         d !! "genres" = Some (PList (bs4.stripped_texts (bs4.select sel soup)))
         ∧ [FS "No genres found for "; FV title] ∉ printed new).
Proof.
  intros Ht Hf. eexists _, _.
  split. { rewrite (extract_manga_details_ok env url basic_info h soup title) //.
           by rewrite -assoc. }
  split; [eexists; apply record_of_genres|]. split.
  - intros Hnone. rewrite record_of_genres first_match_none //.
    split; [done|]. simpl. right. left.
  - intros before sel after Hchain Hbefore Hsel.
    rewrite record_of_genres.
    rewrite (first_match_first genre_chain before after sel) //.
    split; [done|].
    destruct (bs4.select sel soup); [done|]. simpl.
    intros [Hin|Hin%elem_of_nil]%elem_of_cons; [done|done].
Qed.

End detail_claims.

(** C2, as stated, fails: for a detail page that does not load the record
    returned is the stub with ["genres"] only; synopsis, author, rating and
    status are not set. *)
Lemma details_failure_adds_no_defaults :
  let r := (extract_manga_details sample_env (PStr GONE_URL) gone_stub []).1 in
  fetched sample_env [Printed [FS "Extracting details for: "; FV (PStr "Gone")]]
          (PStr GONE_URL) = inl (LibError "net::ERR_CONNECTION_REFUSED")
  ∧ r = inr (<["genres" := PList []]> gone_stub)
  ∧ r ≠ inr gone_with_defaults
  ∧ (<["genres" := PList []]> gone_stub) !! "synopsis" = None
  ∧ (<["genres" := PList []]> gone_stub) !! "author" = None
  ∧ (<["genres" := PList []]> gone_stub) !! "rating" = None
  ∧ (<["genres" := PList []]> gone_stub) !! "status" = None.
Proof.
  split_and!; try (vm_compute; reflexivity).
  intros Heq.
  apply (f_equal (λ r : res dict,
           match r with inr d => d !! "synopsis" | inl _ => None end)) in Heq.
  vm_compute in Heq. discriminate Heq.
Qed.

Lemma details_failure_returns_stub_witness :
  fetched sample_env [Printed [FS "Extracting details for: "; FV (PStr "Gone")]]
          (PStr GONE_URL) = inl (LibError "net::ERR_CONNECTION_REFUSED")
  ∧ ∃ h',
      extract_manga_details sample_env (PStr GONE_URL) gone_stub []
        = (inr (<["genres" := PList []]> gone_stub), h')
      ∧ ∃ h'', details_loop sample_env 2 0 [gone_stub; one_piece_stub] [] []
               = details_loop sample_env 2 1 [one_piece_stub]
                   [<["genres" := PList []]> gone_stub] h''.
Proof.
  split; [vm_compute; reflexivity|].
  destruct (details_failure_returns_stub sample_env (PStr GONE_URL) gone_stub []
              (LibError "net::ERR_CONNECTION_REFUSED"))
    as (h' & Hrun & _ & _ & Hloop); [vm_compute; reflexivity|].
  exists h'. split; [exact Hrun|].
  apply (Hloop eq_refl 2 0 [one_piece_stub] []).
Defined.

(** The four cases of the rating on the sample pages. *)
Lemma rating_extracted_witness :
  (∃ d h', extract_manga_details sample_env
             (PStr "https://mangareader.to/one-piece-3") one_piece_stub []
           = (inr d, h')
           ∧ d !! "rating" = Some (PFloat (Finite (Q2Qc (17 # 2)))))
  ∧ (∃ d h', extract_manga_details sample_env
               (PStr "https://mangareader.to/nine") one_piece_stub []
             = (inr d, h')
             ∧ d !! "rating" = Some (PFloat (Finite (Q2Qc 9))))
  ∧ (∃ d h', extract_manga_details sample_env
               (PStr "https://mangareader.to/unrated") one_piece_stub []
             = (inr d, h')
             ∧ d !! "rating" = Some PNone)
  ∧ (∃ d h', extract_manga_details sample_env
               (PStr "https://mangareader.to/norating") one_piece_stub []
             = (inr d, h')
             ∧ d !! "rating" = Some PNone).
Proof.
  split_and!.
  - destruct (rating_extracted sample_env (PStr "https://mangareader.to/one-piece-3")
                one_piece_stub [] (Dom.document (rated_page (Some "8.5/10")))
                (PStr "One Piece"))
      as (d & h' & v & Hrun & Hv & _ & Hsome & _);
      [vm_compute; reflexivity..|].
    exists d, h'. split; [exact Hrun|]. rewrite Hv. f_equal.
    edestruct Hsome as (_ & _ & H85 & _); [reflexivity|].
    apply H85. reflexivity.
  - destruct (rating_extracted sample_env (PStr "https://mangareader.to/nine")
                one_piece_stub [] (Dom.document (rated_page (Some "9")))
                (PStr "One Piece"))
      as (d & h' & v & Hrun & Hv & _ & Hsome & _);
      [vm_compute; reflexivity..|].
    exists d, h'. split; [exact Hrun|]. rewrite Hv. f_equal.
    edestruct Hsome as (_ & _ & _ & H9); [reflexivity|].
    apply H9. reflexivity.
  - destruct (rating_extracted sample_env (PStr "https://mangareader.to/unrated")
                one_piece_stub [] (Dom.document (rated_page (Some "n/a")))
                (PStr "One Piece"))
      as (d & h' & v & Hrun & Hv & _ & Hsome & _);
      [vm_compute; reflexivity..|].
    exists d, h'. split; [exact Hrun|]. rewrite Hv. f_equal.
    edestruct Hsome as (Hnone & _); [reflexivity|].
    apply Hnone. reflexivity.
  - destruct (rating_extracted sample_env (PStr "https://mangareader.to/norating")
                one_piece_stub [] (Dom.document (rated_page None))
                (PStr "One Piece"))
      as (d & h' & v & Hrun & Hv & Hnone & _);
      [vm_compute; reflexivity..|].
    exists d, h'. split; [exact Hrun|]. rewrite Hv. f_equal.
    apply Hnone. reflexivity.
Defined.

(** A page without any genre, and a page whose genres only the third
    selector of the chain finds. *)
Lemma genres_fallback_witness :
  (∃ d new, extract_manga_details sample_env
              (PStr "https://mangareader.to/bare") one_piece_stub []
            = (inr d, new)
            ∧ d !! "genres" = Some (PList [])
            ∧ [FS "No genres found for "; FV (PStr "One Piece")] ∈ printed new)
  ∧ (∃ d new, extract_manga_details sample_env
                (PStr "https://mangareader.to/naruto-5") one_piece_stub []
              = (inr d, new)
              ∧ d !! "genres" = Some (PList ["Drama"; "Slice of Life"])).
Proof.
  split.
  - destruct (genres_fallback sample_env (PStr "https://mangareader.to/bare")
                one_piece_stub [] (Dom.document bare_page) (PStr "One Piece"))
      as (d & new & Hrun & _ & Hnone & _); [vm_compute; reflexivity..|].
    exists d, new. split; [exact Hrun|]. apply Hnone.
    intros sel Hsel. unfold genre_chain in Hsel.
    repeat (apply elem_of_cons in Hsel as [->|Hsel]; [vm_compute; reflexivity|]).
    by apply elem_of_nil in Hsel.
  - destruct (genres_fallback sample_env (PStr "https://mangareader.to/naruto-5")
                one_piece_stub [] (Dom.document fallback_page) (PStr "One Piece"))
      as (d & new & Hrun & _ & _ & Hfirst); [vm_compute; reflexivity..|].
    exists d, new. split; [exact Hrun|].
    destruct (Hfirst (take 2 genre_chain) ".genres a" (drop 3 genre_chain))
      as [Hg _]; [reflexivity| |vm_compute; discriminate|exact Hg].
    intros s Hs. simpl in Hs.
    repeat (apply elem_of_cons in Hs as [->|Hs]; [vm_compute; reflexivity|]).
    by apply elem_of_nil in Hs.
Defined.

(** A detail page without synopsis whose rating text is ["Rating: 7.2"]. *)
Example missing_synopsis_rating_7_2 :
  let r := extract_manga_details sample_env
             (PStr "https://mangareader.to/naruto-5") one_piece_stub [] in
  match r.1 with
  | inr d => d !! "synopsis" = Some (PStr "Not available")
             ∧ d !! "rating"
               = Some (PFloat (Finite (Q2Qc (8106479329266893 # 1125899906842624))))
             ∧ d !! "author" = Some (PList ["Unknown"])
             ∧ d !! "status" = Some (PStr "Unknown")
  | inl _ => False
  end.
Proof.
  erewrite extract_manga_details_ok; [|reflexivity|vm_compute; reflexivity].
  simpl. rewrite record_of_rating. split_and!; vm_compute; reflexivity.
Qed.

(** ** [save_to_json] *)

Section save_claims.
Context {node : Type} `{bs4.Soup node} (env : Env node).

(** C9 (amended).  [save_to_json] asks for the destination directory to be
    created, opens the file and writes the records as JSON with an indent
    of two and non-ASCII characters kept; it never raises, and it returns
    [None] whether or not the write succeeded: a failure is only printed.
    Whatever follows the call runs in both cases. *)
Theorem save_to_json_returns_none (data : list dict) (filename : string)
    (h : list event) :
  let dir := dirname env (abspath env filename) in
  let failed e := Printed [FS "Error saving data to "; FS filename; FS ": "; FE e] in
  ∃ new,
    save_to_json env data filename h = (inr tt, h ++ new)
    ∧ head new = Some (Makedirs dir)
    ∧ (∀ A (k : M A), (save_to_json env data filename ;; k) h = k (h ++ new))
    ∧ (∀ e, makedirs env h dir = inl e → new = [Makedirs dir; failed e])
    ∧ (makedirs env h dir = inr tt →
       (∀ e, open_w env (h ++ [Makedirs dir]) filename = inl e →
             new = [Makedirs dir; OpenW filename; failed e])
       ∧ (open_w env (h ++ [Makedirs dir]) filename = inr tt →
          (∀ e, json_dumps env (Some 2) false data = inl e →
                new = [Makedirs dir; OpenW filename; failed e])
          ∧ (∀ content, json_dumps env (Some 2) false data = inr content →
               (∀ e, file_write env (h ++ [Makedirs dir; OpenW filename])
                       filename content = inl e →
                     new = [Makedirs dir; OpenW filename;
                            FileWrite filename content; failed e])
               ∧ (file_write env (h ++ [Makedirs dir; OpenW filename])
                    filename content = inr tt →
                  new = [Makedirs dir; OpenW filename;
                         FileWrite filename content;
                         Printed [FS "Successfully saved "; FN (length data);
                                FS " manga items to "; FS filename]])))).
Proof.
  intros dir failed.
  assert (∃ new, save_to_json env data filename h = (inr tt, h ++ new)
    ∧ head new = Some (Makedirs dir)
    ∧ (∀ e, makedirs env h dir = inl e → new = [Makedirs dir; failed e])
    ∧ (makedirs env h dir = inr tt →
       (∀ e, open_w env (h ++ [Makedirs dir]) filename = inl e →
             new = [Makedirs dir; OpenW filename; failed e])
       ∧ (open_w env (h ++ [Makedirs dir]) filename = inr tt →
          (∀ e, json_dumps env (Some 2) false data = inl e →
                new = [Makedirs dir; OpenW filename; failed e])
          ∧ (∀ content, json_dumps env (Some 2) false data = inr content →
               (∀ e, file_write env (h ++ [Makedirs dir; OpenW filename])
                       filename content = inl e →
                     new = [Makedirs dir; OpenW filename;
                            FileWrite filename content; failed e])
               ∧ (file_write env (h ++ [Makedirs dir; OpenW filename])
                    filename content = inr tt →
                  new = [Makedirs dir; OpenW filename;
                         FileWrite filename content;
                         Printed [FS "Successfully saved "; FN (length data);
                                FS " manga items to "; FS filename]])))))
    as (new & Hrun & Hhead & Hcases).
  { unfold save_to_json. munfold. fold dir. simpl.
    destruct (makedirs env h dir) as [e1|[]] eqn:H1.
    { exists [Makedirs dir; failed e1]. rewrite -!assoc.
      split_and!; [done|done|intros; congruence|done]. }
    destruct (open_w env (h ++ [Makedirs dir]) filename) as [e2|[]] eqn:H2.
    { exists [Makedirs dir; OpenW filename; failed e2]. rewrite -!assoc.
      split_and!; [done|done|done|]. intros _.
      split; [intros; congruence|done]. }
    destruct (json_dumps env (Some 2) false data) as [e3|content] eqn:H3.
    { exists [Makedirs dir; OpenW filename; failed e3]. rewrite -!assoc.
      split_and!; [done|done|done|]. intros _. split; [done|]. intros _.
      split; [intros; congruence|done]. }
    replace ((h ++ [Makedirs dir]) ++ [OpenW filename])
      with (h ++ [Makedirs dir; OpenW filename]) by (by rewrite -assoc).
    destruct (file_write env (h ++ [Makedirs dir; OpenW filename]) filename content)
      as [e4|[]] eqn:H4.
    { exists [Makedirs dir; OpenW filename; FileWrite filename content; failed e4].
      rewrite -!assoc.
      split_and!; [done|done|done|]. intros _. split; [done|]. intros _.
      split; [done|]. intros ? [= <-].
      split; [intros; congruence|intros; congruence]. }
    eexists [Makedirs dir; OpenW filename; FileWrite filename content; _].
    rewrite -!assoc.
    split_and!; [done|done|done|]. intros _. split; [done|]. intros _.
    split; [done|]. intros ? [= <-]. split; [intros; congruence|done]. }
  exists new. split_and!; [done|done| |apply Hcases..].
  intros A k. unfold mbind, M_bind. by rewrite Hrun.
Qed.

End save_claims.

(** C9, as stated, fails: with the disk full nothing is written, yet the
    caller gets the same value as after a successful write. *)
Lemma save_to_json_reports_nothing :
  let ok := save_to_json sample_env [one_piece_stub] "out/manga.json" [] in
  let ko := save_to_json full_disk_env [one_piece_stub] "out/manga.json" [] in
  ok.1 = inr tt ∧ ko.1 = inr tt ∧ ok.1 = ko.1
  ∧ written ok.2 = [("out/manga.json", "<1 records>")]
  ∧ written ko.2 = []
  ∧ printed ko.2 = [[FS "Error saving data to "; FS "out/manga.json"; FS ": ";
                     FE (LibError "[Errno 28] No space left on device")]].
Proof. split_and!; vm_compute; reflexivity. Qed.

Lemma save_to_json_returns_none_witness :
  (∃ new, save_to_json sample_env [one_piece_stub] "out/manga.json" []
          = (inr tt, new)
          ∧ new = [Makedirs "/data"; OpenW "out/manga.json";
                   FileWrite "out/manga.json" "<1 records>";
                   Printed [FS "Successfully saved "; FN 1;
                          FS " manga items to "; FS "out/manga.json"]])
  ∧ (∃ new, save_to_json full_disk_env [one_piece_stub] "out/manga.json" []
            = (inr tt, new)
            ∧ new = [Makedirs "/data"; OpenW "out/manga.json";
                     Printed [FS "Error saving data to "; FS "out/manga.json";
                            FS ": ";
                            FE (LibError "[Errno 28] No space left on device")]]).
Proof.
  split.
  - destruct (save_to_json_returns_none sample_env [one_piece_stub]
                "out/manga.json" []) as (new & Hrun & _ & _ & _ & Hok).
    exists new. split; [exact Hrun|].
    destruct (Hok eq_refl) as [_ Hopen].
    destruct (Hopen eq_refl) as [_ Hdump].
    destruct (Hdump "<1 records>" eq_refl) as [_ Hwrite].
    exact (Hwrite eq_refl).
  - destruct (save_to_json_returns_none full_disk_env [one_piece_stub]
                "out/manga.json" []) as (new & Hrun & _ & _ & _ & Hok).
    exists new. split; [exact Hrun|].
    destruct (Hok eq_refl) as [Hopen _].
    exact (Hopen (LibError "[Errno 28] No space left on device") eq_refl).
Defined.

(** ** Pacing of a run *)

Section pace_facts.

Lemma pace_app (h1 h2 : list event) : pace (h1 ++ h2) = pace h1 ++ pace h2.
Proof. apply filter_app. Qed.

Lemma uniform_in_range (a b r : Qc) :
  (a <= b)%Qc → (Q2Qc 0 <= r)%Qc → (r < Q2Qc 1)%Qc →
  in_range a b (a + (b - a) * r).
Proof.
  unfold in_range, Qcle, Qclt, Qcplus, Qcminus, Qcmult, Qcopp. simpl.
  intros Hab H0 H1. rewrite !Qred_correct.
  destruct a as [a ?], b as [b ?], r as [r ?]. simpl in *.
  change (Qred 0) with 0%Q in H0. change (Qred 1) with 1%Q in H1.
  assert (0 <= (b + - a) * r)%Q as Hp by (apply Qmult_le_0_compat; lra).
  assert (0 <= (b + - a) * (1 - r))%Q as Hq by (apply Qmult_le_0_compat; lra).
  split; lra.
Qed.

Lemma item_pace_cons (u : pyval) (d : Qc) (us : list pyval) (ds : list Qc) :
  us ≠ [] → item_pace (u :: us) (d :: ds) = Arun u :: Sleep d :: item_pace us ds.
Proof. by destruct us. Qed.

End pace_facts.

Section pace_steps.
Context {node : Type} `{bs4.Soup node} (env : Env node).
Implicit Types (h new : list event) (m : dict).

Lemma detail_fields_pace (soup : node) (basic_info : dict) h :
  ∃ r new, detail_fields soup basic_info h = (r, h ++ new) ∧ pace new = [].
Proof.
  unfold detail_fields. unfold mbind at 1, M_bind. rewrite with_genres_eq.
  destruct (first_match genre_chain soup) as [|g gs].
  - destruct (_ !! "title") as [title|].
    + unfold mbind, M_bind. rewrite with_rating_eq. by eexists _, [_].
    + eexists _, []. by rewrite app_nil_r.
  - unfold mbind, M_bind. rewrite with_rating_eq.
    eexists _, []. by rewrite app_nil_r.
Qed.

(** A detail extraction returns, and fetches exactly once. *)
Lemma extract_manga_details_pace (url : pyval) m h :
  ∃ d new, extract_manga_details env url m h = (inr d, h ++ new)
           ∧ pace new = [Arun url].
Proof.
  unfold extract_manga_details. munfold. simpl.
  set (h1 := h ++ [Printed _]).
  destruct (arun_html env h1 url) as [e|html].
  { eexists _, [_; _; _]. by rewrite /h1 -!assoc. }
  destruct (BeautifulSoup env html) as [e|soup].
  { eexists _, [_; _; _]. by rewrite /h1 -!assoc. }
  destruct (detail_fields_pace soup m (h1 ++ [Arun url])) as (r & new & -> & Hp).
  destruct r as [e|d].
  - eexists _, ([_; _] ++ new ++ [_]). rewrite /h1 -!assoc. split; [done|].
    by rewrite !pace_app Hp.
  - eexists _, ([_; _] ++ new). rewrite /h1 -!assoc. split; [done|].
    by rewrite pace_app Hp.
Qed.

Lemma item_stub_url (manga : node) (stub : dict) :
  item_stub manga = Some stub → is_Some (stub !! "url").
Proof.
  unfold item_stub. destruct (link_of manga); [|done]. intros [= <-].
  by rewrite lookup_insert_ne // lookup_insert_eq.
Qed.

(** A list extraction returns stubs with a URL, and fetches exactly once. *)
Lemma extract_manga_list_pace (url : string) h :
  ∃ stubs new,
    extract_manga_list env url h = (inr stubs, h ++ new)
    ∧ pace new = [Arun (PStr url)]
    ∧ Forall (λ m : dict, is_Some (m !! "url")) stubs.
Proof.
  unfold extract_manga_list. munfold. simpl.
  destruct (arun_html env _ _) as [e|html].
  { eexists [], [_; _; _]. by rewrite -!assoc. }
  destruct (BeautifulSoup env html) as [e|soup].
  { eexists [], [_; _; _]. by rewrite -!assoc. }
  assert (Forall (λ m : dict, is_Some (m !! "url"))
            (omap item_stub (manga_elements_of soup))) as Hurls.
  { apply Forall_forall. intros stub (manga & _ & Hs)%list_elem_of_omap.
    by eapply item_stub_url. }
  destruct (primary_elements soup); rewrite items_loop_omap;
    eexists _, [_; _; _; _]; by rewrite -!assoc.
Qed.

(** Saving returns, and neither fetches nor sleeps. *)
Lemma save_to_json_pace (data : list dict) (filename : string) h :
  ∃ new, save_to_json env data filename h = (inr tt, h ++ new) ∧ pace new = [].
Proof.
  unfold save_to_json. munfold. simpl.
  destruct (makedirs env h _) as [e1|[]].
  { eexists [_; _]. by rewrite -!assoc. }
  destruct (open_w env _ filename) as [e2|[]].
  { eexists [_; _; _]. by rewrite -!assoc. }
  destruct (json_dumps env (Some 2) false data) as [e3|content].
  { eexists [_; _; _]. by rewrite -!assoc. }
  destruct (file_write env _ filename content) as [e4|[]].
  { eexists [_; _; _; _]. by rewrite -!assoc. }
  eexists [_; _; _; _]. by rewrite -!assoc.
Qed.

End pace_steps.

Section pace_loops.
Context {node : Type} `{bs4.Soup node} (env : Env node).
Hypothesis random_unit :
  ∀ h, (Q2Qc 0 <= random_random env h)%Qc ∧ (random_random env h < Q2Qc 1)%Qc.
Implicit Types (h new : list event) (m : dict).

Lemma filter_items_sublist (l kept : list item) :
  filter_items l = inr kept → kept `sublist_of` l.
Proof.
  revert kept. induction l as [|it l IH]; intros kept; simpl.
  - by intros [= <-].
  - destruct (is_navigation it) as [e|nav]; [done|].
    destruct (filter_items l) as [e|kept']; [done|].
    intros [= <-]. destruct nav.
    + by apply sublist_cons, IH.
    + by apply sublist_skip, IH.
Qed.

Lemma filtered_stubs_url (stubs : list dict) (x : pydata) :
  Forall (λ m : dict, is_Some (m !! "url")) stubs →
  filter_navigation_links (DList (IDict <$> stubs)) = inr x →
  Forall (λ m : dict, is_Some (m !! "url")) (dicts_of x).
Proof.
  intros Hurls. simpl.
  destruct (filter_items (IDict <$> stubs)) as [e|kept] eqn:Hf; [done|].
  intros [= <-]. apply filter_items_sublist in Hf.
  apply Forall_forall. intros m Hm. simpl in Hm.
  apply list_elem_of_omap in Hm as ([d|v] & Hin & Hd); [|done].
  injection Hd as ->.
  eapply elem_of_sublist in Hin; [|done].
  apply list_elem_of_fmap in Hin as (m' & [= ->] & Hin).
  by apply (proj1 (Forall_forall _ _) Hurls).
Qed.

(** The loop over the stubs of a page: one detail fetch per stub, a delay
    from [2, 4] after each but the last. *)
Lemma details_loop_pace (mangas : list dict) : ∀ i acc h,
  Forall (λ m : dict, is_Some (m !! "url")) mangas →
  ∃ data delays new,
    details_loop env (i + length mangas) i mangas acc h
      = (inr (acc ++ data), h ++ new)
    ∧ length delays = length mangas - 1
    ∧ Forall (in_range (Q2Qc 2) (Q2Qc 4)) delays
    ∧ pace new = item_pace (urls_of mangas) delays.
Proof.
  induction mangas as [|m rest IH]; intros i acc h Hurls.
  { exists [], [], []. by rewrite !app_nil_r. }
  apply Forall_cons in Hurls as [[u Hu] Hrest].
  simpl. munfold. unfold getitem. rewrite Hu.
  destruct (extract_manga_details_pace env u m h) as (d & new1 & -> & Hp1).
  destruct rest as [|m2 rest].
  - replace (i + S (length (@nil dict)) - 1) with i by (simpl; lia).
    rewrite Nat.ltb_irrefl. simpl.
    exists [d], [], new1. split_and!; [done|done|done|exact Hp1].
  - assert ((i <? i + S (length (m2 :: rest)) - 1)%nat = true) as ->
      by (apply Nat.ltb_lt; simpl; lia).
    replace (i + S (length (m2 :: rest))) with (S i + length (m2 :: rest))
      by (simpl; lia).
    cbn -[details_loop Nat.add length].
    set (delay := (Q2Qc 2 + (Q2Qc 4 - Q2Qc 2) * random_random env (h ++ new1))%Qc).
    destruct (IH (S i) (acc ++ [d]) ((h ++ new1) ++ [Sleep delay]) Hrest)
      as (data & delays & new2 & -> & Hlen & Hrange & Hp2).
    exists (d :: data), (delay :: delays), (new1 ++ [Sleep delay] ++ new2).
    split_and!.
    + by rewrite -!assoc.
    + simpl in *. lia.
    + constructor; [|done]. destruct (random_unit (h ++ new1)).
      by apply uniform_in_range.
    + rewrite !pace_app Hp1 Hp2.
      apply Forall_cons in Hrest as [[u2 Hu2] _].
      rewrite /urls_of /= Hu2. done.
Qed.

Lemma urls_of_length (mangas : list dict) :
  Forall (λ m : dict, is_Some (m !! "url")) mangas →
  length (urls_of mangas) = length mangas.
Proof.
  induction 1 as [|m l [u Hu] _ IH]; [done|].
  by rewrite /urls_of /= Hu /= -/(urls_of l) IH.
Qed.

(** One page: the catalogue fetch, the paced detail fetches, and the delay
    before the next page; or, when the filter raises, the catalogue fetch
    alone. *)
Lemma process_page_pace (page : nat) (acc : list dict) h :
  ∃ r new,
    process_page env page acc h = (r, h ++ new)
    ∧ match r with
      | inr _ => paced_page page (pace new)
      | inl _ => pace new = [Arun (PStr (page_url page))]
      end.
Proof.
  unfold process_page. munfold. lazy beta iota zeta.
  set (h1 := h ++ [Printed _]).
  destruct (extract_manga_list_pace env (page_url page) h1)
    as (stubs & new1 & Hlist & Hp1 & Hurls).
  unfold page_url in Hlist. rewrite Hlist. lazy beta iota zeta.
  destruct (filter_navigation_links (DList (IDict <$> stubs))) as [e|x] eqn:Hf.
  { eexists (inl e), ([_] ++ new1). rewrite /h1 -!assoc. split; [done|].
    by rewrite pace_app Hp1. }
  apply (filtered_stubs_url stubs x Hurls) in Hf.
  set (h2 := (h1 ++ new1) ++ [Printed _]).
  destruct (details_loop_pace (dicts_of x) 0 [] h2 Hf)
    as (data & delays & new2 & Hloop & Hlen & Hrange & Hp2).
  change (0 + length (dicts_of x)) with (length (dicts_of x)) in Hloop.
  rewrite Hloop. lazy beta iota zeta.
  destruct (save_to_json_pace env ([] ++ data)
              ("manga_data_page" +:+ pretty page +:+ ".json") (h2 ++ new2))
    as (new3 & Hsave & Hp3).
  rewrite Hsave. lazy beta iota zeta.
  set (h3 := (h2 ++ new2) ++ new3).
  destruct (page <? MAX_PAGES)%nat eqn:Hlast; munfold; lazy beta iota zeta.
  - pose proof (random_unit h3) as [Hr0 Hr1].
    set (r := random_random env h3) in *. clearbody r.
    eexists (inr _),
      (([_] ++ new1) ++ [_] ++ new2 ++ new3
       ++ [_; Sleep (Q2Qc 3 + (Q2Qc 6 - Q2Qc 3) * r)]).
    split; [rewrite /h3 /h2 /h1 -!assoc; reflexivity|].
    exists (urls_of (dicts_of x)), delays, (Q2Qc 3 + (Q2Qc 6 - Q2Qc 3) * r)%Qc.
    split_and!; [|by rewrite urls_of_length|done|by apply uniform_in_range].
    by rewrite /page_pace Hlast !pace_app Hp1 Hp2 Hp3.
  - eexists (inr _), (([_] ++ new1) ++ [_] ++ new2 ++ new3).
    split; [rewrite /h3 /h2 /h1 -!assoc; reflexivity|].
    exists (urls_of (dicts_of x)), delays, (Q2Qc 3).
    split_and!; [|by rewrite urls_of_length|done|split; by compute].
    by rewrite /page_pace Hlast !pace_app Hp1 Hp2 Hp3 /= !app_nil_r.
Qed.

(** The pages: one paced page after the other; when a page raises, the
    pages before it are paced and the page itself has fetched its
    catalogue page only. *)
Lemma pages_loop_pace (pages : list nat) : ∀ acc h,
  ∃ r new paces,
    pages_loop env pages acc h = (r, h ++ new)
    ∧ pace new = concat paces
    ∧ match r with
      | inr _ => Forall2 paced_page pages paces
      | inl _ =>
          ∃ done page paces_done,
            (done ++ [page]) `prefix_of` pages
            ∧ Forall2 paced_page done paces_done
            ∧ paces = paces_done ++ [[Arun (PStr (page_url page))]]
      end.
Proof.
  induction pages as [|page pages IH]; intros acc h.
  { exists (inr acc), [], []. rewrite app_nil_r. split_and!; [done..|].
    constructor. }
  simpl. unfold mbind, M_bind.
  destruct (process_page_pace page acc h) as (r1 & new1 & -> & Hpage).
  destruct r1 as [e|out1].
  - exists (inl e), new1, [pace new1]. rewrite /= app_nil_r.
    split_and!; [done..|]. exists [], page, []. rewrite Hpage.
    split_and!; [|constructor|done]. by exists pages.
  - destruct (IH out1 (h ++ new1)) as (r & new2 & paces & -> & Hp & Hall).
    exists r, (new1 ++ new2), (pace new1 :: paces).
    rewrite -!assoc pace_app Hp. split_and!; [done..|].
    destruct r as [e|out]; [|by constructor].
    destruct Hall as (done & page' & paces_done & Hpre & Hdone & ->).
    exists (page :: done), page', (pace new1 :: paces_done).
    split_and!; [|by constructor|done].
    by apply prefix_cons.
Qed.

End pace_loops.

Section pace_claim.
Context {node : Type} `{bs4.Soup node} (env : Env node).

(** C8 (amended).  Every page of a run is paced alike: the catalogue page
    is fetched, then the details of its items with a delay drawn from
    [2, 4] between two consecutive fetches -- none before the first item of
    a page, none after its last -- and, except after page [MAX_PAGES], a
    delay drawn from [3, 6] before the next page.  This holds of all the
    pages of a run that completes, and of the pages done before the end of
    a run that raises; the page on which a run raises has fetched its
    catalogue page and nothing else. *)
Theorem run_pacing (h : list event) :
  (∀ h', (Q2Qc 0 <= random_random env h')%Qc
         ∧ (random_random env h' < Q2Qc 1)%Qc) →
  ∃ r new paces,
    main env h = (r, h ++ new)
    ∧ pace new = concat paces
    ∧ (r = inr tt →
       Forall2 paced_page (seq FIRST_PAGE (MAX_PAGES + 1 - FIRST_PAGE)) paces)
    ∧ (∀ e, r = inl e →
         ∃ done paces_done,
           done `prefix_of` seq FIRST_PAGE (MAX_PAGES + 1 - FIRST_PAGE)
           ∧ Forall2 paced_page done paces_done
           ∧ (paces = paces_done
              ∨ ∃ page,
                  (done ++ [page]) `prefix_of`
                    seq FIRST_PAGE (MAX_PAGES + 1 - FIRST_PAGE)
                  ∧ paces = paces_done ++ [[Arun (PStr (page_url page))]])).
Proof.
  intros Hrand. unfold main. munfold. lazy beta iota zeta.
  set (h1 := h ++ [Printed _]).
  set (ua := default "" _).
  set (pages := seq FIRST_PAGE (MAX_PAGES + 1 - FIRST_PAGE)).
  destruct (new_crawler env h1 ua) as [e|[]].
  { eexists (inl e), [_; _], []. rewrite /h1 -!assoc. split_and!; [done..|].
    intros _ _. exists [], []. split_and!; [apply prefix_nil|constructor|by left]. }
  destruct (pages_loop_pace env Hrand pages [] (h1 ++ [NewCrawler ua]))
    as (r & new & paces & -> & Hp & Hall).
  destruct r as [e|manga_list].
  { eexists (inl e), ([_; _] ++ new ++ [_]), paces.
    rewrite /h1 -!assoc. split_and!; [done| |done|].
    { by rewrite !pace_app Hp /= app_nil_r. }
    intros _ _. destruct Hall as (done & page & paces_done & Hpre & Hdone & ->).
    exists done, paces_done. split_and!; [|done|right; by exists page].
    etrans; [|done]. by apply prefix_app_r. }
  assert (∃ done paces_done,
            done `prefix_of` pages ∧ Forall2 paced_page done paces_done
            ∧ (paces = paces_done
               ∨ ∃ page, (done ++ [page]) `prefix_of` pages
                         ∧ paces = paces_done ++ [[Arun (PStr (page_url page))]]))
    as Hdone.
  { exists pages, paces. by split_and!; [|done|left]. }
  destruct (dedupe manga_list) as [e|[|manga unique]].
  - eexists (inl e), ([_; _] ++ new ++ [_]), paces.
    rewrite /h1 -!assoc. split_and!; [done| |done|intros ? _; exact Hdone].
    by rewrite !pace_app Hp /= app_nil_r.
  - eexists (inr tt), ([_; _] ++ new ++ [_; _; _]), paces.
    rewrite /h1 -!assoc. split_and!; [done| |by eauto|done].
    by rewrite !pace_app Hp /= app_nil_r.
  - set (h2 := _ ++ [Printed [FS "Found "; _; _; _; _]]).
    destruct (save_to_json_pace env (manga :: unique) OUTPUT_FILE h2)
      as (new3 & -> & Hp3).
    eexists (inr tt), ([_; _] ++ new ++ [_] ++ new3 ++ [_; _]), paces.
    rewrite /h2 /h1 -!assoc. split_and!; [done| |by eauto|done].
    by rewrite !pace_app Hp Hp3 /= app_nil_r.
Qed.

End pace_claim.

(** C8, as stated, fails: with one item on every page the run fetches 116
    detail pages and sleeps 115 times, each time for the 4.5 seconds drawn
    before a page transition; the detail fetch of the second page follows
    the fetch of its catalogue page directly, and no delay from [2, 4] is
    issued anywhere. *)
Lemma first_item_of_later_page_not_delayed :
  let run := main one_item_env [] in
  let tr := omap pace_view run.2 in
  run.1 = inr tt
  ∧ take 5 tr = [inl (PStr "https://mangareader.to/az-list?page=595");
                 inl (PStr "https://mangareader.to/solo-1");
                 inr (9 # 2);
                 inl (PStr "https://mangareader.to/az-list?page=596");
                 inl (PStr "https://mangareader.to/solo-1")]
  ∧ length (filter (λ u, u = PStr "https://mangareader.to/solo-1")
                    (fetches_of run.2)) = 116
  ∧ delays_of run.2 = replicate 115 (9 # 2)
  ∧ ¬ in_range (Q2Qc 2) (Q2Qc 4) (Q2Qc (9 # 2)).
Proof.
  split_and!; try (vm_compute; reflexivity).
  intros [_ Hle]. by vm_compute in Hle.
Qed.

(** The run over the sample catalogue, two items a page, completes: on
    every page 3 seconds lie between the two detail fetches and, but for
    the last page, 4.5 seconds follow it.  With page 596 replaced by the
    page whose anchor has no [href] the run raises there: page 595 is
    paced, page 596 has fetched its catalogue page only. *)
Lemma run_pacing_witness :
  (∀ h', (Q2Qc 0 <= random_random sample_env h')%Qc
         ∧ (random_random sample_env h' < Q2Qc 1)%Qc)
  ∧ (∃ paces,
       (main sample_env []).1 = inr tt
       ∧ pace (main sample_env []).2 = concat paces
       ∧ Forall2 paced_page (seq FIRST_PAGE (MAX_PAGES + 1 - FIRST_PAGE)) paces
       ∧ delays_of (main sample_env []).2
         = concat (replicate 115 [3 # 1; 9 # 2]) ++ [3 # 1]
       ∧ in_range (Q2Qc 2) (Q2Qc 4) (Q2Qc 3))
  ∧ (∃ paces done paces_done,
       (main abort_env []).1 = inl NONE_URL_ERROR
       ∧ pace (main abort_env []).2 = concat paces
       ∧ done `prefix_of` seq FIRST_PAGE (MAX_PAGES + 1 - FIRST_PAGE)
       ∧ Forall2 paced_page done paces_done
       ∧ (paces = paces_done
          ∨ ∃ page,
              (done ++ [page]) `prefix_of`
                seq FIRST_PAGE (MAX_PAGES + 1 - FIRST_PAGE)
              ∧ paces = paces_done ++ [[Arun (PStr (page_url page))]])
       ∧ omap pace_view (main abort_env []).2
         = [inl (PStr "https://mangareader.to/az-list?page=595");
            inl (PStr "https://mangareader.to/one-piece-3");
            inr (3 # 1);
            inl (PStr "https://mangareader.to/naruto-5");
            inr (9 # 2);
            inl (PStr "https://mangareader.to/az-list?page=596")]).
Proof.
  assert (∀ env : Env Dom.tag, random_random env = (λ _, Q2Qc (1 # 2)) →
            ∀ h', (Q2Qc 0 <= random_random env h')%Qc
                  ∧ (random_random env h' < Q2Qc 1)%Qc) as Hrand.
  { intros env -> h'. split; by compute. }
  split; [by apply Hrand|]. split.
  - destruct (run_pacing sample_env [] (Hrand sample_env eq_refl))
      as (r & new & paces & Hrun & Hp & Hall & _).
    assert ((main sample_env []).1 = inr tt) as Hok by (vm_compute; reflexivity).
    assert (delays_of (main sample_env []).2
            = concat (replicate 115 [3 # 1; 9 # 2]) ++ [3 # 1]) as Hdelays
      by (vm_compute; reflexivity).
    assert (r = inr tt) as Hr by (rewrite Hrun in Hok; exact Hok).
    exists paces. split_and!; [exact Hok|by rewrite Hrun|by apply Hall
                              |exact Hdelays|split; by compute].
  - destruct (run_pacing abort_env [] (Hrand abort_env eq_refl))
      as (r & new & paces & Hrun & Hp & _ & Habort).
    assert ((main abort_env []).1 = inl NONE_URL_ERROR) as Hko
      by (vm_compute; reflexivity).
    assert (omap pace_view (main abort_env []).2
            = [inl (PStr "https://mangareader.to/az-list?page=595");
               inl (PStr "https://mangareader.to/one-piece-3");
               inr (3 # 1);
               inl (PStr "https://mangareader.to/naruto-5");
               inr (9 # 2);
               inl (PStr "https://mangareader.to/az-list?page=596")]) as Htr
      by (vm_compute; reflexivity).
    assert (r = inl NONE_URL_ERROR) as Hr by (rewrite Hrun in Hko; exact Hko).
    destruct (Habort _ Hr) as (done & paces_done & Hpre & Hdone & Hcases).
    exists paces, done, paces_done.
    split_and!; [exact Hko|by rewrite Hrun|done|done|done|exact Htr].
Defined.

(** Two pages of the sample catalogue, the second being the last: two
    items a page, a delay of 3 seconds between them, 4.5 seconds between
    the pages, nothing after page 710. *)
Example two_pages_pace :
  omap pace_view (pages_loop sample_env [709; 710] [] []).2
  = [inl (PStr "https://mangareader.to/az-list?page=709");
     inl (PStr "https://mangareader.to/one-piece-3");
     inr (3 # 1);
     inl (PStr "https://mangareader.to/naruto-5");
     inr (9 # 2);
     inl (PStr "https://mangareader.to/az-list?page=710");
     inl (PStr "https://mangareader.to/one-piece-3");
     inr (3 # 1);
     inl (PStr "https://mangareader.to/naruto-5")].
Proof. vm_compute. reflexivity. Qed.

(** * Further properties *)

(** Membership in a list that is written out. *)
Ltac in_list := simpl; repeat first [by left | right].

(** Look a key up below the entries inserted after it. *)
Ltac lookup_inserted :=
  repeat (rewrite lookup_insert_ne; last done); rewrite lookup_insert_eq.

(** ** Stripped texts *)

Section strip_facts.
Implicit Types (s : string) (c : ascii).

Lemma lstrip_no_leading_space s : no_leading_space (lstrip s).
Proof.
  induction s as [|c s IH]; [done|]. simpl.
  by destruct (is_space c) eqn:Hc.
Qed.

Lemma lstrip_fixed s : no_leading_space s → lstrip s = s.
Proof. destruct s as [|c s]; [done|]. simpl. by intros ->. Qed.

Lemma rstrip_no_leading_space s :
  no_leading_space s → no_leading_space (rstrip s).
Proof.
  destruct s as [|c s]; [done|]. simpl. intros Hc.
  destruct (rstrip s); by rewrite ?Hc.
Qed.

Lemma rstrip_idempotent s : rstrip (rstrip s) = rstrip s.
Proof.
  induction s as [|c s IH]; [done|]. simpl.
  destruct (rstrip s) as [|c' r] eqn:Hr.
  - destruct (is_space c) eqn:Hc; [done|]. simpl. by rewrite Hc.
  - simpl in *. by rewrite IH.
Qed.

(** [strip] leaves nothing to strip. *)
Lemma strip_idempotent s : strip (strip s) = strip s.
Proof.
  unfold strip. rewrite (lstrip_fixed (rstrip (lstrip s))).
  - apply rstrip_idempotent.
  - apply rstrip_no_leading_space, lstrip_no_leading_space.
Qed.

End strip_facts.

(** ** Stubs of [extract_manga_list] *)

Section stub_facts.
Context {node : Type} `{bs4.Soup node} (env : Env node).

Lemma returned_stubs (url : string) (h : list event) (stub : dict) :
  stub ∈ returned (extract_manga_list env url h) →
  ∃ manga, item_stub manga = Some stub.
Proof.
  destruct (extract_manga_list_eq env url h) as [h' ->].
  unfold returned. simpl.
  destruct (fetched _ _ _) as [e|soup]; [by intros ?%elem_of_nil|].
  intros (manga & _ & Hs)%list_elem_of_omap. by exists manga.
Qed.

Lemma item_stub_absolute (manga : node) (stub : dict) :
  item_stub manga = Some stub →
  ∃ u, stub !! "url" = Some u ∧ absolute_or_missing u.
Proof.
  unfold item_stub. destruct (link_of manga) as [link|]; [|done].
  intros [= <-]. rewrite lookup_insert_ne // lookup_insert_eq.
  eexists. split; [reflexivity|].
  destruct (bs4.get "href" link) as [href|]; [|done]. cbn [attr].
  destruct (startswith "http" href) eqn:Hp.
  - rewrite andb_false_r. by right.
  - destruct href as [|c href]; [by left|]. right. by vm_compute.
Qed.

Lemma item_stub_keys (manga : node) (stub : dict) :
  item_stub manga = Some stub →
  dom stub = ({["title"; "url"; "cover_url"]} : gset string)
  ∧ (∃ t, stub !! "title" = Some (PStr t) ∧ strip t = t)
  ∧ (∃ c, stub !! "cover_url" = Some c ∧ (c = PNone ∨ ∃ s, c = PStr s)).
Proof.
  unfold item_stub. destruct (link_of manga) as [link|]; [|done].
  intros [= <-]. split_and!.
  - rewrite !dom_insert_L dom_empty_L. set_solver.
  - rewrite lookup_insert_eq. eexists. split; [reflexivity|].
    destruct (title_element_of manga); [apply strip_idempotent|done].
  - do 2 (rewrite lookup_insert_ne; last done). rewrite lookup_insert_eq.
    eexists. split; [reflexivity|].
    destruct (bs4.select_one "img" link) as [img|]; [|by left].
    unfold py_or.
    destruct (bs4.get "src" img) as [s|], (bs4.get "data-src" img) as [s'|];
      cbn [attr]; try destruct (truthy _); eauto.
Qed.


(** X2.  Every stub [extract_manga_list] returns has exactly the keys
    ["title"], ["url"] and ["cover_url"]; its title is a string with no
    whitespace left to strip, its cover is a string or [None]. *)
Theorem extract_manga_list_stub_shape (url : string) (h : list event) :
  Forall (λ stub : dict,
            dom stub = ({["title"; "url"; "cover_url"]} : gset string)
            ∧ (∃ t, stub !! "title" = Some (PStr t) ∧ strip t = t)
            ∧ (∃ c, stub !! "cover_url" = Some c ∧ (c = PNone ∨ ∃ s, c = PStr s)))
         (returned (extract_manga_list env url h)).
Proof.
  apply Forall_forall. intros stub [manga Hs]%returned_stubs.
  by eapply item_stub_keys.
Qed.

End stub_facts.

(** ** Records of [extract_manga_details] *)

Section record_facts.
Context {node : Type} `{bs4.Soup node} (env : Env node).
Implicit Types (soup : node) (basic_info d : dict) (h : list event).

(** The fields the function does not write are those of the stub. *)
Lemma record_of_other soup basic_info (k : string) :
  k ∉ detail_keys → record_of soup basic_info !! k = basic_info !! k.
Proof.
  unfold detail_keys. rewrite !not_elem_of_cons.
  intros (? & ? & ? & ? & ? & ? & _).
  unfold record_of, with_status, with_cover_image, with_author, with_synopsis.
  destruct (bs4.select_one COVER_SELECTOR soup) as [ce|];
    [destruct (bs4.has_attr "src" ce)|];
    destruct (bs4.select_one AUTHOR_SELECTOR soup) as [ae|];
    by rewrite !lookup_insert_ne.
Qed.

Lemma stripped_texts_stripped (es : list node) :
  Forall stripped (bs4.stripped_texts es).
Proof.
  unfold bs4.stripped_texts. apply Forall_fmap, Forall_forall.
  intros e _. apply strip_idempotent.
Qed.

Lemma record_of_status soup basic_info :
  ∃ st, record_of soup basic_info !! "status" = Some (PStr st) ∧ stripped st.
Proof.
  unfold record_of, with_status. rewrite lookup_insert_eq.
  eexists. split; [reflexivity|].
  destruct (bs4.or_tag _ _); [apply strip_idempotent|done].
Qed.

Lemma record_of_synopsis soup basic_info :
  ∃ s, record_of soup basic_info !! "synopsis" = Some (PStr s) ∧ stripped s.
Proof.
  rewrite /record_of /with_status /with_cover_image /with_author /with_synopsis.
  exists (match bs4.select_one SYNOPSIS_SELECTOR soup with
          | Some e => strip (bs4.text e)
          | None => "Not available"
          end).
  split.
  - destruct (bs4.select_one COVER_SELECTOR soup) as [ce|];
      [destruct (bs4.has_attr "src" ce)|];
      destruct (bs4.select_one AUTHOR_SELECTOR soup) as [ae|];
      by lookup_inserted.
  - destruct (bs4.select_one SYNOPSIS_SELECTOR soup);
      [apply strip_idempotent|done].
Qed.

Lemma record_of_author soup basic_info :
  ∃ a, record_of soup basic_info !! "author" = Some (PList a)
       ∧ a ≠ [] ∧ Forall stripped a.
Proof.
  rewrite /record_of /with_status /with_cover_image /with_author.
  exists (match bs4.select_one AUTHOR_SELECTOR soup with
          | Some ae => match bs4.select "a" ae with
                       | [] => ["Unknown"]
                       | authors => bs4.stripped_texts authors
                       end
          | None => ["Unknown"]
          end).
  split; [|split].
  - destruct (bs4.select_one COVER_SELECTOR soup) as [ce|];
      [destruct (bs4.has_attr "src" ce)|];
      destruct (bs4.select_one AUTHOR_SELECTOR soup) as [ae|];
      lookup_inserted; try done;
      by destruct (bs4.select "a" ae).
  - destruct (bs4.select_one AUTHOR_SELECTOR soup) as [ae|]; [|done].
    by destruct (bs4.select "a" ae).
  - destruct (bs4.select_one AUTHOR_SELECTOR soup) as [ae|];
      [|by repeat constructor].
    destruct (bs4.select "a" ae) eqn:Ha; [by repeat constructor|].
    apply stripped_texts_stripped.
Qed.

Lemma parse_rating_cases (txt : string) :
  parse_rating txt = PNone ∨ ∃ x, parse_rating txt = PFloat x ∧ float_nonneg x.
Proof.
  destruct (parse_rating txt) as [|s|q|l] eqn:Hr; [by left| | |].
  - unfold parse_rating in Hr. repeat case_match; done.
  - right. exists q. split; [done|]. by eapply parse_rating_nonneg.
  - unfold parse_rating in Hr. repeat case_match; done.
Qed.

(** What the [try] block makes of a parsed document: the record, unless no
    genre is found and the line to print needs a title the stub lacks. *)
Lemma detail_fields_cases soup basic_info h :
  detail_fields soup basic_info h =
    match first_match genre_chain soup, basic_info !! "title" with
    | [], None => (inl (KeyError "title"), h)
    | [], Some title =>
        (inr (record_of soup basic_info),
         h ++ [Printed [FS "No genres found for "; FV title]])
    | _ :: _, _ => (inr (record_of soup basic_info), h)
    end.
Proof.
  unfold detail_fields, record_of.
  unfold mbind at 1, M_bind. rewrite with_genres_eq.
  rewrite with_author_title with_synopsis_title.
  destruct (first_match genre_chain soup) as [|g gs].
  - destruct (basic_info !! "title"); [|done].
    unfold mbind, M_bind. by rewrite with_rating_eq.
  - unfold mbind, M_bind. by rewrite with_rating_eq.
Qed.

(** The ways out of [extract_manga_details]: the record of the document,
    or the stub with empty genres after the line that reports the error. *)
Lemma extract_manga_details_cases (url : pyval) basic_info h :
  let h1 := h ++ [Printed [FS "Extracting details for: ";
                         FV (default (PStr "Unknown") (basic_info !! "title"))]] in
  (∃ soup log,
     fetched env h1 url = inr soup
     ∧ extract_manga_details env url basic_info h
       = (inr (record_of soup basic_info), h1 ++ Arun url :: log)
     ∧ (log = [] ∨ ∃ title, basic_info !! "title" = Some title
                            ∧ log = [Printed [FS "No genres found for "; FV title]]))
  ∨ (∃ e,
       extract_manga_details env url basic_info h
       = (inr (<["genres" := PList []]> basic_info),
          h1 ++ [Arun url; details_error url e])).
Proof.
  intros h1. unfold extract_manga_details, fetched, details_error. munfold.
  simpl. fold h1.
  destruct (arun_html env h1 url) as [e|html].
  { right. exists e. by rewrite -assoc. }
  destruct (BeautifulSoup env html) as [e|soup].
  { right. exists e. by rewrite -assoc. }
  rewrite detail_fields_cases.
  destruct (first_match genre_chain soup) as [|g gs].
  - destruct (basic_info !! "title") as [title|] eqn:Ht.
    + left. exists soup, [Printed [FS "No genres found for "; FV title]].
      split; [done|]. split; [by rewrite -!assoc|]. right. by exists title.
    + right. exists (KeyError "title"). by rewrite -assoc.
  - left. exists soup, []. split; [done|]. split; [by rewrite -assoc|by left].
Qed.

End record_facts.

Section record_claims.
Context {node : Type} `{bs4.Soup node} (env : Env node).
Implicit Types (soup : node) (basic_info d : dict) (h : list event).

(** X3.  [extract_manga_details] never raises, whatever the URL, the stub
    and the crawler do.  It fetches the URL it is given exactly once,
    sleeps and writes nothing, and the record it returns always has a list
    under ["genres"] and keeps every field of the stub other than the six
    detail fields. *)
Theorem extract_manga_details_never_raises (url : pyval) basic_info h :
  ∃ d new,
    extract_manga_details env url basic_info h = (inr d, h ++ new)
    ∧ fetches_of new = [url]
    ∧ delays_of new = []
    ∧ written new = []
    ∧ (∃ l, d !! "genres" = Some (PList l))
    ∧ (∀ k, k ∉ detail_keys → d !! k = basic_info !! k).
Proof.
  destruct (extract_manga_details_cases env url basic_info h)
    as [(soup & log & _ & -> & Hlog)|[e ->]].
  - eexists _, _. split; [by rewrite -assoc|].
    split_and!.
    + by destruct Hlog as [->|(title & _ & ->)].
    + by destruct Hlog as [->|(title & _ & ->)].
    + by destruct Hlog as [->|(title & _ & ->)].
    + eexists. apply record_of_genres.
    + intros k Hk. by apply record_of_other.
  - eexists _, _. split; [by rewrite -assoc|].
    split_and!; try done.
    + eexists. by rewrite lookup_insert_eq.
    + intros k Hk. rewrite lookup_insert_ne; [done|].
      intros <-. apply Hk. unfold detail_keys. in_list.
Qed.

(** X4.  When the detail document loads and the stub has a title, the
    record is complete and no error is reported: ["synopsis"] and
    ["status"] are stripped strings, ["author"] is a non-empty list of
    stripped strings, ["genres"] a list of stripped strings, ["rating"] is
    [None] or a non-negative number.  No text on the page can make the
    function fall back to the bare stub. *)
Theorem extract_manga_details_complete (url : pyval) basic_info h soup
    (title : pyval) :
  basic_info !! "title" = Some title →
  fetched env (h ++ [Printed [FS "Extracting details for: "; FV title]]) url
    = inr soup →
  ∃ d new,
    extract_manga_details env url basic_info h = (inr d, h ++ new)
    ∧ (∀ e, details_error url e ∉ new)
    ∧ (∃ s, d !! "synopsis" = Some (PStr s) ∧ stripped s)
    ∧ (∃ a, d !! "author" = Some (PList a) ∧ a ≠ [] ∧ Forall stripped a)
    ∧ (∃ g, d !! "genres" = Some (PList g) ∧ Forall stripped g)
    ∧ (d !! "rating" = Some PNone
       ∨ ∃ x, d !! "rating" = Some (PFloat x) ∧ float_nonneg x)
    ∧ (∃ st, d !! "status" = Some (PStr st) ∧ stripped st).
Proof.
  intros Ht Hf.
  rewrite (extract_manga_details_ok env url basic_info h soup title Ht Hf).
  eexists _, _. split; [by rewrite -assoc|]. split_and!.
  - intros e. unfold details_error.
    destruct (first_match genre_chain soup);
      rewrite !elem_of_cons elem_of_nil; intros H'; by decompose [or] H'.
  - apply record_of_synopsis.
  - apply record_of_author.
  - eexists. split; [apply record_of_genres|apply stripped_texts_stripped].
  - rewrite record_of_rating.
    destruct (bs4.select_one RATING_SELECTOR soup) as [e|]; [|by left].
    destruct (parse_rating_cases (bs4.text e)) as [->|(q & -> & Hq)];
      [by left|right; eauto].
  - apply record_of_status.
Qed.

(** X5.  On a document where none of the selectors matches, the record is
    the stub with the defaults: synopsis ["Not available"], author
    [["Unknown"]], no genres, rating [None], status ["Unknown"]; a
    ["cover_image"] is not added, and the missing genres are logged. *)
Theorem extract_manga_details_defaults (url : pyval) basic_info h soup
    (title : pyval) :
  basic_info !! "title" = Some title →
  fetched env (h ++ [Printed [FS "Extracting details for: "; FV title]]) url
    = inr soup →
  (∀ sel, sel ∈ detail_selectors → bs4.select sel soup = []) →
  ∃ h',
    extract_manga_details env url basic_info h
    = (inr (<["status" := PStr "Unknown"]> (<["rating" := PNone]>
             (<["genres" := PList []]> (<["author" := PList ["Unknown"]]>
                (<["synopsis" := PStr "Not available"]> basic_info))))), h')
    ∧ [FS "No genres found for "; FV title] ∈ printed h'.
Proof.
  intros Ht Hf Hnone.
  rewrite (extract_manga_details_ok env url basic_info h soup title Ht Hf).
  assert (first_match genre_chain soup = []) as Hg.
  { apply first_match_none. intros sel Hsel. apply Hnone.
    unfold detail_selectors. apply elem_of_app. by right. }
  assert (∀ sel, sel ∈ detail_selectors → bs4.select_one sel soup = None) as Hone.
  { intros sel Hsel. unfold bs4.select_one. by rewrite Hnone. }
  eexists. split.
  - f_equal. f_equal.
    unfold record_of, with_status, with_cover_image, with_author, with_synopsis.
    rewrite Hg.
    rewrite (Hone STATUS_SELECTOR); [|unfold detail_selectors; in_list].
    rewrite (Hone ".manga-status"); [|unfold detail_selectors; in_list].
    rewrite (Hone RATING_SELECTOR); [|unfold detail_selectors; in_list].
    rewrite (Hone COVER_SELECTOR); [|unfold detail_selectors; in_list].
    rewrite (Hone AUTHOR_SELECTOR); [|unfold detail_selectors; in_list].
    rewrite (Hone SYNOPSIS_SELECTOR); [|unfold detail_selectors; in_list].
    done.
  - rewrite Hg. unfold printed. rewrite !omap_app !elem_of_app. right. in_list.
Qed.

(** X6.  A stub without ["title"]: when the document loads but no genre
    selector matches, the line that reports the missing genres needs the
    title, the [KeyError] is caught by the function's own handler, and the
    synopsis, author, rating and status already extracted are dropped: the
    result is the stub with empty genres.  When a genre selector matches,
    the title is never asked for and the full record is returned. *)
Theorem extract_manga_details_untitled (url : pyval) basic_info h soup :
  basic_info !! "title" = None →
  fetched env (h ++ [Printed [FS "Extracting details for: "; FV (PStr "Unknown")]])
          url = inr soup →
  (first_match genre_chain soup = [] →
   ∃ new, extract_manga_details env url basic_info h
          = (inr (<["genres" := PList []]> basic_info), h ++ new)
          ∧ details_error url (KeyError "title") ∈ new
          ∧ (<["genres" := PList []]> basic_info) !! "synopsis"
            = basic_info !! "synopsis")
  ∧ (first_match genre_chain soup ≠ [] →
     ∃ new, extract_manga_details env url basic_info h
            = (inr (record_of soup basic_info), h ++ new)
            ∧ ∀ e, details_error url e ∉ new).
Proof.
  intros Ht Hf.
  assert (extract_manga_details env url basic_info h =
    match first_match genre_chain soup with
    | [] => (inr (<["genres" := PList []]> basic_info),
             h ++ [Printed [FS "Extracting details for: "; FV (PStr "Unknown")];
                   Arun url; details_error url (KeyError "title")])
    | _ :: _ => (inr (record_of soup basic_info),
                 h ++ [Printed [FS "Extracting details for: "; FV (PStr "Unknown")];
                       Arun url])
    end) as ->.
  { destruct (first_match genre_chain soup) as [|g gs] eqn:Hg;
      unfold extract_manga_details, fetched, details_error in *;
      munfold; rewrite Ht; simpl;
      set (h1 := h ++ [Printed [FS "Extracting details for: "; FV (PStr "Unknown")]]) in *;
      (destruct (arun_html env h1 url) as [e|html]; [done|]);
      rewrite Hf detail_fields_cases Ht Hg; subst h1; by rewrite -?assoc. }
  split.
  - intros Hg. rewrite Hg. eexists. split; [done|].
    split; [in_list|by rewrite lookup_insert_ne].
  - intros Hg. destruct (first_match genre_chain soup) as [|g gs]; [done|].
    eexists. split; [done|].
    intros e. rewrite !elem_of_cons elem_of_nil. unfold details_error.
    intros H'. by decompose [or] H'.
Qed.

End record_claims.

(** The rated page of the samples gives a complete record. *)
Lemma extract_manga_details_complete_witness :
  ∃ d new,
    extract_manga_details sample_env (PStr "https://mangareader.to/one-piece-3")
      one_piece_stub [] = (inr d, [] ++ new)
    ∧ (∀ e, details_error (PStr "https://mangareader.to/one-piece-3") e ∉ new)
    ∧ (∃ s, d !! "synopsis" = Some (PStr s) ∧ stripped s)
    ∧ (∃ a, d !! "author" = Some (PList a) ∧ a ≠ [] ∧ Forall stripped a)
    ∧ (∃ g, d !! "genres" = Some (PList g) ∧ Forall stripped g)
    ∧ (d !! "rating" = Some PNone
       ∨ ∃ x, d !! "rating" = Some (PFloat x) ∧ float_nonneg x)
    ∧ (∃ st, d !! "status" = Some (PStr st) ∧ stripped st).
Proof.
  apply (extract_manga_details_complete sample_env
           (PStr "https://mangareader.to/one-piece-3") one_piece_stub []
           (Dom.document (rated_page (Some "8.5/10"))) (PStr "One Piece"));
    vm_compute; reflexivity.
Defined.

(** The bare page of the samples matches none of the selectors. *)
Lemma extract_manga_details_defaults_witness :
  ∃ h',
    extract_manga_details sample_env (PStr "https://mangareader.to/bare")
      one_piece_stub []
    = (inr (<["status" := PStr "Unknown"]> (<["rating" := PNone]>
             (<["genres" := PList []]> (<["author" := PList ["Unknown"]]>
                (<["synopsis" := PStr "Not available"]> one_piece_stub))))), h')
    ∧ [FS "No genres found for "; FV (PStr "One Piece")] ∈ printed h'.
Proof.
  apply (extract_manga_details_defaults sample_env
           (PStr "https://mangareader.to/bare") one_piece_stub []
           (Dom.document bare_page) (PStr "One Piece")).
  - vm_compute; reflexivity.
  - vm_compute; reflexivity.
  - intros sel Hsel. unfold detail_selectors, genre_chain in Hsel.
    simpl in Hsel. rewrite !elem_of_cons elem_of_nil in Hsel.
    decompose [or] Hsel; subst; try done; vm_compute; reflexivity.
Defined.

(** The bare page with a stub that has no title, and the page with genres
    with the same stub. *)
Lemma extract_manga_details_untitled_witness :
  (∃ new, extract_manga_details sample_env (PStr "https://mangareader.to/bare")
            untitled_stub []
          = (inr (<["genres" := PList []]> untitled_stub), [] ++ new)
          ∧ details_error (PStr "https://mangareader.to/bare") (KeyError "title")
            ∈ new)
  ∧ (∃ new, extract_manga_details sample_env
              (PStr "https://mangareader.to/one-piece-3") untitled_stub []
            = (inr (record_of (Dom.document (rated_page (Some "8.5/10")))
                      untitled_stub), [] ++ new)).
Proof.
  split.
  - destruct (extract_manga_details_untitled sample_env
                (PStr "https://mangareader.to/bare") untitled_stub []
                (Dom.document bare_page)) as [Hnone _];
      [vm_compute; reflexivity..|].
    destruct Hnone as (new & Hrun & Hin & _); [vm_compute; reflexivity|].
    by exists new.
  - destruct (extract_manga_details_untitled sample_env
                (PStr "https://mangareader.to/one-piece-3") untitled_stub []
                (Dom.document (rated_page (Some "8.5/10")))) as [_ Hsome];
      [vm_compute; reflexivity..|].
    destruct Hsome as (new & Hrun & _); [by vm_compute|].
    by exists new.
Defined.

(** ** The loop over the stubs of a page *)

(** Every event of a list that is written out is a page event. *)
Ltac page_events :=
  repeat first [apply Forall_nil_2 | apply Forall_cons_2; [by split_and!|]
               | apply Forall_app_2].

Section page_facts.
Context {node : Type} `{bs4.Soup node} (env : Env node).
Implicit Types (h new : list event) (m d stub : dict).

Lemma fetches_of_app h1 h2 : fetches_of (h1 ++ h2) = fetches_of h1 ++ fetches_of h2.
Proof. apply omap_app. Qed.

Lemma delays_of_app h1 h2 : delays_of (h1 ++ h2) = delays_of h1 ++ delays_of h2.
Proof. apply omap_app. Qed.

Lemma written_app h1 h2 : written (h1 ++ h2) = written h1 ++ written h2.
Proof. apply omap_app. Qed.

Lemma record_of_from_stub (soup : node) stub : from_stub stub (record_of soup stub).
Proof.
  split; [intros k Hk; by apply record_of_other|].
  eexists. apply record_of_genres.
Qed.

Lemma empty_genres_from_stub stub : from_stub stub (<["genres" := PList []]> stub).
Proof.
  split.
  - intros k Hk. rewrite lookup_insert_ne; [done|].
    intros <-. apply Hk. unfold detail_keys. in_list.
  - eexists. by rewrite lookup_insert_eq.
Qed.

(** A detail extraction returns a record of the stub, fetches once, and
    does nothing else but print. *)
Lemma extract_manga_details_events (url : pyval) stub h :
  ∃ d new,
    extract_manga_details env url stub h = (inr d, h ++ new)
    ∧ from_stub stub d
    ∧ Forall page_event new
    ∧ fetches_of new = [url]
    ∧ delays_of new = []
    ∧ written new = [].
Proof.
  destruct (extract_manga_details_cases env url stub h)
    as [(soup & log & _ & -> & Hlog)|[e ->]].
  - eexists _, _. split; [by rewrite -assoc|].
    split; [apply record_of_from_stub|].
    destruct Hlog as [->|(title & _ & ->)]; split_and!; try done; page_events.
  - eexists _, _. split; [by rewrite -assoc|].
    split; [apply empty_genres_from_stub|].
    split_and!; try done. unfold details_error. page_events.
Qed.

Lemma page_events_no_error new :
  Forall page_event new → filter (λ ev, is_processing_error ev = true) new = [].
Proof.
  induction 1 as [|ev new (Hev & _ & _) _ IH]; [done|].
  rewrite filter_cons_False; [done|by rewrite Hev].
Qed.

Lemma page_events_no_crawler new :
  Forall page_event new →
  Forall (λ ev, is_crawler_event ev = false ∧ is_final_write ev = false) new.
Proof. intros Hev. eapply Forall_impl; [done|]. by intros ev (_ & ? & ?). Qed.

(** The loop returns one record per stub, in order, whatever the stubs
    are; it fetches the URLs of the stubs that have one, and reports one
    failed iteration for each stub that has none. *)
Lemma details_loop_events (mangas : list dict) : ∀ n i acc h,
  ∃ out new,
    details_loop env n i mangas acc h = (inr (acc ++ out), h ++ new)
    ∧ Forall2 from_stub mangas out
    ∧ fetches_of new = urls_of mangas
    ∧ written new = []
    ∧ Forall (λ ev, is_crawler_event ev = false ∧ is_final_write ev = false) new
    ∧ length (filter (λ ev, is_processing_error ev = true) new)
      = length (filter (λ m, m !! "url" = None) mangas).
Proof.
  induction mangas as [|m rest IH]; intros n i acc h.
  { exists [], []. rewrite !app_nil_r. by split_and!. }
  simpl. munfold. unfold getitem. unfold urls_of. simpl.
  destruct (m !! "url") as [u|] eqn:Hu.
  - destruct (extract_manga_details_events u m h)
      as (d & new1 & -> & Hd & Hev & Hf & Hs & Hw).
    rewrite filter_cons_False; [|by rewrite Hu].
    destruct (i <? n - 1)%nat; cbn -[details_loop Nat.add length].
    + set (delay := (Q2Qc 2 + (Q2Qc 4 - Q2Qc 2) * random_random env (h ++ new1))%Qc).
      destruct (IH n (S i) (acc ++ [d]) ((h ++ new1) ++ [Sleep delay]))
        as (out & new2 & -> & Hout & Hf2 & Hw2 & Hc2 & He2).
      exists (d :: out), (new1 ++ [Sleep delay] ++ new2).
      rewrite -!assoc. split_and!; [done|by constructor| | | |].
      * by rewrite !fetches_of_app Hf Hf2.
      * by rewrite !written_app Hw Hw2.
      * apply Forall_app_2; [by apply page_events_no_crawler|by constructor].
      * by rewrite !filter_app page_events_no_error.
    + destruct (IH n (S i) (acc ++ [d]) (h ++ new1))
        as (out & new2 & -> & Hout & Hf2 & Hw2 & Hc2 & He2).
      exists (d :: out), (new1 ++ new2).
      rewrite -!assoc. split_and!; [done|by constructor| | | |].
      * by rewrite !fetches_of_app Hf Hf2.
      * by rewrite !written_app Hw Hw2.
      * apply Forall_app_2; [by apply page_events_no_crawler|done].
      * by rewrite !filter_app page_events_no_error.
  - rewrite filter_cons_True; [|done].
    set (line := Printed _).
    destruct (IH n (S i) (acc ++ [<["genres" := PList []]> m]) (h ++ [line]))
      as (out & new2 & -> & Hout & Hf2 & Hw2 & Hc2 & He2).
    exists (<["genres" := PList []]> m :: out), (line :: new2).
    rewrite -!assoc. split_and!; [done| |done|done|by constructor|].
    + constructor; [apply empty_genres_from_stub|done].
    + rewrite filter_cons_True; [|done]. simpl. by rewrite He2.
Qed.

End page_facts.

(** ** Pages *)

Section run_facts.
Context {node : Type} `{bs4.Soup node} (env : Env node).
Implicit Types (h new : list event) (m d stub : dict).

(** A list extraction returns stubs whose URL is [None] or a string, and
    does nothing but print and fetch the page once. *)
Lemma extract_manga_list_events (url : string) h :
  ∃ stubs new,
    extract_manga_list env url h = (inr stubs, h ++ new)
    ∧ Forall page_event new
    ∧ fetches_of new = [PStr url]
    ∧ Forall (λ m : dict, ∃ u, m !! "url" = Some u ∧ absolute_or_missing u) stubs.
Proof.
  unfold extract_manga_list. munfold. simpl.
  destruct (arun_html env _ _) as [e|html].
  { eexists [], [_; _; _]. rewrite -!assoc. split_and!; [done| |done|done].
    page_events. }
  destruct (BeautifulSoup env html) as [e|soup].
  { eexists [], [_; _; _]. rewrite -!assoc. split_and!; [done| |done|done].
    page_events. }
  assert (Forall (λ m : dict, ∃ u, m !! "url" = Some u ∧ absolute_or_missing u)
            (omap item_stub (manga_elements_of soup))) as Hurls.
  { apply Forall_forall. intros stub (manga & _ & Hs)%list_elem_of_omap.
    by eapply item_stub_absolute. }
  destruct (primary_elements soup); rewrite items_loop_omap;
    eexists _, [_; _; _; _]; rewrite -!assoc;
    (split_and!; [done| |done|done]); page_events.
Qed.

Lemma dicts_of_fmap (ms : list dict) : dicts_of (DList (IDict <$> ms)) = ms.
Proof. induction ms as [|m ms IH]; [done|]. simpl. f_equal. exact IH. Qed.

(** On the stubs of a page the filter either raises on a URL that is
    [None], or keeps stubs whose URL is a string outside the listing. *)
Lemma filter_items_stubs (stubs : list dict) :
  Forall (λ m : dict, ∃ u, m !! "url" = Some u ∧ absolute_or_missing u) stubs →
  match filter_items (IDict <$> stubs) with
  | inr kept => ∃ ms, kept = IDict <$> ms ∧ Forall item_url ms
                      ∧ ms `sublist_of` stubs
  | inl e => e = NONE_URL_ERROR
  end.
Proof.
  induction 1 as [|m stubs (u & Hu & Habs) _ IH].
  { exists []. by split_and!. }
  rewrite fmap_cons. cbn [filter_items is_navigation]. rewrite Hu.
  destruct u as [|s|q|l]; cbn [py_in absolute_or_missing] in *; [done| |done..].
  destruct (filter_items (IDict <$> stubs)) as [e|kept]; [done|].
  destruct IH as (ms & -> & Hms & Hsub).
  destruct (contains "az-list" s) eqn:Hc.
  - exists ms. split_and!; [done..|]. by apply sublist_cons.
  - exists (m :: ms). split_and!; [done| |by apply sublist_skip].
    constructor; [|done]. by exists s.
Qed.

(** Saving returns and does nothing but make the directory, open and
    write the file it is given, and print. *)
Lemma save_to_json_events (data : list dict) (filename : string) h :
  String.eqb filename OUTPUT_FILE = false →
  ∃ new, save_to_json env data filename h = (inr tt, h ++ new)
         ∧ Forall page_event new ∧ fetches_of new = [].
Proof.
  intros Hname. unfold save_to_json. munfold. simpl.
  destruct (makedirs env h _) as [e1|[]].
  { eexists [_; _]. rewrite -!assoc. split_and!; [done| |done]. page_events. }
  destruct (open_w env _ filename) as [e2|[]].
  { eexists [_; _; _]. rewrite -!assoc. split_and!; [done| |done]. page_events. }
  destruct (json_dumps env (Some 2) false data) as [e3|content].
  { eexists [_; _; _]. rewrite -!assoc. split_and!; [done| |done]. page_events. }
  destruct (file_write env _ filename content) as [e4|[]].
  { eexists [_; _; _; _]. rewrite -!assoc. split_and!; [done| |done]. page_events. }
  eexists [_; _; _; _]. rewrite -!assoc. split_and!; [done| |done]. page_events.
Qed.

Lemma page_output_file_not_final (page : nat) :
  String.eqb (page_output_file page) OUTPUT_FILE = false.
Proof.
  apply String.eqb_neq. unfold page_output_file, OUTPUT_FILE.
  cbv [String.append]. discriminate.
Qed.

End run_facts.

Section run_loops.
Context {node : Type} `{bs4.Soup node} (env : Env node).
Implicit Types (h new : list event) (m d stub : dict).

Lemma item_url_has_url (ms : list dict) :
  Forall item_url ms → filter (λ m : dict, m !! "url" = None) ms = [].
Proof.
  induction 1 as [|m ms (s & Hs & _) _ IH]; [done|].
  rewrite filter_cons_False; [done|by rewrite Hs].
Qed.

Lemma no_error_events new :
  length (filter (λ ev, is_processing_error ev = true) new) = 0 →
  Forall (λ ev, is_processing_error ev = false) new.
Proof.
  induction new as [|ev new IH]; [by constructor|].
  destruct (is_processing_error ev) eqn:Hev.
  - rewrite filter_cons_True; [|done]. done.
  - rewrite filter_cons_False; [|by rewrite Hev]. intros Hlen.
    constructor; [done|by apply IH].
Qed.

(** The records made of stubs with an item URL have the same URLs. *)
Lemma from_stub_urls (ms data : list dict) :
  Forall2 from_stub ms data → Forall item_url ms →
  Forall item_url data ∧ urls_of data = urls_of ms.
Proof.
  induction 1 as [|m d ms data [Hkeep _] _ IH]; intros Hms; [done|].
  apply Forall_cons in Hms as [(s & Hs & Hc) Hms].
  destruct (IH Hms) as [Hdata Hurls].
  assert (d !! "url" = m !! "url") as Hd.
  { apply Hkeep. unfold detail_keys. rewrite !not_elem_of_cons.
    split_and!; try done. apply not_elem_of_nil. }
  split.
  - constructor; [|done]. exists s. by rewrite Hd.
  - unfold urls_of in *. simpl. rewrite Hd Hs. simpl. f_equal. exact Hurls.
Qed.

(** One page: it returns the records collected so far followed by one
    record per stub the filter keeps, or raises on a URL that is [None];
    either way it does nothing a page is not expected to do. *)
Lemma process_page_events (page : nat) (acc : list dict) h :
  ∃ r new,
    process_page env page acc h = (r, h ++ new)
    ∧ Forall page_event new
    ∧ match r with
      | inr out =>
          ∃ data, out = acc ++ data ∧ Forall item_url data
                  ∧ fetches_of new = PStr (page_url page) :: urls_of data
      | inl e => e = NONE_URL_ERROR ∧ fetches_of new = [PStr (page_url page)]
      end.
Proof.
  unfold process_page. munfold. lazy beta iota zeta.
  set (h1 := h ++ [Printed _]).
  destruct (extract_manga_list_events env (page_url page) h1)
    as (stubs & new1 & Hlist & Hev1 & Hf1 & Hurls).
  unfold page_url in Hlist. rewrite Hlist. lazy beta iota zeta.
  pose proof (filter_items_stubs stubs Hurls) as Hfilter.
  unfold filter_navigation_links.
  destruct (filter_items (IDict <$> stubs)) as [e|kept].
  { subst e. eexists (inl _), ([_] ++ new1). rewrite /h1 -!assoc.
    split_and!; [done| |done|by rewrite fetches_of_app Hf1].
    apply Forall_app_2; [page_events|done]. }
  destruct Hfilter as (ms & -> & Hms & _). rewrite dicts_of_fmap.
  set (h2 := (h1 ++ new1) ++ [Printed _]).
  destruct (details_loop_events env ms (length ms) 0 [] h2)
    as (data & new2 & Hloop & Hfrom & Hf2 & _ & Hc2 & He2).
  rewrite Hloop. lazy beta iota zeta.
  destruct (from_stub_urls ms data Hfrom Hms) as [Hdata Hsame].
  assert (Forall page_event new2) as Hev2.
  { rewrite item_url_has_url in He2; [|done]. apply no_error_events in He2.
    apply Forall_forall. intros ev Hev.
    pose proof (proj1 (Forall_forall _ _) He2 ev Hev).
    pose proof (proj1 (Forall_forall _ _) Hc2 ev Hev) as [? ?]. by split_and!. }
  destruct (save_to_json_events env ([] ++ data) (page_output_file page)
              (h2 ++ new2) (page_output_file_not_final page))
    as (new3 & Hsave & Hev3 & Hf3).
  unfold page_output_file in Hsave. rewrite Hsave. lazy beta iota zeta.
  destruct (page <? MAX_PAGES)%nat; munfold; lazy beta iota zeta.
  - eexists (inr _), (([_] ++ new1) ++ [_] ++ new2 ++ new3 ++ [_; _]).
    split; [rewrite /h2 /h1 -!assoc; reflexivity|]. split.
    { repeat apply Forall_app_2; try done; page_events. }
    exists data. split_and!; [done..|].
    by rewrite !fetches_of_app Hf1 Hf2 Hf3 Hsame /= ?app_nil_r.
  - eexists (inr _), (([_] ++ new1) ++ [_] ++ new2 ++ new3).
    split; [rewrite /h2 /h1 -!assoc; reflexivity|]. split.
    { repeat apply Forall_app_2; try done; page_events. }
    exists data. split_and!; [done..|].
    by rewrite !fetches_of_app Hf1 Hf2 Hf3 Hsame /= ?app_nil_r.
Qed.

(** The pages: the records collected so far are kept in front, and the
    only way out other than the end is a URL that is [None]. *)
Lemma pages_loop_events (pages : list nat) : ∀ acc h,
  ∃ r new,
    pages_loop env pages acc h = (r, h ++ new)
    ∧ Forall page_event new
    ∧ match r with
      | inr out => ∃ data, out = acc ++ data ∧ Forall item_url data
      | inl e => e = NONE_URL_ERROR
      end.
Proof.
  induction pages as [|page pages IH]; intros acc h.
  { exists (inr acc), []. rewrite app_nil_r. split_and!; [done..|].
    exists []. by rewrite app_nil_r. }
  simpl. unfold mbind, M_bind.
  destruct (process_page_events page acc h) as (r1 & new1 & -> & Hev1 & Hr1).
  destruct r1 as [e|out1].
  - exists (inl e), new1. by destruct Hr1.
  - destruct Hr1 as (data1 & -> & Hdata1 & _).
    destruct (IH (acc ++ data1) (h ++ new1)) as (r & new2 & -> & Hev2 & Hr).
    exists r, (new1 ++ new2). rewrite -!assoc.
    split_and!; [done|by apply Forall_app_2|].
    destruct r as [e|out]; [done|].
    destruct Hr as (data2 & -> & Hdata2).
    exists (data1 ++ data2). rewrite -assoc. split; [done|].
    by apply Forall_app_2.
Qed.

Lemma item_url_keyed (ms : list dict) : Forall item_url ms → Forall keyed ms.
Proof.
  intros Hms. eapply Forall_impl; [done|].
  intros m (s & Hs & _). by exists (PStr s).
Qed.

(** Saving does nothing to the crawler. *)
Lemma save_to_json_no_crawler (data : list dict) (filename : string) h :
  ∃ new, save_to_json env data filename h = (inr tt, h ++ new)
         ∧ Forall (λ ev, is_crawler_event ev = false) new.
Proof.
  unfold save_to_json. munfold. simpl.
  destruct (makedirs env h _) as [e1|[]].
  { eexists [_; _]. rewrite -!assoc. split; [done|]. by repeat constructor. }
  destruct (open_w env _ filename) as [e2|[]].
  { eexists [_; _; _]. rewrite -!assoc. split; [done|]. by repeat constructor. }
  destruct (json_dumps env (Some 2) false data) as [e3|content].
  { eexists [_; _; _]. rewrite -!assoc. split; [done|]. by repeat constructor. }
  destruct (file_write env _ filename content) as [e4|[]].
  { eexists [_; _; _; _]. rewrite -!assoc. split; [done|]. by repeat constructor. }
  eexists [_; _; _; _]. rewrite -!assoc. split; [done|]. by repeat constructor.
Qed.

(** The run, case by case: the crawler cannot be made; a page raises on a
    URL that is [None]; or the pages are done, the records deduplicated
    and, if there are any, saved. *)
Lemma main_cases h :
  let h1 := h ++ [Printed [FS "Starting crawler with random user agent..."]] in
  let ua := default "" (USER_AGENTS !! random_below env h1 (length USER_AGENTS)) in
  ∃ r new,
    main env h = (r, h1 ++ NewCrawler ua :: new)
    ∧ match new_crawler env h1 ua with
      | inl e => r = inl e ∧ new = []
      | inr _ =>
          ∃ body tail,
            new = body ++ tail ++ [CloseCrawler]
            ∧ Forall page_event body
            ∧ Forall (λ ev, is_crawler_event ev = false) tail
            ∧ ((r = inl NONE_URL_ERROR ∧ tail = []) ∨ r = inr tt)
      end.
Proof.
  intros h1 ua. unfold main. munfold. lazy beta iota zeta.
  fold h1. fold ua.
  destruct (new_crawler env h1 ua) as [e|[]].
  { eexists (inl e), []. by rewrite -!assoc. }
  destruct (pages_loop_events (seq FIRST_PAGE (MAX_PAGES + 1 - FIRST_PAGE))
              [] (h1 ++ [NewCrawler ua]))
    as (r & body & -> & Hbody & Hr).
  destruct r as [e|manga_list].
  { subst e. eexists (inl _), (body ++ [_]). rewrite -!assoc.
    split; [done|]. exists body, []. split_and!; [done..|by left]. }
  destruct Hr as (data & -> & Hdata).
  rewrite dedupe_keep; [|by apply item_url_keyed].
  lazy beta iota zeta.
  destruct (keep_unseen ∅ ([] ++ data)) as [|manga unique].
  - eexists (inr tt), (body ++ [_; _; _]). rewrite -!assoc.
    split; [done|]. eexists body, [_; _].
    split_and!; [done|done|by repeat constructor|by right].
  - set (h2 := _ ++ [Printed [FS "Found "; _; _; _; _]]).
    destruct (save_to_json_no_crawler (manga :: unique) OUTPUT_FILE h2)
      as (new3 & -> & Hev3).
    eexists (inr tt), (body ++ [_] ++ new3 ++ [_; _]).
    rewrite /h2 -!assoc. split; [done|].
    eexists body, ([_] ++ new3 ++ [_]).
    split_and!; [by rewrite -!assoc|done| |by right].
    apply Forall_app_2; [by repeat constructor|].
    apply Forall_app_2; [done|by repeat constructor].
Qed.

End run_loops.

(** ** The loop of [main] and the run *)

Section run_claims.
Context {node : Type} `{bs4.Soup node} (env : Env node).
Implicit Types (h new : list event) (m d stub : dict).

(** X7.  The loop over the stubs of a page never raises and returns one
    record per stub, in the order of the stubs, whatever the stubs are
    and whatever the crawler does: each record has the title, URL and
    cover of its stub and a list of genres.  It fetches the URLs of the
    stubs that have one, in order, writes nothing, and reports a failed
    iteration exactly for the stubs without ["url"]. *)
Theorem details_loop_one_record_per_stub (n i : nat) (mangas acc : list dict) h :
  ∃ out new,
    details_loop env n i mangas acc h = (inr (acc ++ out), h ++ new)
    ∧ length out = length mangas
    ∧ Forall2 (λ m d, d !! "title" = m !! "title" ∧ d !! "url" = m !! "url"
                      ∧ d !! "cover_url" = m !! "cover_url"
                      ∧ ∃ l, d !! "genres" = Some (PList l)) mangas out
    ∧ fetches_of new = urls_of mangas
    ∧ written new = []
    ∧ length (filter (λ ev, is_processing_error ev = true) new)
      = length (filter (λ m, m !! "url" = None) mangas).
Proof.
  destruct (details_loop_events env mangas n i acc h)
    as (out & new & Hrun & Hout & Hf & Hw & _ & He).
  exists out, new. split_and!; [done| |  |done..].
  - symmetry. by eapply Forall2_length.
  - eapply Forall2_impl; [done|]. intros m d [Hkeep Hg].
    split_and!; [apply Hkeep..|done];
      unfold detail_keys; rewrite !not_elem_of_cons;
      (split_and!; [done..|apply not_elem_of_nil]).
Qed.

Lemma item_urls_detail (data : list dict) :
  Forall item_url data → Forall detail_url (urls_of data).
Proof.
  induction 1 as [|m data (s & Hs & Hc) _ IH]; [constructor|].
  unfold urls_of in *. simpl. rewrite Hs. simpl. constructor; [by exists s|done].
Qed.

(** X8.  A page of the run never takes the [except] branch of the loop
    over its stubs: no failed iteration is reported, since every stub of
    [extract_manga_list] has a URL and [extract_manga_details] does not
    raise.  The page fetches its catalogue page and then only detail URLs
    that are strings outside the listing; it either returns the records
    collected so far with its own records behind them, or raises the
    [TypeError] of the filter on a URL that is [None], before any detail
    fetch. *)
Theorem process_page_no_failed_item (page : nat) (acc : list dict) h :
  ∃ r new details,
    process_page env page acc h = (r, h ++ new)
    ∧ Forall (λ ev, is_processing_error ev = false) new
    ∧ fetches_of new = PStr (page_url page) :: details
    ∧ Forall detail_url details
    ∧ match r with
      | inr out => acc `prefix_of` out ∧ length out = length acc + length details
      | inl e => e = NONE_URL_ERROR ∧ details = []
      end.
Proof.
  destruct (process_page_events env page acc h) as (r & new & Hrun & Hev & Hr).
  assert (Forall (λ ev, is_processing_error ev = false) new) as Hquiet.
  { eapply Forall_impl; [done|]. by intros ev (? & _). }
  destruct r as [e|out].
  - destruct Hr as [-> Hf]. exists (inl NONE_URL_ERROR), new, [].
    split_and!; [done..|constructor|done].
  - destruct Hr as (data & -> & Hdata & Hf).
    exists (inr (acc ++ data)), new, (urls_of data).
    split_and!; [done..|by apply item_urls_detail|by apply prefix_app_r|].
    rewrite length_app. f_equal. symmetry. apply urls_of_length.
    eapply Forall_impl; [done|]. intros m (s & -> & _). by eexists.
Qed.

(** X9.  [main] makes the crawler once, right after its first line, and
    when that succeeds it closes the crawler exactly once, as the last
    thing it does, whether the run completes or raises.  When the crawler
    cannot be made, [main] raises that error and does nothing else. *)
Theorem main_closes_crawler h :
  let h1 := h ++ [Printed [FS "Starting crawler with random user agent..."]] in
  let ua := default "" (USER_AGENTS !! random_below env h1 (length USER_AGENTS)) in
  ∃ r new,
    main env h = (r, h1 ++ NewCrawler ua :: new)
    ∧ match new_crawler env h1 ua with
      | inl e => r = inl e ∧ new = []
      | inr _ => ∃ mid, new = mid ++ [CloseCrawler]
                        ∧ Forall (λ ev, is_crawler_event ev = false) mid
      end.
Proof.
  intros h1 ua. destruct (main_cases env h) as (r & new & Hrun & Hcases).
  exists r, new. split; [done|]. fold h1 ua in Hcases.
  destruct (new_crawler env h1 ua) as [e|[]]; [done|].
  destruct Hcases as (body & tail & -> & Hbody & Htail & _).
  exists (body ++ tail). rewrite -assoc. split; [done|].
  apply Forall_app_2; [|done].
  eapply Forall_impl; [done|]. by intros ev (_ & ? & _).
Qed.


End run_claims.


(** ** More on [filter_navigation_links] and the deduplication *)

Section filter_facts.
Implicit Types (l kept : list item) (it : item).

Lemma filter_items_spec l kept :
  filter_items l = inr kept →
  kept = filter (λ it, is_navigation it = inr false) l
  ∧ Forall (λ it, is_navigation it = inr false) kept.
Proof.
  revert kept. induction l as [|it l IH]; intros kept; simpl.
  { intros [= <-]. by split. }
  destruct (is_navigation it) as [e|nav] eqn:Hnav; [done|].
  destruct (filter_items l) as [e|kept']; [done|].
  destruct (IH kept' eq_refl) as [-> Hall]. intros [= <-].
  destruct nav.
  - rewrite filter_cons_False; [|by rewrite Hnav]. done.
  - rewrite filter_cons_True; [|done]. split; [done|by constructor].
Qed.

Lemma filter_items_fixed kept :
  Forall (λ it, is_navigation it = inr false) kept → filter_items kept = inr kept.
Proof.
  induction 1 as [|it kept Hit _ IH]; [done|]. simpl. by rewrite Hit IH.
Qed.


End filter_facts.

(** X11.  Whenever [filter_navigation_links] returns, it returns its
    fixed point: run on its own result it returns that result.  On a list
    the result is a subsequence of the argument that holds every entry
    that is not a [dict], every [dict] without ["url"] and every [dict]
    whose URL is a string outside the listing; what is not a list is
    returned as it is. *)
Theorem filter_navigation_links_idempotent (data out : pydata) :
  filter_navigation_links data = inr out →
  filter_navigation_links out = inr out
  ∧ (∀ v, data = DOther v → out = data)
  ∧ (∀ l, data = DList l →
       ∃ kept, out = DList kept ∧ kept `sublist_of` l
               ∧ ∀ it, it ∈ l → is_navigation it = inr false → it ∈ kept).
Proof.
  destruct data as [l|v]; simpl.
  - destruct (filter_items l) as [e|kept] eqn:Hf; [done|]. intros [= <-].
    destruct (filter_items_spec l kept Hf) as [Hkept Hall].
    split_and!; [by rewrite /= filter_items_fixed|done|].
    intros ? [= <-]. exists kept. split_and!; [done| |].
    + rewrite Hkept. apply sublist_filter.
    + intros it Hit Hnav. rewrite Hkept. by apply list_elem_of_filter.
  - intros [= <-]. split_and!; [done|by intros ? [= <-]|done].
Qed.

Lemma filter_navigation_links_idempotent_witness :
  filter_navigation_links (DList mixed_entries) = inr (DList (drop 1 mixed_entries))
  ∧ filter_navigation_links (DList (drop 1 mixed_entries))
    = inr (DList (drop 1 mixed_entries)).
Proof.
  assert (filter_navigation_links (DList mixed_entries)
          = inr (DList (drop 1 mixed_entries))) as Hrun by (vm_compute; reflexivity).
  split; [exact Hrun|].
  exact (proj1 (filter_navigation_links_idempotent _ _ Hrun)).
Defined.


Section dedupe_more.
Implicit Types (l acc : list dict) (seen : gset pyval).


End dedupe_more.

(** X13.  On records with pairwise distinct hashable URLs the
    deduplication is the identity: nothing is dropped and nothing is
    reordered. *)
Theorem dedupe_distinct_identity (records : list dict) :
  Forall keyed records → NoDup (url_of <$> records) →
  dedupe records = inr records.
Proof.
  intros Hk Hnd. rewrite dedupe_keep; [|done]. f_equal.
  apply keep_unseen_fixed; [done..|]. intros r u _ _. apply not_elem_of_empty.
Qed.

Lemma dedupe_distinct_identity_witness :
  dedupe (take 2 sample_records) = inr (take 2 sample_records).
Proof.
  apply dedupe_distinct_identity.
  - repeat constructor; eexists; (split; [reflexivity|reflexivity]).
  - vm_compute. repeat constructor; rewrite ?elem_of_cons ?elem_of_nil;
      intros Hin; decompose [or] Hin; done.
Defined.


(** ** [combine_json_files] *)

Section combine_facts.
Import Combine.
Context (fs : Files) (input_dir : string).
Implicit Types (names : list string) (items : list json) (old : gmap string json).

Lemma docs_in_cons (name : string) names :
  docs_in fs input_dir (name :: names)
  = match read_json fs input_dir name with
    | Parsed d => [d]
    | _ => []
    end ++ docs_in fs input_dir names.
Proof.
  unfold docs_in, parsed_docs. rewrite fmap_cons. simpl.
  by destruct (read_json fs input_dir name).
Qed.

Lemma docs_in_app names1 names2 :
  docs_in fs input_dir (names1 ++ names2)
  = docs_in fs input_dir names1 ++ docs_in fs input_dir names2.
Proof. unfold docs_in, parsed_docs. by rewrite fmap_app omap_app. Qed.

Lemma process_files_cons (merge_dicts : bool) (name : string) names (c : combined) :
  (process_files fs input_dir merge_dicts (name :: names) c).1
  = (process_files fs input_dir merge_dicts names
       (process merge_dicts c name (read_json fs input_dir name)).1).1.
Proof.
  simpl. destruct (process merge_dicts c name _) as [c1 log1]. simpl.
  by destruct (process_files fs input_dir merge_dicts names c1).
Qed.

(** Without merging, the loop appends every document it can read. *)
Lemma process_files_list names : ∀ items,
  (process_files fs input_dir false names (CList items)).1
  = CList (items ++ docs_in fs input_dir names).
Proof.
  induction names as [|name names IH]; intros items.
  { simpl. by rewrite app_nil_r. }
  rewrite process_files_cons docs_in_cons.
  destruct (read_json fs input_dir name) as [d| |msg]; simpl; rewrite IH //.
  by rewrite -assoc.
Qed.

(** When merging, once [combined_data] is a list the loop appends the
    documents that are no objects and drops the objects. *)
Lemma process_files_merge_list names : ∀ items,
  (process_files fs input_dir true names (CList items)).1
  = CList (items ++ filter (λ d, is_object d = false) (docs_in fs input_dir names)).
Proof.
  induction names as [|name names IH]; intros items.
  { simpl. by rewrite app_nil_r. }
  rewrite process_files_cons docs_in_cons.
  destruct (read_json fs input_dir name) as [d| |msg]; simpl; [|by rewrite IH..].
  destruct d; simpl; rewrite IH;
    first [by rewrite filter_cons_False | by rewrite filter_cons_True // -assoc].
Qed.

Lemma last_member_app (k : string) (ms1 ms2 : list (gmap string json)) :
  last_member k (ms1 ++ ms2)
  = match last_member k ms2 with
    | Some v => Some v
    | None => last_member k ms1
    end.
Proof.
  induction ms1 as [|m ms1 IH]; simpl; [by destruct (last_member k ms2)|].
  rewrite IH. by destruct (last_member k ms2).
Qed.

(** When merging, as long as every document is an object the loop keeps a
    [dict] in which a key has the value of the last object that has it. *)
Lemma process_files_merge_objects names : ∀ old,
  Forall (λ d, is_object d = true) (docs_in fs input_dir names) →
  ∃ members,
    (process_files fs input_dir true names (CDict old)).1 = CDict members
    ∧ ∀ k, members !! k
           = match last_member k (objects_of (docs_in fs input_dir names)) with
             | Some v => Some v
             | None => old !! k
             end.
Proof.
  induction names as [|name names IH]; intros old Hall.
  { by exists old. }
  rewrite process_files_cons. rewrite docs_in_cons in Hall |- *.
  destruct (read_json fs input_dir name) as [d| |msg]; simpl in *.
  - apply Forall_cons in Hall as [Hd Hall].
    destruct d as [| | | | |m]; try done. simpl.
    destruct (IH (m ∪ old) Hall) as (members & Hrun & Hk).
    exists members. split; [done|].
    intros k. rewrite Hk.
    destruct (last_member k _); [done|].
    rewrite lookup_union. by destruct (m !! k), (old !! k).
  - by apply IH.
  - by apply IH.
Qed.

Lemma process_files_app (merge_dicts : bool) names1 names2 (c : combined) :
  (process_files fs input_dir merge_dicts (names1 ++ names2) c).1
  = (process_files fs input_dir merge_dicts names2
       (process_files fs input_dir merge_dicts names1 c).1).1.
Proof.
  revert c. induction names1 as [|name names1 IH]; intros c; [done|].
  by rewrite -app_comm_cons !process_files_cons IH.
Qed.

Lemma process_files_cons_log (merge_dicts : bool) (name : string) names
    (c : combined) :
  (process_files fs input_dir merge_dicts (name :: names) c).2
  = (process merge_dicts c name (read_json fs input_dir name)).2
    ++ (process_files fs input_dir merge_dicts names
          (process merge_dicts c name (read_json fs input_dir name)).1).2.
Proof.
  simpl. destruct (process merge_dicts c name _) as [c1 log1]. simpl.
  by destruct (process_files fs input_dir merge_dicts names c1).
Qed.

Lemma process_files_app_log (merge_dicts : bool) names1 names2 (c : combined) :
  (process_files fs input_dir merge_dicts (names1 ++ names2) c).2
  = (process_files fs input_dir merge_dicts names1 c).2
    ++ (process_files fs input_dir merge_dicts names2
          (process_files fs input_dir merge_dicts names1 c).1).2.
Proof.
  revert c. induction names1 as [|name names1 IH]; intros c; [done|].
  by rewrite -app_comm_cons !process_files_cons_log process_files_cons IH assoc.
Qed.

(** When merging into a list, an object is dropped with a line that says
    so. *)
Lemma dropped_object_logged names : ∀ items (name : string) (m : gmap string json),
  name ∈ names → read_json fs input_dir name = Parsed (JObject m) →
  [FS "Error processing "; FS name; FS ": "; FS NO_UPDATE]
  ∈ (process_files fs input_dir true names (CList items)).2.
Proof.
  induction names as [|n names IH]; intros items name m Hin Hm;
    [by apply elem_of_nil in Hin|].
  rewrite process_files_cons_log. apply elem_of_app.
  apply elem_of_cons in Hin as [<-|Hin].
  - left. rewrite Hm. simpl. by left.
  - right.
    assert (∃ items1, (process true (CList items) n (read_json fs input_dir n)).1
                      = CList items1) as [items1 ->].
    { destruct (read_json fs input_dir n) as [[]| |]; simpl; by eexists. }
    by eapply IH.
Qed.

(** The lines of the loop are among the lines of the call. *)
Lemma loop_lines (output_file : string) (merge_dicts : bool) (line : list frag) :
  is_dir fs input_dir = true →
  line ∈ (process_files fs input_dir merge_dicts (glob_json fs input_dir)
            (if negb merge_dicts then CList [] else CDict ∅)).2 →
  line ∈ lines (combine_json_files fs input_dir output_file merge_dicts).
Proof.
  intros Hdir. unfold combine_json_files. rewrite Hdir. simpl.
  destruct (glob_json fs input_dir) as [|name names] eqn:Hglob;
    [by intros ?%elem_of_nil|].
  destruct (process_files fs input_dir merge_dicts (name :: names) _) as [c log].
  simpl. intros Hline.
  destruct (write_json fs output_file (to_json c)); simpl;
    rewrite elem_of_cons elem_of_app; right; by left.
Qed.

(** What is handed to [json.dump] is what the loop leaves. *)
Lemma dumped_eq (output_file : string) (merge_dicts : bool) :
  is_dir fs input_dir = true → glob_json fs input_dir ≠ [] →
  dumped (combine_json_files fs input_dir output_file merge_dicts)
  = Some (to_json
      (process_files fs input_dir merge_dicts (glob_json fs input_dir)
         (if negb merge_dicts then CList [] else CDict ∅)).1).
Proof.
  intros Hdir Hfiles. unfold combine_json_files. rewrite Hdir. simpl.
  destruct (glob_json fs input_dir) as [|name names] eqn:Hglob; [done|].
  destruct (process_files fs input_dir merge_dicts (name :: names) _) as [c log].
  by destruct (write_json fs output_file (to_json c)).
Qed.

End combine_facts.

Section combine_claims.
Import Combine.
Context (fs : Files) (input_dir output_file : string).

(** X15.  [combine_json_files] returns [True] exactly when the directory
    exists, holds at least one JSON file and the output could be written;
    nothing is handed to [json.dump] when the directory is missing or
    holds no JSON file.  Files that cannot be read or parsed do not
    change the return value, and the line that reports success counts the
    files found, not the files read. *)
Theorem combine_returns_true_iff (merge_dicts : bool) :
  let o := combine_json_files fs input_dir output_file merge_dicts in
  (returned o = true ↔
     is_dir fs input_dir = true ∧ glob_json fs input_dir ≠ []
     ∧ ∃ v, dumped o = Some v ∧ write_json fs output_file v = None)
  ∧ (dumped o = None ↔ is_dir fs input_dir = false ∨ glob_json fs input_dir = [])
  ∧ (returned o = true →
     last (lines o)
     = Some [FS "Successfully combined "; FN (length (glob_json fs input_dir));
             FS " JSON files into "; FS output_file]).
Proof.
  unfold combine_json_files.
  destruct (is_dir fs input_dir); simpl.
  2: { split_and!; [|by split; eauto|done]. split; [done|]. by intros [? _]. }
  destruct (glob_json fs input_dir) as [|name names] eqn:Hglob.
  { simpl. split_and!; [|by split; eauto|done]. split; [done|]. by intros (_ & ? & _). }
  destruct (process_files fs input_dir merge_dicts (name :: names) _) as [c log].
  destruct (write_json fs output_file (to_json c)) as [msg|] eqn:Hw; simpl.
  - split_and!; [|split; [done|by intros [?|?]]|done].
    split; [done|]. intros (_ & _ & v & [= <-] & Hv). congruence.
  - split_and!; [|split; [done|by intros [?|?]]|].
    + split; [|done]. intros _. split_and!; [done..|]. by exists (to_json c).
    + intros _. by rewrite last_cons last_snoc.
Qed.

(** X16.  Without [merge_dicts] the value written is the list of the
    documents that could be read, in the order of the files; a file that
    is not JSON or cannot be read leaves no trace in it, and an object
    is one element of the list like any other document. *)
Theorem combine_list_mode :
  is_dir fs input_dir = true → glob_json fs input_dir ≠ [] →
  dumped (combine_json_files fs input_dir output_file false)
  = Some (JArray (docs_in fs input_dir (glob_json fs input_dir))).
Proof.
  intros Hdir Hfiles. rewrite dumped_eq; [|done..]. simpl.
  by rewrite process_files_list.
Qed.

(** X17.  With [merge_dicts], when every document read is an object, the
    value written is one object: it has a key exactly when one of the
    documents has it, with the value of the last document that has it
    (later files win). *)
Theorem combine_merge_objects :
  is_dir fs input_dir = true → glob_json fs input_dir ≠ [] →
  Forall (λ d, is_object d = true) (docs_in fs input_dir (glob_json fs input_dir)) →
  ∃ members,
    dumped (combine_json_files fs input_dir output_file true)
    = Some (JObject members)
    ∧ ∀ k, members !! k
           = last_member k
               (objects_of (docs_in fs input_dir (glob_json fs input_dir))).
Proof.
  intros Hdir Hfiles Hall. rewrite dumped_eq; [|done..]. simpl.
  destruct (process_files_merge_objects fs input_dir _ ∅ Hall)
    as (members & -> & Hk).
  exists members. split; [done|]. intros k. rewrite Hk.
  by destruct (last_member k _).
Qed.

(** X18.  With [merge_dicts], the first document that is no object turns
    the result into a list: the object merged so far, that document, and
    the documents after it that are no objects.  Every object that comes
    after it is dropped, the attempt to merge it into a list being caught
    and printed as an error. *)
Theorem combine_merge_after_non_object (before after : list string)
    (name : string) (v : json) :
  is_dir fs input_dir = true →
  glob_json fs input_dir = before ++ name :: after →
  Forall (λ d, is_object d = true) (docs_in fs input_dir before) →
  read_json fs input_dir name = Parsed v → is_object v = false →
  ∃ members,
    dumped (combine_json_files fs input_dir output_file true)
    = Some (JArray (JObject members :: v ::
                    filter (λ d, is_object d = false) (docs_in fs input_dir after)))
    ∧ (∀ k, members !! k = last_member k (objects_of (docs_in fs input_dir before)))
    ∧ ∀ name' m, name' ∈ after → read_json fs input_dir name' = Parsed (JObject m) →
        [FS "Error processing "; FS name'; FS ": "; FS NO_UPDATE]
        ∈ lines (combine_json_files fs input_dir output_file true).
Proof.
  intros Hdir Hglob Hall Hv Hnot.
  destruct (process_files_merge_objects fs input_dir before ∅ Hall)
    as (members & Hbefore & Hk).
  assert ((process_files fs input_dir true (before ++ name :: after) (CDict ∅)).1
          = CList (JObject members :: v ::
                   filter (λ d, is_object d = false) (docs_in fs input_dir after)))
    as Hrun.
  { rewrite process_files_app Hbefore process_files_cons Hv.
    destruct v; try done; simpl; by rewrite process_files_merge_list. }
  exists members. split_and!.
  - rewrite dumped_eq; [|done|by rewrite Hglob; destruct before].
    simpl. by rewrite Hglob Hrun.
  - intros k. rewrite Hk. by destruct (last_member k _).
  - intros name' m Hin Hm. apply loop_lines; [done|]. simpl.
    rewrite Hglob process_files_app_log. apply elem_of_app. right.
    rewrite Hbefore process_files_cons_log. apply elem_of_app. right.
    rewrite Hv.
    assert (∃ items, (process true (CDict members) name (Parsed v)).1 = CList items)
      as [items ->] by (destruct v; try done; by eexists).
    by eapply dropped_object_logged.
Qed.

End combine_claims.

(** The sample directory: four documents in the order of the files, the
    file that is not JSON left out. *)
Lemma combine_list_mode_witness :
  Combine.dumped (Combine.combine_json_files sample_files "pages" "all.json" false)
  = Some (Combine.JArray (docs_in sample_files "pages"
            ["a.json"; "bad.json"; "b.json"; "list.json"; "c.json"]))
  ∧ length (docs_in sample_files "pages"
              ["a.json"; "bad.json"; "b.json"; "list.json"; "c.json"]) = 4.
Proof.
  split; [|reflexivity].
  apply (combine_list_mode sample_files "pages" "all.json"); by vm_compute.
Defined.

(** The directory of objects: [y] has the value of the later file. *)
Lemma combine_merge_objects_witness :
  ∃ members,
    Combine.dumped (Combine.combine_json_files object_files "pages" "all.json" true)
    = Some (Combine.JObject members)
    ∧ members !! "x" = Some (Combine.JNumber "1")
    ∧ members !! "y" = Some (Combine.JNumber "2")
    ∧ members !! "z" = None.
Proof.
  destruct (combine_merge_objects object_files "pages" "all.json")
    as (members & Hrun & Hk);
    [reflexivity|by vm_compute|vm_compute; by repeat constructor|].
  exists members. split; [exact Hrun|].
  rewrite !Hk. by vm_compute.
Defined.

(** The sample directory when merging: the array ends the merge, and the
    object of [c.json] is lost. *)
Lemma combine_merge_after_non_object_witness :
  ∃ members,
    Combine.dumped (Combine.combine_json_files sample_files "pages" "all.json" true)
    = Some (Combine.JArray [Combine.JObject members;
                            Combine.JArray [Combine.JString "One Piece"]])
    ∧ members !! "y" = Some (Combine.JNumber "2")
    ∧ members !! "z" = None
    ∧ [FS "Error processing "; FS "c.json"; FS ": "; FS Combine.NO_UPDATE]
      ∈ Combine.lines
          (Combine.combine_json_files sample_files "pages" "all.json" true).
Proof.
  destruct (combine_merge_after_non_object sample_files "pages" "all.json"
              ["a.json"; "bad.json"; "b.json"] ["c.json"] "list.json"
              (Combine.JArray [Combine.JString "One Piece"]))
    as (members & Hrun & Hk & Hlost);
    [reflexivity|reflexivity|vm_compute; by repeat constructor
    |reflexivity|reflexivity|].
  exists members. split; [exact Hrun|]. rewrite !Hk.
  split_and!; [by vm_compute..|].
  eapply (Hlost "c.json"); [by left|reflexivity].
Defined.
